(** * alpaca_spot_loader: the incremental synchronisation engine

    A shallow embedding of the loader of [alpaca_spot_loader]
    ([__main__.py], [date_helpers.py], [model/bar_record.py],
    [queries/spot.py], [queries/spot_latest.py]) and the properties of
    its specification.

    Conventions.
    - Python [int] is [Z]; [str] is [string], read as ASCII text.
    - Python [float] is IEEE binary64, embedded as [spec_float] with the
      operations of [SpecFloat] at precision 53 and [emax] 1024.
    - A naive [datetime] is the number of microseconds between the epoch
      1970-01-01T00:00:00 and its wall-clock fields; a [timedelta] is a
      number of microseconds.
    - A call that may raise returns a [result]; the loader's methods are
      state transformers that keep the state reached when they raise. *)

From Stdlib Require Import ZArith QArith Ascii String List Lia.
From Stdlib Require Import Floats.SpecFloat.
From stdpp Require Import base option list gmap strings.

Local Open Scope string_scope.
Local Open Scope Z_scope.

(** ** Python primitives *)

Module Py.

Inductive exn : Set :=
| ValueError | IndexError | KeyError | TypeError | OverflowError
| APIError | ProgrammingError.

Inductive result (A : Type) : Type :=
| Ok (a : A)
| Raise (e : exn).
Arguments Ok {A} a.
Arguments Raise {A} e.

Definition bind {A B} (r : result A) (k : A -> result B) : result B :=
  match r with
  | Ok a => k a
  | Raise e => Raise e
  end.

(** [Py_ISSPACE] on ASCII: tab, newline, vertical tab, form feed,
    carriage return and space. *)
Definition is_space (c : ascii) : bool :=
  let n := N_of_ascii c in
  ((9 <=? n)%N && (n <=? 13)%N) || (n =? 32)%N.

Definition digit_value (c : ascii) : option N :=
  let n := N_of_ascii c in
  if ((48 <=? n)%N && (n <=? 57)%N) then Some (n - 48)%N else None.

Fixpoint lstrip (cs : list ascii) : list ascii :=
  match cs with
  | c :: r => if is_space c then lstrip r else cs
  | [] => []
  end.

Definition strip (cs : list ascii) : list ascii :=
  rev (lstrip (rev (lstrip cs))).

(** The digit scan of [int(str)] in base ten: decimal digits, single
    underscores allowed between two digits. [prev_us] says that the
    previous character was an underscore. *)
Fixpoint scan_digits (cs : list ascii) (prev_us : bool) (acc : N)
  : option N :=
  match cs with
  | [] => if prev_us then None else Some acc
  | c :: r =>
      match digit_value c with
      | Some d => scan_digits r false (acc * 10 + d)%N
      | None =>
          if Ascii.eqb c "_"%char
          then (if prev_us then None else scan_digits r true acc)
          else None
      end
  end.

Definition scan_number (cs : list ascii) : option N :=
  match cs with
  | [] => None
  | c :: _ => if Ascii.eqb c "_"%char then None else scan_digits cs false 0%N
  end.

(** [int(s)] for a string: surrounding whitespace, an optional sign,
    then the digits; anything else is a [ValueError]. *)
Definition int_of_str (s : string) : result Z :=
  let cs := strip (list_ascii_of_string s) in
  let '(neg, ds) :=
    match cs with
    | c :: r =>
        if Ascii.eqb c "-"%char then (true, r)
        else if Ascii.eqb c "+"%char then (false, r)
        else (false, cs)
    | [] => (false, cs)
    end in
  match scan_number ds with
  | Some n => Ok (if neg then - Z.of_N n else Z.of_N n)
  | None => Raise ValueError
  end.

(** [str(n)] for an int: the decimal digits, most significant first,
    after a minus sign when [n] is negative. *)
Fixpoint digits_fuel (fuel : nat) (n : N) (acc : list ascii) : list ascii :=
  match fuel with
  | O => acc
  | S fuel' =>
      let acc' := ascii_of_N (48 + n mod 10) :: acc in
      if (n / 10 =? 0)%N then acc' else digits_fuel fuel' (n / 10)%N acc'
  end.

Definition digits (n : N) : list ascii :=
  digits_fuel (S (N.to_nat (N.log2 n))) n [].

Definition str_of_int (n : Z) : string :=
  string_of_list_ascii
    (match n with
     | Zneg p => "-"%char :: digits (Npos p)
     | _ => digits (Z.to_N n)
     end).

Definition is_digit (c : ascii) : Prop := is_Some (digit_value c).

(** A character that is a digit, and so neither whitespace, a sign nor
    an underscore. *)
Definition plain (c : ascii) : Prop :=
  is_digit c /\ is_space c = false /\ Ascii.eqb c "-" = false
  /\ Ascii.eqb c "+" = false /\ Ascii.eqb c "_" = false.

(** [s[:-1]] and [s[-1]]. *)
Definition all_but_last (s : string) : string :=
  string_of_list_ascii (removelast (list_ascii_of_string s)).

Definition last_char (s : string) : result ascii :=
  match rev (list_ascii_of_string s) with
  | c :: _ => Ok c
  | [] => Raise IndexError
  end.

(** [l[i]], where a negative [i] counts from the end. *)
Definition index {A} (l : list A) (i : Z) : result A :=
  let n := Z.of_nat (length l) in
  let j := if i <? 0 then i + n else i in
  if (0 <=? j) && (j <? n)
  then match l !! Z.to_nat j with Some a => Ok a | None => Raise IndexError end
  else Raise IndexError.

(** *** binary64 *)

Definition prec : Z := 53.
Definition emax : Z := 1024.

Definition float_of_int (n : Z) : spec_float :=
  binary_normalize prec emax n 0 false.

Definition float_mul : spec_float -> spec_float -> spec_float :=
  SFmul prec emax.

Definition float_div : spec_float -> spec_float -> spec_float :=
  SFdiv prec emax.

(** [a / b] on two ints with [b] positive: the correctly rounded
    quotient. *)
Definition int_truediv (a : Z) (b : positive) : spec_float :=
  match a with
  | Z0 => S754_zero false
  | Zpos p => float_div (S754_finite false p 0) (S754_finite false b 0)
  | Zneg p => float_div (S754_finite true p 0) (S754_finite false b 0)
  end.

(** [int(x)] on a float truncates towards zero. *)
Definition int_of_float (x : spec_float) : result Z :=
  match x with
  | S754_zero _ => Ok 0
  | S754_finite s m e =>
      Ok (cond_Zopp s
            (match e with
             | Zneg p => Z.shiftr (Zpos m) (Zpos p)
             | _ => Z.shiftl (Zpos m) e
             end))
  | S754_infinity _ => Raise OverflowError
  | S754_nan => Raise ValueError
  end.

(** The exact value of a float that has one. *)
Definition float_value (x : spec_float) : option Q :=
  match x with
  | S754_zero _ => Some 0%Q
  | S754_finite s m e =>
      Some (match e with
            | Zneg p => Qmake (cond_Zopp s (Zpos m)) (2 ^ p)%positive
            | _ => inject_Z (cond_Zopp s (Zpos m) * 2 ^ e)
            end)
  | _ => None
  end.

(** *** datetime and timedelta *)

Abbreviation datetime := Z (only parsing).
Abbreviation timedelta := Z (only parsing).

Definition US_PER_SECOND : Z := 1000000.
Definition US_PER_DAY : Z := 86400 * US_PER_SECOND.

(** [datetime.min] is 0001-01-01T00:00:00 and [datetime.max] is
    9999-12-31T23:59:59.999999. *)
Definition datetime_min : datetime := -62135596800 * US_PER_SECOND.
Definition datetime_max : datetime := 253402300799 * US_PER_SECOND + 999999.

(** [timedelta] keeps at most 999999999 days in magnitude. *)
Definition timedelta_in_range (us : Z) : bool :=
  let days := us / US_PER_DAY in
  (-999999999 <=? days) && (days <=? 999999999).

Definition timedelta_of (us : Z) : result timedelta :=
  if timedelta_in_range us then Ok us else Raise OverflowError.

Definition timedelta_seconds (s : Z) : result timedelta :=
  timedelta_of (s * US_PER_SECOND).

Definition timedelta_days (d : Z) : result timedelta :=
  timedelta_of (d * US_PER_DAY).

Definition total_seconds (td : timedelta) : spec_float :=
  int_truediv td 1000000.

Definition datetime_add (d : datetime) (td : timedelta) : result datetime :=
  let r := d + td in
  if (datetime_min <=? r) && (r <=? datetime_max) then Ok r
  else Raise OverflowError.

(** [d.replace(tzinfo=timezone.utc).timestamp()]. *)
Definition timestamp (d : datetime) : spec_float :=
  int_truediv d 1000000.

End Py.

#[export] Instance result_ret : MRet Py.result := @Py.Ok.
#[export] Instance result_bind : MBind Py.result :=
  fun A B k r => Py.bind r k.

(** ** date_helpers.py *)

Module date_helpers.
Import Py.

Definition SECONDS_PER_UNIT (unit : ascii) : result Z :=
  if Ascii.eqb unit "m"%char then Ok 60
  else if Ascii.eqb unit "h"%char then Ok (60 * 60)
  else if Ascii.eqb unit "d"%char then Ok (24 * 60 * 60)
  else if Ascii.eqb unit "w"%char then Ok (7 * 24 * 60 * 60)
  else Raise KeyError.

Definition parse_interval_to_timedelta (interval_str : string)
  : result timedelta :=
  value ← int_of_str (all_but_last interval_str);
  unit ← last_char interval_str;
  per_unit ← SECONDS_PER_UNIT unit;
  timedelta_seconds (value * per_unit).

Definition interval_to_seconds (interval : string) : result spec_float :=
  td ← parse_interval_to_timedelta interval;
  Ok (total_seconds td).

Definition datetime_to_binance_timestamp (d : datetime) : result Z :=
  int_of_float (float_mul (timestamp d) (float_of_int 1000)).

Definition get_next_interval (interval : string) (timestamp : datetime)
  : result datetime :=
  td ← parse_interval_to_timedelta interval;
  datetime_add timestamp td.

(** [utcnow] is the value [datetime.utcnow()] returns when it is
    called. *)
Definition check_active (utcnow : datetime) (interval : string) (d : datetime)
  : result bool :=
  ts ← datetime_to_binance_timestamp d;
  value ← int_of_str (all_but_last interval);
  unit ← last_char interval;
  per_unit ← SECONDS_PER_UNIT unit;
  let lag1 := value * per_unit * 1000 in
  now ← datetime_to_binance_timestamp utcnow;
  if now - lag1 >=? ts then Ok false else Ok true.

(** The specifier [<n><unit>], as [str(n) + unit]. *)
Definition specifier (n : Z) (unit : ascii) : string :=
  str_of_int n ++ String unit "".

Definition units : list ascii := ["m"; "h"; "d"; "w"]%char.

End date_helpers.

(** ** decimal.Decimal *)

Module decimal.
Import Py.

(** A [Decimal] is a sign, an integer coefficient and a power of ten,
    or one of the special values. *)
Inductive Decimal : Set :=
| Finite (sign : bool) (coeff : N) (exp : Z)
| Infinity (sign : bool)
| NaN.

(** [float.as_integer_ratio] on [m * 2^(-k)]: the fraction in lowest
    terms, as a numerator and the exponent of its power-of-two
    denominator. *)
Fixpoint lowest_terms (m : positive) (k : nat) : positive * nat :=
  match k, m with
  | S k', xO m' => lowest_terms m' k'
  | _, _ => (m, k)
  end.

Definition as_integer_ratio (m : positive) (e : Z) : positive * nat :=
  match e with
  | Zneg p => lowest_terms m (Pos.to_nat p)
  | _ => (Z.to_pos (Zpos m * 2 ^ e), O)
  end.

(** [Decimal(f)] for a float [f] ([Decimal.from_float]): exact. *)
Definition from_float (f : spec_float) : Decimal :=
  match f with
  | S754_nan => NaN
  | S754_infinity s => Infinity s
  | S754_zero s => Finite s 0 0
  | S754_finite s m e =>
      let '(n, k) := as_integer_ratio m e in
      Finite s (Npos n * 5 ^ N.of_nat k) (- Z.of_nat k)
  end.

(** [Decimal(x)] where [x] may be [None]. *)
Definition of_optional (x : option spec_float) : result Decimal :=
  match x with
  | Some f => Ok (from_float f)
  | None => Raise TypeError
  end.

(** The number a finite [Decimal] denotes. *)
Definition value (d : Decimal) : option Q :=
  match d with
  | Finite s c e =>
      let c' := cond_Zopp s (Z.of_N c) in
      Some (match e with
            | Zneg p => Qmake c' (10 ^ p)%positive
            | _ => inject_Z (c' * 10 ^ e)
            end)
  | _ => None
  end.

(** Two optional numbers denote the same thing. *)
Definition same_number (a b : option Q) : Prop :=
  match a, b with
  | Some x, Some y => (x == y)%Q
  | None, None => True
  | _, _ => False
  end.

End decimal.

(** ** alpaca.data.models.Bar and model/bar_record.py *)

Module bar_record.
Import Py decimal.

(** The provider's bar: [trade_count] and [vwap] are optional. *)
Record Bar : Set := mkBar {
  bar_symbol : string;
  bar_timestamp : datetime;
  bar_open : spec_float;
  bar_high : spec_float;
  bar_low : spec_float;
  bar_close : spec_float;
  bar_volume : spec_float;
  bar_trade_count : option spec_float;
  bar_vwap : option spec_float
}.

Record BarRecord : Set := mkBarRecord {
  id : Z;
  symbol : string;
  open_time : datetime;
  open_price : Decimal;
  high_price : Decimal;
  low_price : Decimal;
  close_price : Decimal;
  volume_stock : Decimal;
  volume_dollar : Decimal;
  vwap : Decimal;
  trades : Z
}.

(** [bar.volume * bar.vwap]: a product of floats, a [TypeError] when
    [vwap] is [None]. *)
Definition volume_times_vwap (bar : Bar) : result spec_float :=
  match bar_vwap bar with
  | Some w => Ok (float_mul (bar_volume bar) w)
  | None => Raise TypeError
  end.

Definition int_of_optional (x : option spec_float) : result Z :=
  match x with
  | Some f => int_of_float f
  | None => Raise TypeError
  end.

Definition build_record (id : Z) (bar : Bar) : result BarRecord :=
  let open_price := from_float (bar_open bar) in
  let high_price := from_float (bar_high bar) in
  let low_price := from_float (bar_low bar) in
  let close_price := from_float (bar_close bar) in
  let volume_stock := from_float (bar_volume bar) in
  product ← volume_times_vwap bar;
  let volume_dollar := from_float product in
  vwap ← of_optional (bar_vwap bar);
  trades ← int_of_optional (bar_trade_count bar);
  Ok (mkBarRecord id (bar_symbol bar) (bar_timestamp bar)
        open_price high_price low_price close_price
        volume_stock volume_dollar vwap trades).

Definition BarTuple : Set :=
  (Z * string * datetime * Decimal * Decimal * Decimal * Decimal
   * Decimal * Decimal * Decimal * Z)%type.

Definition as_tuple (r : BarRecord) : BarTuple :=
  (id r, symbol r, open_time r, open_price r, high_price r, low_price r,
   close_price r, volume_stock r, volume_dollar r, vwap r, trades r).

End bar_record.

(** ** model.Latest *)

Module latest.
Import Py.

(** Modelled from the spec: [model/latest.py] is missing. A
    LatestCheckpoint holds the symbol, the id of the most recently
    known bar, that bar's open timestamp, the [active] flag and the
    source name; [build_record] takes the five values in the order of
    the columns of [spot_latest.UPSERT], and [as_tuple] gives them
    back in that order. *)
Record Latest : Set := mkLatest {
  symbol : string;
  id : Z;
  latest_close : datetime;
  active : bool;
  source : string
}.

Definition build_record (symbol : string) (id : Z) (latest_close : datetime)
    (active : bool) (source : string) : Latest :=
  mkLatest symbol id latest_close active source.

Definition LatestTuple : Set := (string * Z * datetime * bool * string)%type.

Definition as_tuple (r : Latest) : LatestTuple :=
  (symbol r, id r, latest_close r, active r, source r).

End latest.

(** ** queries/spot.py and queries/spot_latest.py *)

Module queries.

(** The statements, by the tables their text names once [{interval}]
    is filled in. *)
Inductive statement : Set :=
| InsertSpotOnConflictUpdate (table : string)
| InsertLatestOnConflictUpdate (table : string)
| UpdateActiveFromValues (table : string) (where_table : string).

Module SpotQueries.
Definition UPSERT (interval : string) : statement :=
  InsertSpotOnConflictUpdate ("spot_" ++ interval).
End SpotQueries.

Module SpotLatestQueries.
Definition UPSERT (interval : string) : statement :=
  InsertLatestOnConflictUpdate ("spot_" ++ interval ++ "_latest").

(** The [WHERE] clause names [spot_1h_latest] whatever the
    interval. *)
Definition CORRECT_TRADING_STATUS (interval : string) : statement :=
  UpdateActiveFromValues ("spot_" ++ interval ++ "_latest") "spot_1h_latest".
End SpotLatestQueries.

End queries.

(** ** persistance.target *)

Module target.
Import Py bar_record latest queries.

(** Modelled from the spec: [persistance/target.py] and the tables'
    declarations are missing. The store keeps, for the loader's
    interval, the bars keyed on (symbol, open timestamp) and the
    checkpoints keyed on symbol; [execute] runs a statement inside the
    open transaction and [commit_transaction] makes the transaction's
    writes durable; ids come in contiguous blocks from a sequence that
    never goes back. *)
(** The other columns of a checkpoint: id, latest_close, active,
    source. *)
Definition LatestRow : Set := (Z * Z * bool * string)%type.

Record Tables : Type := mkTables {
  spot : gmap (string * Z) BarTuple;
  spot_latest : gmap string LatestRow
}.

Record Target : Type := mkTarget {
  durable : Tables;
  session : Tables;
  sequence : Z
}.

Definition spot_key (r : BarTuple) : string * Z :=
  let '(_, symbol, open_time, _, _, _, _, _, _, _, _) := r in
  (symbol, open_time).

Definition spot_id (r : BarTuple) : Z :=
  let '(id, _, _, _, _, _, _, _, _, _, _) := r in id.

Definition with_spot_id (id : Z) (r : BarTuple) : BarTuple :=
  let '(_, symbol, open_time, o, h, l, c, vs, vd, vw, t) := r in
  (id, symbol, open_time, o, h, l, c, vs, vd, vw, t).

(** [ON CONFLICT (symbol, open_time) DO UPDATE SET] every column but
    [id]. *)
Definition on_conflict_spot (old : option BarTuple) (r : BarTuple) : BarTuple :=
  match old with
  | Some old => with_spot_id (spot_id old) r
  | None => r
  end.

Definition upsert_spot_row (t : gmap (string * Z) BarTuple) (r : BarTuple)
  : gmap (string * Z) BarTuple :=
  <[spot_key r := on_conflict_spot (t !! spot_key r) r]> t.

(** A row-by-row upsert, by the key of a row and what a row becomes
    when one is stored under its key already; and what the upsert of a
    row does to the row stored under the key [k]. *)
Definition upsert_by {K V R : Type} `{Countable K} (key : R -> K)
    (merge : option V -> R -> V) (t : gmap K V) (r : R) : gmap K V :=
  <[key r := merge (t !! key r) r]> t.

Definition at_key_by {K V R : Type} `{Countable K} (key : R -> K)
    (merge : option V -> R -> V) (k : K) (o : option V) (r : R) : option V :=
  if decide (key r = k) then Some (merge o r) else o.

Definition latest_key (r : LatestTuple) : string :=
  let '(symbol, _, _, _, _) := r in symbol.

Definition latest_row (r : LatestTuple) : LatestRow :=
  let '(_, id, latest_close, active, source) := r in
  (id, latest_close, active, source).

Definition row_latest_close (r : LatestRow) : Z := r.1.1.2.
Definition row_active (r : LatestRow) : bool := r.1.2.

(** [ON CONFLICT (symbol) DO UPDATE SET] every column. *)
Definition upsert_latest_row (t : gmap string LatestRow) (r : LatestTuple)
  : gmap string LatestRow :=
  <[latest_key r := latest_row r]> t.

Definition set_active (a : bool) (r : LatestRow) : LatestRow :=
  let '(id, latest_close, _, source) := r in
  (id, latest_close, a, source).

(** [UPDATE ... SET active=data.active FROM (VALUES ...) AS data
    WHERE symbol = data.symbol]. *)
Definition update_active_row (t : gmap string LatestRow) (d : string * bool)
  : gmap string LatestRow :=
  alter (set_active d.2) d.1 t.

Definition execute_spot (q : statement) (rows : list BarTuple) (t : Tables)
  : result Tables :=
  match q with
  | InsertSpotOnConflictUpdate _ =>
      Ok (mkTables (foldl upsert_spot_row (spot t) rows) (spot_latest t))
  | _ => Raise ProgrammingError
  end.

Definition execute_latest (q : statement) (rows : list LatestTuple) (t : Tables)
  : result Tables :=
  match q with
  | InsertLatestOnConflictUpdate _ =>
      Ok (mkTables (spot t) (foldl upsert_latest_row (spot_latest t) rows))
  | _ => Raise ProgrammingError
  end.

(** A statement whose [WHERE] clause names a table that is not the
    updated one is rejected. *)
Definition execute_status (q : statement) (rows : list (string * bool))
    (t : Tables) : result Tables :=
  match q with
  | UpdateActiveFromValues table where_table =>
      if String.eqb table where_table
      then Ok (mkTables (spot t) (foldl update_active_row (spot_latest t) rows))
      else Raise ProgrammingError
  | _ => Raise ProgrammingError
  end.

Definition commit_transaction (tg : Target) : Target :=
  mkTarget (session tg) (session tg) (sequence tg).

(** The rows as (symbol, latest_close, active). *)
Definition get_latest (tg : Target) : list (string * Z * bool) :=
  (fun kv : string * LatestRow =>
     (kv.1, row_latest_close kv.2, row_active kv.2))
  <$> map_to_list (spot_latest (session tg)).

Definition get_inactive_symbols (tg : Target) : list string :=
  (filter (fun kv : string * LatestRow => row_active kv.2 = false)
     (map_to_list (spot_latest (session tg)))).*1.

Definition get_next_ids (n : nat) (tg : Target) : list Z * Target :=
  ((fun i => sequence tg + Z.of_nat i) <$> seq 0 n,
   mkTarget (durable tg) (session tg) (sequence tg + Z.of_nat n)).

End target.

(** ** persistance/source.py *)

Module source.
Import Py bar_record.

(** What the provider and the clock answer during one cycle:
    [stock_bars tf symbol start] is [get_stock_bars(request)[symbol]]
    for the timeframe [tf], [all_assets] is the answer of
    [get_all_assets] as (symbol, tradable) pairs, and [utcnow i] is
    the clock while the [i]-th key of the cycle is processed. *)
Record World : Type := mkWorld {
  stock_bars : Z * ascii -> string -> Z -> result (list Bar);
  all_assets : result (list (string * bool));
  utcnow : nat -> Z
}.

Definition units_to_timeframe (unit : ascii) : result ascii :=
  if Ascii.eqb unit "m"%char || Ascii.eqb unit "h"%char
     || Ascii.eqb unit "d"%char || Ascii.eqb unit "w"%char
  then Ok unit else Raise KeyError.

Definition interval_to_timeframe (interval : string) : result (Z * ascii) :=
  amount ← int_of_str (all_but_last interval);
  c ← last_char interval;
  unit ← units_to_timeframe c;
  Ok (amount, unit).

Definition get_trading_status (w : World) (symbols : list string)
  : result (option (list (string * bool))) :=
  match all_assets w with
  | Ok assets =>
      Ok (Some (match symbols with
                | [] => []
                | _ => filter (fun a => a.1 ∈ symbols) assets
                end))
  | Raise APIError => Ok None
  | Raise e => Raise e
  end.

Definition get_bars (w : World) (symbol interval : string) (start_time : Z)
  : result (option (list Bar)) :=
  match (tf ← interval_to_timeframe interval;
         stock_bars w tf symbol start_time) with
  | Ok bars => Ok (Some bars)
  | Raise KeyError => Ok None
  | Raise APIError => Ok None
  | Raise e => Raise e
  end.

End source.

(** ** __main__.py *)

Module Loader.
Import Py date_helpers bar_record latest queries target source.

Inductive Mode : Set := FAST | SLOW.

(** The calls that leave the process, in the order they are made. *)
Inductive event : Type :=
| EvSleep (seconds : Z)
| EvGetBars (symbol : string) (start_time : Z)
| EvExecute (q : statement) (n_rows : nat)
| EvCommit.

Record Loader : Type := mkLoader {
  source_name : string;
  mode : Mode;
  n_requests : Z;
  schema : string;
  _target : Target;
  _interval : string;
  _n_active_symbols : Z;
  trace : list event
}.

(** [Loader.__init__] followed by [setup]. *)
Definition init (tg : Target) (interval : string) : Loader :=
  mkLoader "ALPACA" FAST 1 "alpaca" tg interval 0 [].

(** A method: it runs on the loader's state and either returns or
    raises, and the state it reached stays. *)
Definition M (A : Type) : Type := Loader -> result A * Loader.

Definition ret {A} (a : A) : M A := fun s => (Ok a, s).
Definition bindM {A B} (m : M A) (k : A -> M B) : M B :=
  fun s => match m s with
           | (Ok a, s') => k a s'
           | (Raise e, s') => (Raise e, s')
           end.
Definition lift {A} (r : result A) : M A := fun s => (r, s).
Definition get : M Loader := fun s => (Ok s, s).
Definition put (s : Loader) : M unit := fun _ => (Ok tt, s).

Definition set_mode (m : Mode) (s : Loader) : Loader :=
  mkLoader (source_name s) m (n_requests s) (schema s) (_target s)
    (_interval s) (_n_active_symbols s) (trace s).
Definition set_n_requests (n : Z) (s : Loader) : Loader :=
  mkLoader (source_name s) (mode s) n (schema s) (_target s)
    (_interval s) (_n_active_symbols s) (trace s).
Definition set_target (tg : Target) (s : Loader) : Loader :=
  mkLoader (source_name s) (mode s) (n_requests s) (schema s) tg
    (_interval s) (_n_active_symbols s) (trace s).
Definition set_n_active_symbols (n : Z) (s : Loader) : Loader :=
  mkLoader (source_name s) (mode s) (n_requests s) (schema s) (_target s)
    (_interval s) n (trace s).
Definition emit (e : event) (s : Loader) : Loader :=
  mkLoader (source_name s) (mode s) (n_requests s) (schema s) (_target s)
    (_interval s) (_n_active_symbols s) (trace s ++ [e]).

Definition modify (f : Loader -> Loader) : M unit :=
  fun s => (Ok tt, f s).

#[export] Instance loader_ret : MRet M := @ret.
#[export] Instance loader_bind : MBind M := fun A B k m => bindM m k.

Definition check_request_limit : M unit :=
  s ← get;
  let n := n_requests s + 1 in
  if n >=? 800
  then modify (fun s => set_n_requests 1 (emit (EvSleep 60) s))
  else modify (set_n_requests n).

(** [self._target.execute(q, rows)], given how [q] acts on the tables. *)
Definition execute (run : Tables -> result Tables) (q : statement)
    (n_rows : nat) : M unit :=
  fun s =>
    let tg := _target s in
    match run (session tg) with
    | Ok t' =>
        (Ok tt,
         emit (EvExecute q n_rows)
           (set_target (mkTarget (durable tg) t' (sequence tg)) s))
    | Raise e => (Raise e, emit (EvExecute q n_rows) s)
    end.

Definition commit : M unit :=
  modify (fun s => emit EvCommit (set_target (commit_transaction (_target s)) s)).

Definition persist_records (records : list BarTuple)
    (latest_records : list LatestTuple) : M unit :=
  s ← get;
  let q1 := SpotQueries.UPSERT (_interval s) in
  let q2 := SpotLatestQueries.UPSERT (_interval s) in
  _ ← execute (execute_spot q1 records) q1 (length records);
  _ ← execute (execute_latest q2 latest_records) q2 (length latest_records);
  commit.

Definition next_ids (n : nat) : M (list Z) :=
  fun s =>
    let '(ids, tg) := get_next_ids n (_target s) in
    (Ok ids, set_target tg s).

(** [list(set(symbol_lst) - set(symbol for symbol,_,_ in latest))]. *)
Definition new_symbols_of (symbol_lst : list string)
    (latest : list (string * Z * bool)) : list string :=
  elements ((list_to_set symbol_lst : gset string)
              ∖ list_to_set ((fun r => r.1.1) <$> latest)).

Definition active_key (interval : string) (row : string * Z * bool)
  : result (list (string * Z)) :=
  let '(symbol, latest_close, active) := row in
  if active
  then start ← get_next_interval interval latest_close; Ok [(symbol, start)]
  else Ok [].

Definition earliest_key (s : string) : result (string * Z) :=
  day ← timedelta_days 1;
  start ← datetime_add datetime_min day;
  Ok (s, start).

Definition get_keys (symbol_lst : list string) : M (list (string * Z)) :=
  s ← get;
  let latest := get_latest (_target s) in
  active_keys ←
    lift (match latest with
          | [] => Ok []
          | _ => ks ← mapM (active_key (_interval s)) latest; Ok (mjoin ks)
          end);
  let new_symbols :=
    match latest with
    | [] => symbol_lst
    | _ => new_symbols_of symbol_lst latest
    end in
  new_keys ← lift (mapM earliest_key new_symbols);
  let keys := (active_keys ++ new_keys)%list in
  _ ← modify (set_n_active_symbols (Z.of_nat (length keys)));
  mret keys.

(** [now] is what [datetime.utcnow()] returns inside [check_active]. *)
Definition latest_closed (now : Z) (s : Loader) (symbol : string)
    (record_objs : list BarRecord) : result (option Latest) :=
  let active := true in
  if 1 <? Z.of_nat (length record_objs)
  then
    last_closed_bar ← index record_objs (-2);
    Ok (Some (latest.build_record symbol (bar_record.id last_closed_bar)
                (open_time last_closed_bar) active (source_name s)))
  else
    first ← index record_objs 0;
    active ← check_active now (_interval s) (open_time first);
    if negb active
    then
      last_bar ← index record_objs 0;
      Ok (Some (latest.build_record symbol (bar_record.id last_bar)
                  (open_time last_bar) active (source_name s)))
    else Ok None.

(** The local variables of [load_from_keys]. *)
Record Locals : Type := mkLocals {
  record_objs : list BarRecord;
  new_latest : list (option Latest);
  processed_symbols : nat;
  persisted_records : Z
}.

Definition BATCH_SIZE : Z := 1000.

Definition build_records (bars : list Bar) (record_ids : list Z)
  : result (list BarRecord) :=
  mapM (fun p : Bar * Z => bar_record.build_record p.2 p.1)
    (zip bars record_ids).

(** The part of the loop body that fetches and builds. *)
Definition fetch_symbol (w : World) (l : Locals) (symbol : string)
    (start_time : Z) : M Locals :=
  let processed := S (processed_symbols l) in
  _ ← check_request_limit;
  s ← get;
  _ ← modify (emit (EvGetBars symbol start_time));
  bars ← lift (get_bars w symbol (_interval s) start_time);
  match bars with
  | None | Some [] =>
      mret (mkLocals (record_objs l) (new_latest l) processed
              (persisted_records l))
  | Some bars =>
      record_ids ← next_ids (length bars);
      symbol_record_objs ← lift (build_records bars record_ids);
      ckpt ← lift (latest_closed (utcnow w processed) s symbol
                     symbol_record_objs);
      mret (mkLocals (record_objs l ++ symbol_record_objs)
              (new_latest l ++ [ckpt]) processed (persisted_records l))
  end.

Definition flush_due (s : Loader) (l : Locals) : bool :=
  match record_objs l with
  | [] => false
  | _ => (Z.of_nat (processed_symbols l) mod BATCH_SIZE =? 0)
         || (Z.of_nat (processed_symbols l) =? _n_active_symbols s)
  end.

(** The batch persistence at the end of the loop body. *)
Definition flush_batch (l : Locals) : M Locals :=
  s ← get;
  if flush_due s l
  then
    _ ← persist_records (bar_record.as_tuple <$> record_objs l)
          (omap (fmap latest.as_tuple) (new_latest l));
    mret (mkLocals [] [] (processed_symbols l)
            (persisted_records l + Z.of_nat (length (record_objs l))))
  else mret l.

Fixpoint load_loop (w : World) (keys : list (string * Z)) (l : Locals)
  : M Z :=
  match keys with
  | [] => mret (persisted_records l)
  | (symbol, start_time) :: keys' =>
      l1 ← fetch_symbol w l symbol start_time;
      l2 ← flush_batch l1;
      load_loop w keys' l2
  end.

Definition load_from_keys (w : World) (keys : list (string * Z)) : M Z :=
  load_loop w keys (mkLocals [] [] 0 0).

Definition check_trading_status (w : World) : M unit :=
  s ← get;
  let inactive_symbols := get_inactive_symbols (_target s) in
  trading_status ← lift (get_trading_status w inactive_symbols);
  _ ← check_request_limit;
  match trading_status with
  | None | Some [] => mret tt
  | Some trading_status =>
      let active_symbols := filter (fun p => p.2 = true) trading_status in
      match active_symbols with
      | [] => mret tt
      | _ =>
          let q := SpotLatestQueries.CORRECT_TRADING_STATUS (_interval s) in
          _ ← execute (execute_status q active_symbols) q
                (length active_symbols);
          commit
      end
  end.

Definition run_once (w : World) (symbol_lst : list string) : M unit :=
  _ ← modify (set_mode SLOW);
  _ ← check_trading_status w;
  keys ← get_keys symbol_lst;
  persisted_records ← load_from_keys w keys;
  s ← get;
  if persisted_records >? _n_active_symbols s
  then modify (set_mode FAST)
  else mret tt.

(** [range(a, b)]. *)
Definition range (a b : Z) : list Z :=
  (fun i => a + Z.of_nat i) <$> seq 0 (Z.to_nat (b - a)).

(** The sequences [secrets.choice] draws from in [run_as_service]. *)
Definition fast_choices : list Z := ([1; 5] ++ range 1 5)%list.

Definition slow_choices (interval : string) : result (list Z) :=
  secs ← interval_to_seconds interval;
  interval_sec ← int_of_float (float_div secs (float_of_int 4));
  Ok ([interval_sec; interval_sec + 10]
        ++ range interval_sec (interval_sec + 10))%list.

(** [secrets.choice(seq)]: [k] is what the generator draws, brought
    below [len(seq)]; an empty sequence is an [IndexError]. *)
Definition choice {A} (seq : list A) (k : nat) : result A :=
  match seq !! (k mod length seq)%nat with
  | Some a => Ok a
  | None => Raise IndexError
  end.

(** The wait chosen after a cycle; [k] is what [secrets.choice]
    draws. *)
Definition waiting_time (s : Loader) (k : nat) : result Z :=
  match mode s with
  | FAST => choice fast_choices k
  | SLOW => l ← slow_choices (_interval s); choice l k
  end.

(** One turn of the loop of [run_as_service]: [true] when the loop goes
    on. A wait of zero makes the method return; [time.sleep] raises
    [ValueError] on a negative wait, and that, as any exception of the
    turn, is caught and ends the loop. *)
Definition service_turn (w : World) (symbol_list : list string) (k : nat)
  : M bool :=
  fun s =>
    match run_once w symbol_list s with
    | (Ok _, s1) =>
        match waiting_time s1 k with
        | Ok t =>
            if t =? 0 then (Ok false, s1)
            else if t <? 0 then (Ok false, s1)
            else (Ok true, emit (EvSleep t) s1)
        | Raise _ => (Ok false, s1)
        end
    | (Raise _, s1) => (Ok false, s1)
    end.

End Loader.

(** ** What a trace shows *)

Module observe.
Import Py bar_record queries source Loader.

(** The rows handed to the bar upsert, over a trace. *)
Fixpoint persisted_rows (tr : list event) : Z :=
  match tr with
  | [] => 0
  | EvExecute (InsertSpotOnConflictUpdate _) n :: tr' =>
      Z.of_nat n + persisted_rows tr'
  | _ :: tr' => persisted_rows tr'
  end.

(** The bar requests made, over a trace. *)
Fixpoint requested (tr : list event) : list (string * Z) :=
  match tr with
  | [] => []
  | EvGetBars symbol start_time :: tr' => (symbol, start_time) :: requested tr'
  | _ :: tr' => requested tr'
  end.

(** The flushes of a trace: for each bar upsert, how many bar requests
    came before it, counting from [fetches], and how many rows it
    carried. *)
Fixpoint flushes (tr : list event) (fetches : nat) : list (nat * nat) :=
  match tr with
  | [] => []
  | EvGetBars _ _ :: tr' => flushes tr' (S fetches)
  | EvExecute (InsertSpotOnConflictUpdate _) n :: tr' =>
      (fetches, n) :: flushes tr' fetches
  | _ :: tr' => flushes tr' fetches
  end.

(** How many records the fetch of a key yields. *)
Definition fetched (w : World) (interval : string) (key : string * Z) : nat :=
  match get_bars w key.1 interval key.2 with
  | Ok (Some bars) => length bars
  | _ => 0
  end.

(** The flush rule in words: after each symbol, the pending records are
    flushed when there are some and the number of symbols processed is
    a multiple of the batch size or the cycle's active-symbol count.
    [counts] are the records each symbol adds; the result lists, for
    each flush, the number of symbols processed and the size of the
    batch. *)
Fixpoint flush_schedule (n_active : Z) (counts : list nat)
    (processed pending : nat) : list (nat * nat) :=
  match counts with
  | [] => []
  | c :: counts' =>
      let processed' := S processed in
      let pending' := (pending + c)%nat in
      if (0 <? Z.of_nat pending')
         && ((Z.of_nat processed' mod BATCH_SIZE =? 0)
             || (Z.of_nat processed' =? n_active))
      then (processed', pending')
             :: flush_schedule n_active counts' processed' 0
      else flush_schedule n_active counts' processed' pending'
  end.

(** What stays as it is while the loader runs. *)
Definition same_settings (s s' : Loader) : Prop :=
  _interval s' = _interval s /\ source_name s' = source_name s
  /\ schema s' = schema s.

Definition same_tables (s s' : Loader) : Prop :=
  target.session (_target s') = target.session (_target s)
  /\ target.durable (_target s') = target.durable (_target s).

(** The rows of a list of flushes. *)
Definition batch_total (fl : list (nat * nat)) : Z :=
  foldr (fun f acc => Z.of_nat f.2 + acc) 0 fl.

(** A flush falls on a symbol count that is a multiple of the batch
    size or the active-symbol count, and carries at least one row. *)
Definition flush_point (n_active : Z) (f : nat * nat) : Prop :=
  (0 < f.2)%nat
  /\ (Z.of_nat f.1 mod BATCH_SIZE = 0 \/ Z.of_nat f.1 = n_active).



(** No transaction is open: the session sees what is committed. *)
Definition synced (s : Loader) : Prop :=
  target.durable (_target s) = target.session (_target s).


(** The checkpoints waiting in the batch. *)
Definition pending_latest (l : Locals) : list latest.LatestTuple :=
  omap (fmap latest.as_tuple) (new_latest l).


Definition total (counts : list nat) : Z :=
  foldr (fun c acc => Z.of_nat c + acc) 0 counts.

End observe.

(** ** Credentials: [Source.__init__] and [BaseSource._parse_connection_string] *)

Module connection.
Import Py.

(** [s.split(sep)] for a separator of one character: every occurrence
    of [sep] ends a part, so there is always at least one part. *)
Fixpoint split (sep : ascii) (s : string) : list string :=
  match s with
  | EmptyString => [EmptyString]
  | String c r =>
      if Ascii.eqb c sep then EmptyString :: split sep r
      else match split sep r with
           | p :: ps => String c p :: ps
           | [] => [String c EmptyString]
           end
  end.

(** [dict(parts)] where every element of [parts] is a list of strings:
    an element that does not have two items is a [ValueError]; a key
    met again replaces the value it had. *)
Fixpoint dict_of (parts : list (list string)) (d : gmap string string)
  : result (gmap string string) :=
  match parts with
  | [] => Ok d
  | [k; v] :: parts' => dict_of parts' (<[k := v]> d)
  | _ :: _ => Raise ValueError
  end.

(** [d[k]]. *)
Definition getitem (d : gmap string string) (k : string) : result string :=
  match d !! k with
  | Some v => Ok v
  | None => Raise KeyError
  end.

Definition _parse_connection_string (connection_string : string)
  : result (gmap string string) :=
  dict_of (split "=" <$> split " " connection_string) ∅.

Record Credentials : Set := mkCredentials {
  _api_key : string;
  _secret_key : string
}.

(** The credentials part of [__init__]. *)
Definition init (connection_string : string) : result Credentials :=
  credentials ← _parse_connection_string connection_string;
  api_key ← getitem credentials "API_KEY";
  secret_key ← getitem credentials "SECRET_KEY";
  Ok (mkCredentials api_key secret_key).

(** How often a character occurs in a string. *)
Fixpoint occurrences (c : ascii) (s : string) : nat :=
  match s with
  | EmptyString => 0
  | String c' r => (if Ascii.eqb c' c then 1 else 0) + occurrences c r
  end.

End connection.

(** ** Repeated calls *)

Module repeated.
Import Py Loader.

(** [check_request_limit] called [m] times in a row. *)
Fixpoint check_request_limit_times (m : nat) (s : Loader) : Loader :=
  match m with
  | O => s
  | S m' => check_request_limit_times m' (check_request_limit s).2
  end.

(** The pauses of a trace. *)
Definition pauses (tr : list event) : list Z :=
  omap (fun e => match e with EvSleep t => Some t | _ => None end) tr.

(** A float that [int] accepts: a zero or a finite number. *)
Definition is_number (x : spec_float) : bool :=
  match x with
  | S754_zero _ | S754_finite _ _ _ => true
  | _ => false
  end.

(** What [load_from_keys] does between two statements. *)
Definition is_pause_or_request (e : event) : Prop :=
  e = EvSleep 60 \/ exists sym start_time, e = EvGetBars sym start_time.

End repeated.

(** ** Sample data *)

Module sample.
Import Py decimal bar_record latest target source Loader.

Definition b64 (m e : Z) : spec_float := binary_normalize prec emax m e false.

Definition hour : Z := 3600 * US_PER_SECOND.

(** 2023-11-14T22:00:00. *)
Definition t0 : Z := 1700000000 * US_PER_SECOND - 800 * US_PER_SECOND.

Definition record_at (id : Z) (t : Z) : BarRecord :=
  mkBarRecord id "XYZ" t (Finite false 5 (-1)) (Finite false 3 0)
    (Finite false 125 (-3)) (Finite false 2 0) (Finite false 7 0)
    (Finite false 14 0) (Finite false 2 0) 10.

Definition empty_target : Target := mkTarget (mkTables ∅ ∅) (mkTables ∅ ∅) 1.

Definition loader_1h : Loader := init empty_target "1h".

(** Seven shares at a volume-weighted average price of 0.1: the float
    nearest to one tenth is 7205759403792794 * 2^-56. *)
Definition bar_7_shares : Bar :=
  mkBar "XYZ" t0 (b64 1 (-3)) (b64 1 (-3)) (b64 1 (-3)) (b64 1 (-3))
    (b64 7 0) (Some (b64 3 0)) (Some (b64 7205759403792794 (-56))).

Definition bar_at (symbol : string) (t : Z) : Bar :=
  mkBar symbol t (b64 1 (-3)) (b64 1 (-3)) (b64 1 (-3)) (b64 1 (-3))
    (b64 7 0) (Some (b64 3 0)) (Some (b64 1 (-1))).

(** A provider that has a thousand hourly bars of [AAA], one bar of any
    other symbol, and no asset to report. *)
Definition thousand_bars_world : World :=
  mkWorld
    (fun _ symbol _ =>
       if String.eqb symbol "AAA"
       then Ok ((fun i => bar_at symbol (t0 + Z.of_nat i * hour)) <$> seq 0 1000)
       else Ok [bar_at symbol t0])
    (Ok []) (fun _ => t0 + 2000 * hour).

(** A provider whose first bar of [XYZ] opens at [t0]: asked from
    [start_time] on, it answers with three hourly bars from whichever of
    the two is later; it reports [XYZ] as tradable and holds nothing
    else. *)
Definition xyz_world : World :=
  mkWorld
    (fun _ symbol start_time =>
       if String.eqb symbol "XYZ"
       then let first := Z.max start_time t0 in
            Ok [bar_at symbol first; bar_at symbol (first + hour);
                bar_at symbol (first + 2 * hour)]
       else Raise KeyError)
    (Ok [("XYZ", true)]) (fun _ => t0 + 2000 * hour).

(** A loader whose store holds one checkpoint, [XYZ] at [t0], marked
    inactive. *)
Definition inactive_tables : Tables :=
  mkTables ∅ {[ "XYZ" := (1, t0, false, "ALPACA") ]}.

Definition loader_xyz_inactive : Loader :=
  init (mkTarget inactive_tables inactive_tables 2) "1h".


(** A loader whose store holds one checkpoint, [XYZ] at [t0], active. *)
Definition active_tables : Tables :=
  mkTables ∅ {[ "XYZ" := (1, t0, true, "ALPACA") ]}.

Definition loader_xyz_active : Loader :=
  init (mkTarget active_tables active_tables 2) "1h".

(** A provider that knows no symbol. *)
Definition silent_world : World :=
  mkWorld (fun _ _ _ => Raise KeyError) (Ok []) (fun _ => t0).

(** A provider whose bars of [AAA] are complete and whose bars of any
    other symbol come without a [vwap]. *)
Definition no_vwap_world : World :=
  mkWorld
    (fun _ symbol _ =>
       if String.eqb symbol "AAA"
       then Ok [bar_at symbol t0; bar_at symbol (t0 + hour)]
       else Ok [mkBar symbol t0 (b64 1 (-3)) (b64 1 (-3)) (b64 1 (-3))
                  (b64 1 (-3)) (b64 7 0) (Some (b64 3 0)) None])
    (Ok []) (fun _ => t0 + 2000 * hour).

End sample.

Import Py date_helpers decimal bar_record latest queries target source Loader.
Import observe repeated.

(** * Properties *)

Local Open Scope list_scope.

(** ** Tail classification *)

Lemma index_second_to_last {A} (pre : list A) (r last : A) :
  index (pre ++ [r; last]) (-2) = Ok r.
Proof.
  unfold index.
  rewrite length_app; cbn [length].
  replace (-2 <? 0) with true by reflexivity.
  set (n := Z.of_nat (length pre + 2)).
  assert (Hn : n = Z.of_nat (length pre) + 2) by (unfold n; lia).
  replace ((0 <=? -2 + n) && (-2 + n <? n)) with true
    by (symmetry; apply andb_true_intro; split; lia).
  rewrite (list_lookup_middle pre [last] r) by lia.
  reflexivity.
Qed.

Lemma two_or_more_split {A} (l : list A) :
  (2 <= length l)%nat -> exists pre r last, l = pre ++ [r; last].
Proof.
  intros Hlen.
  destruct (rev l) as [|last [|r tl]] eqn:Hrev.
  - apply (f_equal length) in Hrev. rewrite length_rev in Hrev. cbn in Hrev. lia.
  - apply (f_equal length) in Hrev. rewrite length_rev in Hrev. cbn in Hrev. lia.
  - exists (rev tl), r, last.
    rewrite <- (rev_involutive l), Hrev. cbn.
    by rewrite <- !app_assoc.
Qed.

(** C1, as the code has it: on two or more records [latest_closed]
    returns a checkpoint that carries the id and the open timestamp of
    the second-to-last record, with the [active] flag [True]. *)
Theorem latest_closed_two_or_more (now : Z) (s : Loader) (symbol : string)
    (record_objs : list BarRecord) :
  (2 <= length record_objs)%nat ->
  exists pre r last,
    record_objs = pre ++ [r; last] /\
    latest_closed now s symbol record_objs
    = Ok (Some (mkLatest symbol (bar_record.id r) (open_time r) true
                  (source_name s))).
Proof.
  intros Hlen.
  destruct (two_or_more_split record_objs Hlen) as (pre & r & last & ->).
  exists pre, r, last; split; [reflexivity|].
  unfold latest_closed.
  replace (1 <? Z.of_nat (length (pre ++ [r; last]))) with true
    by (symmetry; apply Z.ltb_lt; lia).
  by rewrite index_second_to_last.
Qed.

Lemma latest_closed_two_or_more_witness :
  exists pre r last,
    [sample.record_at 1 sample.t0; sample.record_at 2 (sample.t0 + sample.hour)]
    = pre ++ [r; last] /\
    latest_closed (sample.t0 + 2 * sample.hour) sample.loader_1h "XYZ"
      [sample.record_at 1 sample.t0; sample.record_at 2 (sample.t0 + sample.hour)]
    = Ok (Some (mkLatest "XYZ" (bar_record.id r) (open_time r) true "ALPACA")).
Proof.
  apply (latest_closed_two_or_more (sample.t0 + 2 * sample.hour)
           sample.loader_1h "XYZ"
           [sample.record_at 1 sample.t0;
            sample.record_at 2 (sample.t0 + sample.hour)]).
  cbn. lia.
Defined.

(** C1, as stated, fails: with two records the checkpoint's [active]
    flag is [True]. *)
Lemma latest_closed_two_records_active :
  latest_closed (sample.t0 + 2 * sample.hour) sample.loader_1h "XYZ"
    [sample.record_at 1 sample.t0; sample.record_at 2 (sample.t0 + sample.hour)]
  <> Ok (Some (mkLatest "XYZ" 1 sample.t0 false "ALPACA")).
Proof. vm_compute. discriminate. Qed.

(** C7: on exactly one record [latest_closed] follows [check_active] on
    that record's open timestamp: a checkpoint with the [active] flag
    [False] when the bar is no longer open, no checkpoint when it is
    still open; so a checkpoint with [active] [False] comes back if and
    only if [check_active] is [False]. *)
Theorem latest_closed_single (now : Z) (s : Loader) (symbol : string)
    (r : BarRecord) (still_open : bool) :
  check_active now (_interval s) (open_time r) = Ok still_open ->
  latest_closed now s symbol [r]
  = Ok (if still_open then None
        else Some (mkLatest symbol (bar_record.id r) (open_time r) false
                     (source_name s)))
  /\ ((exists c, latest_closed now s symbol [r] = Ok (Some c)
                 /\ latest.active c = false)
      <-> still_open = false).
Proof.
  intros Hactive.
  assert (Hres : latest_closed now s symbol [r]
                 = Ok (if still_open then None
                       else Some (mkLatest symbol (bar_record.id r)
                                    (open_time r) false (source_name s)))).
  { unfold latest_closed.
    change (1 <? Z.of_nat (length [r])) with false.
    change (index [r] 0) with (Ok r).
    cbn [mbind result_bind bind]. rewrite Hactive.
    by destruct still_open. }
  split; [exact Hres|].
  rewrite Hres. split.
  - intros (c & Hc & _). destruct still_open; [discriminate|reflexivity].
  - intros ->. eexists; split; reflexivity.
Qed.

Lemma latest_closed_single_witness :
  latest_closed (sample.t0 + 2 * sample.hour) sample.loader_1h "XYZ"
    [sample.record_at 1 sample.t0]
  = Ok (Some (mkLatest "XYZ" 1 sample.t0 false "ALPACA")).
Proof.
  apply (latest_closed_single (sample.t0 + 2 * sample.hour) sample.loader_1h
           "XYZ" (sample.record_at 1 sample.t0) false).
  vm_compute. reflexivity.
Defined.


Ltac run_monad :=
  unfold mbind, mret, loader_bind, loader_ret, bindM, ret, lift, modify, get
    in *; cbn beta iota in *.




(** ** Interval arithmetic *)

Lemma digit_char (d : N) :
  (d < 10)%N ->
  let c := ascii_of_N (48 + d) in
  digit_value c = Some d /\ is_space c = false
  /\ Ascii.eqb c "-" = false /\ Ascii.eqb c "+" = false
  /\ Ascii.eqb c "_" = false.
Proof.
  intros Hd.
  assert (Hcases : (d = 0 \/ d = 1 \/ d = 2 \/ d = 3 \/ d = 4 \/ d = 5
                    \/ d = 6 \/ d = 7 \/ d = 8 \/ d = 9)%N) by lia.
  repeat (destruct Hcases as [-> | Hcases]); try subst d; vm_compute; done.
Qed.

Lemma digits_fuel_S (fuel : nat) (n : N) (acc : list ascii) :
  digits_fuel (S fuel) n acc
  = if (n / 10 =? 0)%N then ascii_of_N (48 + n mod 10) :: acc
    else digits_fuel fuel (n / 10)%N (ascii_of_N (48 + n mod 10) :: acc).
Proof. reflexivity. Qed.

Lemma digits_fuel_spec (fuel : nat) :
  forall (n : N) (acc : list ascii),
    (n < 2 ^ N.of_nat (S fuel))%N ->
    exists ds,
      digits_fuel (S fuel) n acc = ds ++ acc
      /\ ds <> [] /\ Forall plain ds
      /\ forall prev a tl,
          scan_digits (ds ++ tl) prev a
          = scan_digits tl false (a * 10 ^ N.of_nat (length ds) + n)%N.
Proof.
  induction fuel as [|fuel IH]; intros n acc Hn.
  - assert (Hn2 : (n < 2)%N) by exact Hn.
    assert (Hq : (n / 10 = 0)%N) by (apply N.div_small; lia).
    assert (Hm : (n mod 10 = n)%N) by (apply N.mod_small; lia).
    destruct (digit_char n) as (Hd & Hs & Hm1 & Hp & Hu);
      [lia|].
    exists [ascii_of_N (48 + n)]. rewrite digits_fuel_S.
    rewrite Hq, Hm. cbn [N.eqb]. split; [reflexivity|]. split; [done|].
    split.
    + constructor; [|constructor]. split; [unfold is_digit; rewrite Hd; eauto|done].
    + intros prev a tl. cbn [app scan_digits length]. rewrite Hd.
      f_equal; cbn; lia.
  - rewrite digits_fuel_S.
    destruct (digit_char (n mod 10)) as (Hd & Hs & Hm1 & Hp & Hu);
      [apply N.mod_lt; lia|].
    destruct (N.eqb_spec (n / 10) 0) as [Hq|Hq].
    + exists [ascii_of_N (48 + n mod 10)]. split; [reflexivity|].
      split; [done|]. split.
      * constructor; [|constructor]. split; [unfold is_digit; rewrite Hd; eauto|done].
      * intros prev a tl. cbn [app scan_digits length]. rewrite Hd.
        f_equal.
        assert ((n = n mod 10)%N)
          by (pose proof (N.div_mod n 10); lia).
        cbn. lia.
    + destruct (IH (n / 10)%N (ascii_of_N (48 + n mod 10) :: acc))
        as (ds & Heq & Hne & Hall & Hscan).
      { assert ((n / 10 <= n / 2)%N).
        { apply N.div_le_compat_l. lia. }
        assert ((n / 2 < 2 ^ N.of_nat (S fuel))%N).
        { apply N.Div0.div_lt_upper_bound.
          replace (N.of_nat (S (S fuel))) with (N.succ (N.of_nat (S fuel)))
            in Hn by lia.
          rewrite N.pow_succ_r' in Hn. lia. }
        lia. }
      exists (ds ++ [ascii_of_N (48 + n mod 10)]).
      split; [rewrite Heq; by rewrite <- app_assoc|].
      split; [by destruct ds|].
      split.
      * apply Forall_app; split; [done|].
        constructor; [|constructor]. split; [unfold is_digit; rewrite Hd; eauto|done].
      * intros prev a tl. rewrite <- app_assoc. rewrite Hscan.
        cbn [app scan_digits]. rewrite Hd. f_equal.
        rewrite length_app. cbn [length].
        replace (N.of_nat (length ds + 1)) with (N.succ (N.of_nat (length ds)))
          by lia.
        rewrite N.pow_succ_r'.
        pose proof (N.div_mod n 10). lia.
Qed.

Lemma digits_spec (n : N) :
  exists ds,
    digits n = ds /\ ds <> [] /\ Forall plain ds
    /\ scan_digits ds false 0%N = Some n.
Proof.
  destruct (digits_fuel_spec (N.to_nat (N.log2 n)) n [])
    as (ds & Heq & Hne & Hall & Hscan).
  { destruct (N.eq_dec n 0%N) as [->|Hn0]; [done|].
    replace (N.of_nat (S (N.to_nat (N.log2 n)))) with (N.succ (N.log2 n))
      by lia.
    apply N.log2_spec. lia. }
  exists ds. unfold digits. rewrite Heq, app_nil_r. repeat split; try done.
  specialize (Hscan false 0%N []). rewrite app_nil_r in Hscan.
  rewrite Hscan. cbn [scan_digits]. f_equal; cbn; lia.
Qed.

Lemma lstrip_head (c : ascii) (cs : list ascii) :
  is_space c = false -> lstrip (c :: cs) = c :: cs.
Proof. intros H. cbn. by rewrite H. Qed.

Lemma strip_no_space (cs : list ascii) :
  Forall (fun c => is_space c = false) cs -> strip cs = cs.
Proof.
  intros Hall. unfold strip.
  assert (Hl : forall l, Forall (fun c => is_space c = false) l -> lstrip l = l).
  { intros [|c l] Hl; [done|]. inversion Hl; subst. by apply lstrip_head. }
  rewrite (Hl cs Hall). rewrite Hl; [by rewrite rev_involutive|].
  by apply Forall_rev.
Qed.

(** [int(str(n))] is [n]. *)
Lemma int_of_str_of_int (n : Z) : int_of_str (str_of_int n) = Ok n.
Proof.
  unfold int_of_str, str_of_int.
  rewrite list_ascii_of_string_of_list_ascii.
  destruct n as [|p|p].
  - vm_compute. reflexivity.
  - destruct (digits_spec (Z.to_N (Z.pos p))) as (ds & -> & Hne & Hall & Hscan).
    rewrite strip_no_space.
    2:{ eapply Forall_impl; [exact Hall|]. by intros c (_ & H & _). }
    destruct ds as [|c ds]; [done|].
    inversion Hall as [|? ? (Hdig & Hsp & Hm & Hp & Hu) Hrest]; subst.
    rewrite Hm, Hp. unfold scan_number. rewrite Hu, Hscan.
    reflexivity.
  - destruct (digits_spec (N.pos p)) as (ds & -> & Hne & Hall & Hscan).
    rewrite strip_no_space.
    2:{ constructor; [done|].
        eapply Forall_impl; [exact Hall|]. by intros c (_ & H & _). }
    change (Ascii.eqb "-" "-") with true. cbn iota.
    destruct ds as [|c ds]; [done|].
    inversion Hall as [|? ? (Hdig & Hsp & Hm & Hp & Hu) Hrest]; subst.
    unfold scan_number. rewrite Hu, Hscan. reflexivity.
Qed.


Lemma list_ascii_of_string_app (s1 s2 : string) :
  list_ascii_of_string (s1 ++ s2)%string
  = list_ascii_of_string s1 ++ list_ascii_of_string s2.
Proof.
  induction s1 as [|c s1 IH]; [done|].
  change (list_ascii_of_string (String c s1 ++ s2)%string)
    with (c :: list_ascii_of_string (s1 ++ s2)%string).
  by rewrite IH.
Qed.

Lemma all_but_last_specifier (n : Z) (unit : ascii) :
  all_but_last (specifier n unit) = str_of_int n.
Proof.
  unfold all_but_last, specifier. rewrite list_ascii_of_string_app.
  cbn [list_ascii_of_string]. rewrite removelast_last.
  apply string_of_list_ascii_of_string.
Qed.

Lemma last_char_specifier (n : Z) (unit : ascii) :
  last_char (specifier n unit) = Ok unit.
Proof.
  unfold last_char, specifier. rewrite list_ascii_of_string_app.
  cbn [list_ascii_of_string]. by rewrite rev_app_distr.
Qed.

Lemma SECONDS_PER_UNIT_units (unit : ascii) :
  (unit ∈ units -> exists k, SECONDS_PER_UNIT unit = Ok k /\ 0 < k)
  /\ (unit ∉ units -> SECONDS_PER_UNIT unit = Raise KeyError).
Proof.
  unfold SECONDS_PER_UNIT, units. split.
  - intros Hin. repeat (apply elem_of_cons in Hin as [->|Hin]);
      [| | | |by apply elem_of_nil in Hin]; eexists; split; try reflexivity; lia.
  - intros Hnot.
    destruct (Ascii.eqb_spec unit "m"); [subst; exfalso; apply Hnot; set_solver|].
    destruct (Ascii.eqb_spec unit "h"); [subst; exfalso; apply Hnot; set_solver|].
    destruct (Ascii.eqb_spec unit "d"); [subst; exfalso; apply Hnot; set_solver|].
    destruct (Ascii.eqb_spec unit "w"); [subst; exfalso; apply Hnot; set_solver|].
    reflexivity.
Qed.

(** C9, as stated, fails: a prefix that is an integer but not a positive
    one is accepted; [0h] is the empty duration and [-3d] a negative
    one. *)
Lemma parse_interval_zero_and_negative :
  parse_interval_to_timedelta "0h" = Ok 0
  /\ parse_interval_to_timedelta "-3d" = Ok (-3 * 86400 * US_PER_SECOND).
Proof. split; vm_compute; reflexivity. Qed.

(** C9, as the code has it: [parse_interval_to_timedelta] returns only
    when the prefix reads as an integer, of either sign or zero, the
    suffix is one of [m], [h], [d], [w] and the duration fits a
    [timedelta], and it does return then; it raises when the prefix is
    no integer or the suffix is no unit. For every integer [n] and
    unit, [<n><unit>] gives [n] times the seconds of the unit, or an
    [OverflowError] beyond the range of [timedelta]. *)
Theorem parse_interval_to_timedelta_spec :
  (forall (n : Z) (unit : ascii) (k : Z),
      SECONDS_PER_UNIT unit = Ok k ->
      parse_interval_to_timedelta (specifier n unit)
      = if timedelta_in_range (n * k * US_PER_SECOND)
        then Ok (n * k * US_PER_SECOND) else Raise OverflowError)
  /\ (forall (s : string) (d : Z),
         parse_interval_to_timedelta s = Ok d ->
         exists v unit k,
           int_of_str (all_but_last s) = Ok v /\ last_char s = Ok unit
           /\ unit ∈ units /\ SECONDS_PER_UNIT unit = Ok k
           /\ d = v * k * US_PER_SECOND /\ timedelta_in_range d = true)
  /\ (forall (s : string) (e : exn),
         int_of_str (all_but_last s) = Raise e ->
         parse_interval_to_timedelta s = Raise ValueError)
  /\ (forall (s : string) (unit : ascii),
         last_char s = Ok unit -> unit ∉ units ->
         exists e, parse_interval_to_timedelta s = Raise e)
  /\ (forall (s : string) (v : Z) (unit : ascii) (k : Z),
         int_of_str (all_but_last s) = Ok v -> last_char s = Ok unit ->
         SECONDS_PER_UNIT unit = Ok k ->
         parse_interval_to_timedelta s
         = if timedelta_in_range (v * k * US_PER_SECOND)
           then Ok (v * k * US_PER_SECOND) else Raise OverflowError).
Proof.
  repeat split.
  - intros n unit k Hk. unfold parse_interval_to_timedelta.
    rewrite all_but_last_specifier, int_of_str_of_int, last_char_specifier.
    cbn [mbind result_bind bind]. rewrite Hk.
    reflexivity.
  - intros s d. unfold parse_interval_to_timedelta.
    destruct (int_of_str (all_but_last s)) as [v|e] eqn:Hv; [|discriminate].
    destruct (last_char s) as [unit|e] eqn:Hc; [|discriminate].
    cbn [mbind result_bind bind].
    destruct (SECONDS_PER_UNIT unit) as [k|e] eqn:Hk; [|discriminate].
    cbn [mbind result_bind bind]. unfold timedelta_seconds, timedelta_of.
    destruct (timedelta_in_range (v * k * US_PER_SECOND)) eqn:Hr; [|discriminate].
    intros [= <-]. exists v, unit, k. repeat split; try done.
    destruct (decide (unit ∈ units)) as [|Hnot]; [done|].
    apply SECONDS_PER_UNIT_units in Hnot. congruence.
  - intros s e He. unfold parse_interval_to_timedelta. rewrite He.
    unfold int_of_str in He.
    destruct (strip (list_ascii_of_string (all_but_last s))) as [|c r];
      cbn in He.
    + injection He as <-. reflexivity.
    + destruct (Ascii.eqb c "-"), (Ascii.eqb c "+");
        match type of He with
        | context [scan_number ?x] => destruct (scan_number x)
        end; try discriminate; injection He as <-; reflexivity.
  - intros s unit Hc Hnot. unfold parse_interval_to_timedelta.
    apply SECONDS_PER_UNIT_units in Hnot.
    destruct (int_of_str (all_but_last s)) as [v|e]; [|by eexists].
    rewrite Hc. cbn [mbind result_bind bind]. rewrite Hnot. by eexists.
  - intros s v unit k Hv Hc Hk. unfold parse_interval_to_timedelta.
    rewrite Hv, Hc. cbn [mbind result_bind bind]. rewrite Hk. reflexivity.
Qed.

Lemma parse_interval_to_timedelta_spec_witness :
  parse_interval_to_timedelta (specifier 15 "m")
  = Ok (15 * 60 * US_PER_SECOND).
Proof.
  apply (proj1 parse_interval_to_timedelta_spec 15 "m"%char 60).
  reflexivity.
Defined.

(** ** Record model *)

Lemma lowest_terms_spec (K : nat) :
  forall (m n : positive) (k : nat),
    lowest_terms m K = (n, k) ->
    (k <= K)%nat /\ Z.pos m = Z.pos n * 2 ^ Z.of_nat (K - k).
Proof.
  induction K as [|K IH]; intros m n k H.
  - destruct m; cbn in H; injection H as <- <-; (split; [lia|]); cbn; lia.
  - destruct m as [m|m|]; cbn in H.
    + injection H as <- <-. split; [lia|].
      replace (S K - S K)%nat with 0%nat by lia. cbn. lia.
    + destruct (IH m n k H) as [Hle Hm]. split; [lia|].
      replace (Z.of_nat (S K - k)) with (Z.succ (Z.of_nat (K - k))) by lia.
      rewrite Z.pow_succ_r by lia. lia.
    + injection H as <- <-. split; [lia|].
      replace (S K - S K)%nat with 0%nat by lia. cbn. lia.
Qed.

Lemma cond_Zopp_mul (s : bool) (a b : Z) :
  cond_Zopp s a * b = cond_Zopp s (a * b).
Proof. destruct s; cbn; lia. Qed.

(** [Decimal(f)] denotes exactly the number the float [f] denotes. *)
Lemma from_float_exact (f : spec_float) :
  same_number (value (from_float f)) (float_value f).
Proof.
  destruct f as [s|s| |s m e]; cbn [from_float value float_value same_number];
    try done.
  - destruct s; reflexivity.
  - destruct e as [|p|p].
    + cbn [as_integer_ratio]. change (- Z.of_nat 0) with 0.
      cbn [value float_value same_number].
      unfold Qeq. cbn [Qnum Qden inject_Z].
      rewrite !cond_Zopp_mul. f_equal. f_equal.
      change (N.of_nat 0) with 0%N. rewrite N.pow_0_r, N2Z.inj_mul.
      cbn [Z.of_N]. rewrite Z2Pos.id by lia. lia.
    + cbn [as_integer_ratio]. change (- Z.of_nat 0) with 0.
      cbn [value float_value same_number].
      unfold Qeq. cbn [Qnum Qden inject_Z].
      rewrite !cond_Zopp_mul. f_equal. f_equal.
      assert (0 < 2 ^ Z.pos p) by (apply Z.pow_pos_nonneg; lia).
      change (N.of_nat 0) with 0%N. rewrite N.pow_0_r, N2Z.inj_mul.
      cbn [Z.of_N]. rewrite Z2Pos.id by lia. lia.
    + unfold as_integer_ratio.
      destruct (lowest_terms m (Pos.to_nat p)) as [n k] eqn:Hlt.
      apply lowest_terms_spec in Hlt as [Hle Hm].
      assert (Hc : Z.of_N (N.pos n * 5 ^ N.of_nat k)
                   = Z.pos n * 5 ^ Z.of_nat k).
      { rewrite N2Z.inj_mul, N2Z.inj_pow, nat_N_Z. reflexivity. }
      assert (H2p : Z.pos (2 ^ p) = 2 ^ Z.of_nat (Pos.to_nat p)).
      { rewrite Pos2Z.inj_pow, positive_nat_Z. reflexivity. }
      assert (H2 : 2 ^ Z.of_nat (Pos.to_nat p)
                   = 2 ^ Z.of_nat (Pos.to_nat p - k) * 2 ^ Z.of_nat k).
      { rewrite <- Z.pow_add_r by lia. f_equal. lia. }
      destruct k as [|k].
      * change (- Z.of_nat 0) with 0. cbn [value same_number]. unfold Qeq.
        cbn [Qnum Qden inject_Z]. rewrite !cond_Zopp_mul. f_equal.
        rewrite Hc, H2p, Hm.
        replace (Pos.to_nat p - 0)%nat with (Pos.to_nat p) by lia.
        cbn [Z.of_nat]. rewrite !Z.pow_0_r. lia.
      * replace (- Z.of_nat (S k)) with (Z.neg (Pos.of_succ_nat k)) by lia.
        cbn [value same_number]. unfold Qeq. cbn [Qnum Qden].
        rewrite !cond_Zopp_mul. f_equal.
        rewrite Hc, H2p, Hm, H2.
        rewrite Pos2Z.inj_pow.
        replace (Z.pos (Pos.of_succ_nat k)) with (Z.of_nat (S k)) by lia.
        replace (Z.pos 10) with (2 * 5) by lia.
        rewrite Z.pow_mul_l. lia.
Qed.

(** C6, as stated, fails: for seven shares at a volume-weighted average
    price of one tenth, [volume_dollar] is not the product of
    [volume_stock] and [vwap]; the product was taken on floats and
    rounded before it became a [Decimal]. *)
Lemma volume_dollar_not_exact_product :
  exists r vd vs vw,
    bar_record.build_record 1 sample.bar_7_shares = Ok r
    /\ value (volume_dollar r) = Some vd
    /\ value (volume_stock r) = Some vs
    /\ value (vwap r) = Some vw
    /\ ~ (vd == vs * vw)%Q.
Proof.
  do 4 eexists. repeat split; try (vm_compute; reflexivity).
  intros H. apply Qeq_bool_iff in H. vm_compute in H. discriminate.
Qed.

(** C6, as the code has it: every price and volume of the record is the
    [Decimal] that denotes exactly the float the provider's bar holds,
    and [volume_dollar] denotes exactly the float product
    [bar.volume * bar.vwap], that is, the product rounded to binary64. *)
Theorem build_record_exact (id : Z) (bar : Bar) (r : BarRecord) :
  bar_record.build_record id bar = Ok r ->
  same_number (value (open_price r)) (float_value (bar_open bar))
  /\ same_number (value (high_price r)) (float_value (bar_high bar))
  /\ same_number (value (low_price r)) (float_value (bar_low bar))
  /\ same_number (value (close_price r)) (float_value (bar_close bar))
  /\ same_number (value (volume_stock r)) (float_value (bar_volume bar))
  /\ exists w,
      bar_vwap bar = Some w
      /\ same_number (value (vwap r)) (float_value w)
      /\ same_number (value (volume_dollar r))
           (float_value (float_mul (bar_volume bar) w)).
Proof.
  unfold bar_record.build_record, volume_times_vwap, of_optional.
  destruct (bar_vwap bar) as [w|]; [|discriminate].
  cbn [mbind result_bind bind].
  destruct (int_of_optional (bar_trade_count bar)) as [t|]; [|discriminate].
  cbn [mbind result_bind bind]. intros [= <-].
  cbn [open_price high_price low_price close_price volume_stock
         volume_dollar vwap].
  repeat split; try apply from_float_exact.
  exists w. repeat split; apply from_float_exact.
Qed.

Lemma build_record_exact_witness :
  exists r,
    bar_record.build_record 1 sample.bar_7_shares = Ok r
    /\ same_number (value (volume_stock r))
         (float_value (bar_volume sample.bar_7_shares)).
Proof.
  eexists. split; [vm_compute; reflexivity|].
  eapply (build_record_exact 1 sample.bar_7_shares).
  vm_compute. reflexivity.
Defined.

(** ** Upserts *)

Section Upsert.
Context {K : Type} `{Countable K} {V R : Type}.
Variable key : R -> K.
Variable merge : option V -> R -> V.

Local Abbreviation upsert := (upsert_by key merge).
Local Abbreviation at_key := (at_key_by key merge).

Lemma lookup_foldl_upsert (rows : list R) (t : gmap K V) (k : K) :
  foldl upsert t rows !! k = foldl (at_key k) (t !! k) rows.
Proof.
  revert t. induction rows as [|r rows IH]; intros t; [done|].
  cbn [foldl]. rewrite IH. f_equal.
  unfold upsert, at_key. destruct (decide (key r = k)) as [<-|Hne].
  - by rewrite lookup_insert_eq.
  - by rewrite lookup_insert_ne.
Qed.

Lemma at_key_eq (k : K) (o : option V) (r : R) :
  key r = k -> at_key k o r = Some (merge o r).
Proof. intros Hk. unfold at_key. by rewrite decide_True. Qed.

Lemma at_key_ne (k : K) (o : option V) (r : R) :
  key r <> k -> at_key k o r = o.
Proof. intros Hk. unfold at_key. by rewrite decide_False. Qed.

(** What of the stored row the merge looks at. *)
Variable kept : V -> Z.
Hypothesis merge_kept :
  forall old r, kept (merge (Some old) r) = kept old.
Hypothesis merge_same :
  forall old old' r, kept old = kept old' ->
                     merge (Some old) r = merge (Some old') r.
Hypothesis merge_fresh : forall r, merge (Some (merge None r)) r = merge None r.

Lemma at_key_kept (k : K) (rows : list R) (a : V) :
  exists b, foldl (at_key k) (Some a) rows = Some b /\ kept b = kept a.
Proof.
  revert a. induction rows as [|r rows IH]; intros a; [by exists a|].
  cbn [foldl]. destruct (decide (key r = k)) as [Hr|Hr].
  - rewrite (at_key_eq k _ r Hr).
    destruct (IH (merge (Some a) r)) as (b & Hb & Hk).
    exists b. split; [done|]. by rewrite Hk, merge_kept.
  - rewrite (at_key_ne k _ r Hr). apply IH.
Qed.

Lemma at_key_none (k : K) (rows : list R) (o : option V) :
  foldl (at_key k) o rows = None ->
  forall o', foldl (at_key k) o' rows = o'.
Proof.
  revert o. induction rows as [|r rows IH]; intros o Hnone o'; [done|].
  cbn [foldl] in *. destruct (decide (key r = k)) as [Hr|Hr].
  - rewrite (at_key_eq k _ r Hr) in Hnone.
    destruct (at_key_kept k rows (merge o r)) as (b & Hb & _). congruence.
  - rewrite (at_key_ne k _ r Hr) in *. eauto.
Qed.

Lemma at_key_idempotent (k : K) (rows : list R) (o : option V) :
  foldl (at_key k) (foldl (at_key k) o rows) rows = foldl (at_key k) o rows.
Proof.
  induction rows as [|r rows IH] using rev_ind; [done|].
  rewrite !foldl_app. cbn [foldl].
  set (o1 := foldl (at_key k) o rows) in *.
  destruct (decide (key r = k)) as [Hk|Hk].
  2:{ rewrite !(at_key_ne k _ r Hk). exact IH. }
  rewrite !(at_key_eq k _ r Hk).
  f_equal. destruct o1 as [x|] eqn:Ho1.
  - destruct (at_key_kept k rows (merge (Some x) r)) as (y & -> & Hy).
    apply merge_same. by rewrite Hy, merge_kept.
  - rewrite (at_key_none k rows o Ho1). apply merge_fresh.
Qed.

Lemma foldl_upsert_idempotent (rows : list R) (t : gmap K V) :
  foldl upsert (foldl upsert t rows) rows = foldl upsert t rows.
Proof.
  apply map_eq. intros k.
  rewrite lookup_foldl_upsert. rewrite (lookup_foldl_upsert rows t).
  apply at_key_idempotent.
Qed.

End Upsert.

Lemma upsert_spot_idempotent (rows : list BarTuple)
    (t : gmap (string * Z) BarTuple) :
  foldl upsert_spot_row (foldl upsert_spot_row t rows) rows
  = foldl upsert_spot_row t rows.
Proof.
  apply (foldl_upsert_idempotent spot_key on_conflict_spot spot_id).
  - by intros [[[[[[[[[[]]]]]]]]]] [[[[[[[[[[]]]]]]]]]].
  - intros [[[[[[[[[[]]]]]]]]]] [[[[[[[[[[]]]]]]]]]] r Hid. cbn in *.
    by rewrite Hid.
  - by intros [[[[[[[[[[]]]]]]]]]].
Qed.

Lemma upsert_latest_idempotent (rows : list LatestTuple)
    (t : gmap string LatestRow) :
  foldl upsert_latest_row (foldl upsert_latest_row t rows) rows
  = foldl upsert_latest_row t rows.
Proof.
  apply (foldl_upsert_idempotent latest_key (fun _ r => latest_row r)
           (fun _ => 0)); done.
Qed.

Lemma persist_records_target (records : list BarTuple)
    (latest_records : list LatestTuple) (s : Loader) :
  exists s',
    persist_records records latest_records s = (Ok tt, s')
    /\ session (_target s')
       = mkTables (foldl upsert_spot_row (spot (session (_target s))) records)
           (foldl upsert_latest_row (spot_latest (session (_target s)))
              latest_records)
    /\ durable (_target s') = session (_target s')
    /\ sequence (_target s') = sequence (_target s)
    /\ trace s'
       = trace s
         ++ [EvExecute (SpotQueries.UPSERT (_interval s)) (length records);
             EvExecute (SpotLatestQueries.UPSERT (_interval s))
               (length latest_records);
             EvCommit]
    /\ _interval s' = _interval s /\ source_name s' = source_name s
    /\ _n_active_symbols s' = _n_active_symbols s /\ mode s' = mode s
    /\ n_requests s' = n_requests s.
Proof.
  exists (persist_records records latest_records s).2.
  split; [reflexivity|].
  unfold persist_records, execute, commit. run_monad. cbn.
  rewrite <- !app_assoc. done.
Qed.

(** C4: persisting the same batch of bars and checkpoints a second time
    leaves the store, both what the session sees and what is committed,
    as the first time left it; both calls return. *)
Theorem persist_records_idempotent (records : list BarTuple)
    (latest_records : list LatestTuple) (s : Loader) :
  exists s1 s2,
    persist_records records latest_records s = (Ok tt, s1)
    /\ persist_records records latest_records s1 = (Ok tt, s2)
    /\ session (_target s2) = session (_target s1)
    /\ durable (_target s2) = durable (_target s1).
Proof.
  destruct (persist_records_target records latest_records s)
    as (s1 & H1 & Hs1 & Hd1 & _).
  destruct (persist_records_target records latest_records s1)
    as (s2 & H2 & Hs2 & Hd2 & _).
  exists s1, s2. split; [done|]. split; [done|].
  assert (Heq : session (_target s2) = session (_target s1)).
  { rewrite Hs2, Hs1. cbn [spot spot_latest].
    by rewrite upsert_spot_idempotent, upsert_latest_idempotent. }
  split; [done|]. by rewrite Hd2, Hd1, Heq.
Qed.

(** ** The loop of [load_from_keys] *)

Lemma mapM_result_length {A B} (f : A -> result B) (l : list A) (l' : list B) :
  mapM f l = Ok l' -> length l' = length l.
Proof.
  revert l'. induction l as [|a l IH]; intros l'; cbn.
  - by intros [= <-].
  - unfold mbind, result_bind, bind, mret, result_ret.
    destruct (f a) as [b|]; [|discriminate].
    destruct (mapM f l) as [k|]; [|discriminate].
    intros [= <-]. cbn. f_equal. by apply IH.
Qed.

Lemma mapM_result_Forall2 {A B} (f : A -> result B) (l : list A) (l' : list B) :
  mapM f l = Ok l' -> Forall2 (fun a b => f a = Ok b) l l'.
Proof.
  revert l'. induction l as [|a l IH]; intros l'; cbn.
  - intros [= <-]. constructor.
  - unfold mbind, result_bind, bind, mret, result_ret.
    destruct (f a) as [b|] eqn:Hfa; [|discriminate].
    destruct (mapM f l) as [k|]; [|discriminate].
    intros [= <-]. constructor; [done|]. by apply IH.
Qed.

Lemma check_request_limit_spec (s : Loader) :
  exists s' pre,
    check_request_limit s = (Ok tt, s')
    /\ same_settings s s' /\ same_tables s s'
    /\ sequence (_target s') = sequence (_target s)
    /\ _n_active_symbols s' = _n_active_symbols s /\ mode s' = mode s
    /\ trace s' = trace s ++ pre
    /\ (pre = [] \/ pre = [EvSleep 60]).
Proof.
  unfold check_request_limit. run_monad.
  destruct (n_requests s + 1 >=? 800); eexists; eexists;
    (split; [reflexivity|]); cbn; unfold same_settings, same_tables; cbn.
  - repeat split; try done. by right.
  - repeat split; try done; [by rewrite app_nil_r|by left].
Qed.

Lemma latest_closed_settings (now : Z) (s s' : Loader) (symbol : string)
    (recs : list BarRecord) :
  same_settings s s' ->
  latest_closed now s' symbol recs = latest_closed now s symbol recs.
Proof. intros (Hi & Hn & _). unfold latest_closed. by rewrite Hi, Hn. Qed.

Lemma fetch_symbol_spec (w : World) (l : Locals) (symbol : string)
    (start_time : Z) (s : Loader) (r : result Locals) (s' : Loader) :
  fetch_symbol w l symbol start_time s = (r, s') ->
  same_settings s s' /\ same_tables s s'
  /\ _n_active_symbols s' = _n_active_symbols s /\ mode s' = mode s
  /\ (exists pre, trace s' = trace s ++ pre ++ [EvGetBars symbol start_time]
                  /\ (pre = [] \/ pre = [EvSleep 60]))
  /\ forall l', r = Ok l' ->
       processed_symbols l' = S (processed_symbols l)
       /\ persisted_records l' = persisted_records l
       /\ exists recs cks ob,
           record_objs l' = record_objs l ++ recs
           /\ new_latest l' = new_latest l ++ cks
           /\ length recs = fetched w (_interval s) (symbol, start_time)
           /\ get_bars w symbol (_interval s) start_time = Ok ob
           /\ match ob with
              | Some (b :: bars) =>
                  exists ids ck,
                    build_records (b :: bars) ids = Ok recs
                    /\ length ids = length (b :: bars)
                    /\ cks = [ck]
                    /\ latest_closed (utcnow w (S (processed_symbols l))) s
                         symbol recs = Ok ck
              | _ => recs = [] /\ cks = []
              end.
Proof.
  unfold fetch_symbol.
  destruct (check_request_limit_spec s)
    as (s1 & pre & Hs1 & Hset & Htab & Hseq & Hn & Hm & Htr & Hpre).
  run_monad. rewrite Hs1. cbn -[build_records latest_closed seq get_bars].
  assert (Hset' := Hset). destruct Hset' as (Hint & Hsrc & Hsch).
  destruct Htab as (Hses & Hdur).
  unfold fetched. cbn [fst snd]. rewrite Hint.
  destruct (get_bars w symbol (_interval s) start_time) as [ob|e] eqn:Hbars.
  2:{ intros [= <- <-]. cbn. unfold same_settings, same_tables. cbn.
      do 4 (split; [done|]). split; [|done].
      exists pre. split; [|done]. by rewrite Htr, <- app_assoc. }
  assert (Hframe : forall s2,
             same_settings s1 s2 -> same_tables s1 s2 ->
             _n_active_symbols s2 = _n_active_symbols s1 -> mode s2 = mode s1 ->
             trace s2 = trace s1 ++ [EvGetBars symbol start_time] ->
             same_settings s s2 /\ same_tables s s2
             /\ _n_active_symbols s2 = _n_active_symbols s /\ mode s2 = mode s
             /\ (exists pre, trace s2 = trace s ++ pre ++ [EvGetBars symbol start_time]
                             /\ (pre = [] \/ pre = [EvSleep 60]))).
  { intros s2 (Hi2 & Hn2 & Hc2) (Hs2 & Hd2) Hna2 Hm2 Ht2.
    unfold same_settings, same_tables.
    repeat split; try congruence.
    exists pre. split; [|done]. by rewrite Ht2, Htr, <- app_assoc. }
  destruct ob as [[|b bars]|].
  - intros [= <- <-].
    destruct (Hframe (emit (EvGetBars symbol start_time) s1))
      as (? & ? & ? & ? & ?); try done.
    do 5 (split; [done|]).
    intros l' [= <-]. cbn. do 2 (split; [done|]).
    exists [], [], (Some []). rewrite !app_nil_r. done.
  - cbn -[build_records latest_closed seq].
    destruct (build_records (b :: bars)
                ((fun i => sequence (_target s1) + Z.of_nat i)
                   <$> seq 0 (S (length bars)))) as [recs|e] eqn:Hrecs.
    2:{ intros [= <- <-].
        destruct (Hframe (set_target
                            (mkTarget (durable (_target s1)) (session (_target s1))
                               (sequence (_target s1) + Z.of_nat (length (b :: bars))))
                            (emit (EvGetBars symbol start_time) s1)))
          as (? & ? & ? & ? & ?); try done. }
    cbn -[build_records latest_closed seq].
    destruct (latest_closed (utcnow w (S (processed_symbols l))) s1 symbol recs)
      as [ck|e] eqn:Hck.
    2:{ intros [= <- <-].
        destruct (Hframe (set_target
                            (mkTarget (durable (_target s1)) (session (_target s1))
                               (sequence (_target s1) + Z.of_nat (length (b :: bars))))
                            (emit (EvGetBars symbol start_time) s1)))
          as (? & ? & ? & ? & ?); try done. }
    intros [= <- <-].
    destruct (Hframe (set_target
                        (mkTarget (durable (_target s1)) (session (_target s1))
                           (sequence (_target s1) + Z.of_nat (length (b :: bars))))
                        (emit (EvGetBars symbol start_time) s1)))
      as (? & ? & ? & ? & ?); try done.
    do 5 (split; [done|]).
    intros l' [= <-]. cbn -[build_records latest_closed seq].
    do 2 (split; [done|]).
    exists recs, [ck], (Some (b :: bars)). repeat split; try done.
    + apply mapM_result_length in Hrecs. rewrite Hrecs.
      rewrite length_zip_with, length_fmap, length_seq. cbn [length]. lia.
    + eexists _, ck. split; [exact Hrecs|].
      split; [by rewrite length_fmap, length_seq|].
      split; [done|]. by rewrite <- (latest_closed_settings _ s s1).
  - intros [= <- <-].
    destruct (Hframe (emit (EvGetBars symbol start_time) s1))
      as (? & ? & ? & ? & ?); try done.
    do 5 (split; [done|]).
    intros l' [= <-]. cbn. do 2 (split; [done|]).
    exists [], [], None. rewrite !app_nil_r. done.
Qed.

Lemma flush_batch_spec (l : Locals) (s : Loader) :
  exists l' s',
    flush_batch l s = (Ok l', s')
    /\ same_settings s s'
    /\ _n_active_symbols s' = _n_active_symbols s /\ mode s' = mode s
    /\ processed_symbols l' = processed_symbols l
    /\ if flush_due s l
       then
         record_objs l' = [] /\ new_latest l' = []
         /\ persisted_records l'
            = persisted_records l + Z.of_nat (length (record_objs l))
         /\ trace s'
            = trace s
              ++ [EvExecute (SpotQueries.UPSERT (_interval s))
                    (length (record_objs l));
                  EvExecute (SpotLatestQueries.UPSERT (_interval s))
                    (length (omap (fmap latest.as_tuple) (new_latest l)));
                  EvCommit]
         /\ session (_target s')
            = mkTables
                (foldl upsert_spot_row (spot (session (_target s)))
                   (bar_record.as_tuple <$> record_objs l))
                (foldl upsert_latest_row (spot_latest (session (_target s)))
                   (omap (fmap latest.as_tuple) (new_latest l)))
         /\ durable (_target s') = session (_target s')
       else l' = l /\ s' = s.
Proof.
  unfold flush_batch. run_monad.
  destruct (flush_due s l) eqn:Hdue.
  - destruct (persist_records_target (bar_record.as_tuple <$> record_objs l)
                (omap (fmap latest.as_tuple) (new_latest l)) s)
      as (s' & Hp & Hses & Hdur & Hseq & Htr & Hint & Hsrc & Hn & Hm & Hreq).
    rewrite Hp. eexists _, s'. split; [reflexivity|]. cbn.
    assert (Hsch : schema s' = schema s).
    { apply (f_equal snd) in Hp. cbn in Hp. subst s'.
      unfold persist_records, execute, commit. run_monad. reflexivity. }
    split; [by unfold same_settings|].
    rewrite length_fmap in Htr. done.
  - eexists l, s. split; [reflexivity|]. by unfold same_settings.
Qed.

Lemma requested_app (a b : list event) :
  requested (a ++ b) = requested a ++ requested b.
Proof.
  induction a as [|e a IH]; [done|].
  destruct e; cbn; rewrite ?IH; done.
Qed.

Lemma persisted_rows_app (a b : list event) :
  persisted_rows (a ++ b) = persisted_rows a + persisted_rows b.
Proof.
  induction a as [|e a IH]; [done|].
  destruct e as [| |[] |]; cbn [app persisted_rows]; rewrite ?IH; lia.
Qed.

Lemma flushes_app (a b : list event) (f : nat) :
  flushes (a ++ b) f
  = flushes a f ++ flushes b (f + length (requested a)).
Proof.
  revert f. induction a as [|e a IH]; intros f.
  - cbn. by rewrite Nat.add_0_r.
  - destruct e as [| |[] |]; cbn [app flushes requested length];
      rewrite IH; cbn [app]; try done.
    by replace (S f + length (requested a))%nat
         with (f + S (length (requested a)))%nat by lia.
Qed.

Lemma flush_due_schedule (s : Loader) (l : Locals) :
  flush_due s l
  = (0 <? Z.of_nat (length (record_objs l)))
    && ((Z.of_nat (processed_symbols l) mod BATCH_SIZE =? 0)
        || (Z.of_nat (processed_symbols l) =? _n_active_symbols s)).
Proof. unfold flush_due. by destruct (record_objs l). Qed.

Lemma load_loop_trace (w : World) (keys : list (string * Z)) :
  forall (l : Locals) (s : Loader) (n : Z) (s' : Loader),
    load_loop w keys l s = (Ok n, s') ->
    same_settings s s'
    /\ _n_active_symbols s' = _n_active_symbols s /\ mode s' = mode s
    /\ exists tr,
        trace s' = trace s ++ tr
        /\ requested tr = keys
        /\ flushes tr (processed_symbols l)
           = flush_schedule (_n_active_symbols s)
               (fetched w (_interval s) <$> keys)
               (processed_symbols l) (length (record_objs l))
        /\ n = persisted_records l + persisted_rows tr.
Proof.
  induction keys as [|[symbol start_time] keys IH]; intros l s n s' Hrun.
  - cbn in Hrun. injection Hrun as <- <-.
    split; [by unfold same_settings|]. do 2 (split; [done|]).
    exists []. rewrite app_nil_r. cbn. repeat split; try done. lia.
  - cbn [load_loop] in Hrun. run_monad.
    destruct (fetch_symbol w l symbol start_time s) as [r1 s1] eqn:Hfetch.
    apply fetch_symbol_spec in Hfetch
      as (Hset1 & _ & Hn1 & Hm1 & (pre & Htr1 & Hpre) & Hok).
    destruct r1 as [l1|e]; [|discriminate].
    destruct (Hok l1 eq_refl)
      as (Hproc1 & Hpers1 & recs & cks & ob & Hrecs & _ & Hlen & _).
    destruct (flush_batch_spec l1 s1)
      as (l2 & s2 & Hflush & Hset2 & Hn2 & Hm2 & Hproc2 & Hcase).
    rewrite Hflush in Hrun.
    apply IH in Hrun as (Hset3 & Hn3 & Hm3 & tr & Htr3 & Hreq & Hfl & Hcount).
    destruct Hset1 as (Hi1 & Hs1 & Hc1), Hset2 as (Hi2 & Hs2 & Hc2),
      Hset3 as (Hi3 & Hs3 & Hc3).
    split; [unfold same_settings; repeat split; congruence|].
    do 2 (split; [congruence|]).
    cbn [fmap list_fmap flush_schedule].
    rewrite flush_due_schedule in Hcase.
    rewrite Hproc1, Hrecs, length_app, Hlen, Hn1, Hi1 in Hcase.
    rewrite Hproc2, Hproc1, Hn2, Hn1, Hi2, Hi1 in Hfl.
    set (due := (0 <? Z.of_nat (length (record_objs l)
                                + fetched w (_interval s) (symbol, start_time)))
                && ((Z.of_nat (S (processed_symbols l)) mod BATCH_SIZE =? 0)
                    || (Z.of_nat (S (processed_symbols l))
                        =? _n_active_symbols s))) in *.
    assert (Hpre_req : requested pre = [] /\ persisted_rows pre = 0
                       /\ forall f, flushes pre f = []).
    { destruct Hpre as [-> | ->]; done. }
    destruct Hpre_req as (Hpr & Hpp & Hpf).
    destruct due.
    + destruct Hcase as (Hrec2 & _ & Hpers2 & Htr2 & _).
      exists (pre ++ [EvGetBars symbol start_time]
              ++ [EvExecute (SpotQueries.UPSERT (_interval s))
                    (length (record_objs l)
                     + fetched w (_interval s) (symbol, start_time));
                  EvExecute (SpotLatestQueries.UPSERT (_interval s))
                    (length (omap (fmap latest.as_tuple) (new_latest l1)));
                  EvCommit] ++ tr).
      split; [rewrite Htr3, Htr2, Htr1; by rewrite <- !app_assoc|].
      split; [rewrite requested_app, Hpr; cbn; by rewrite Hreq|].
      split.
      * rewrite flushes_app, Hpf, Hpr. cbn [app length flushes].
        rewrite Nat.add_0_r. unfold SpotQueries.UPSERT at 1.
        unfold SpotLatestQueries.UPSERT at 1. cbn [flushes].
        rewrite Hfl, Hrec2. reflexivity.
      * rewrite Hcount, Hpers2, Hpers1, !persisted_rows_app, Hpp.
        unfold SpotQueries.UPSERT, SpotLatestQueries.UPSERT.
        cbn [persisted_rows app]. lia.
    + destruct Hcase as [-> ->].
      exists (pre ++ [EvGetBars symbol start_time] ++ tr).
      split; [rewrite Htr3, Htr1; by rewrite <- !app_assoc|].
      split; [rewrite requested_app, Hpr; cbn; by rewrite Hreq|].
      split.
      * rewrite flushes_app, Hpf, Hpr. cbn [app length flushes].
        rewrite Nat.add_0_r, Hfl, Hrecs, length_app, Hlen. reflexivity.
      * rewrite Hcount, Hpers1, !persisted_rows_app, Hpp.
        cbn [persisted_rows app]. lia.
Qed.

Lemma persisted_rows_flushes (tr : list event) (f : nat) :
  persisted_rows tr = batch_total (flushes tr f).
Proof.
  revert f. induction tr as [|e tr IH]; intros f; [done|].
  destruct e as [| |[] |]; cbn [persisted_rows flushes]; try apply IH.
  unfold batch_total. cbn [foldr snd]. by rewrite (IH f).
Qed.

Lemma flush_schedule_complete (counts : list nat) :
  forall processed pending : nat,
    counts <> [] \/ pending = 0%nat ->
    batch_total
      (flush_schedule (Z.of_nat (processed + length counts)) counts
         processed pending)
    = Z.of_nat pending + total counts.
Proof.
  induction counts as [|c counts IH]; intros processed pending Hne.
  - destruct Hne as [?| ->]; done.
  - cbn [flush_schedule length total foldr].
    replace (Z.of_nat (processed + S (length counts)))
      with (Z.of_nat (S processed + length counts)) by lia.
    destruct counts as [|c' counts].
    + cbn [length flush_schedule].
      replace (Z.of_nat (S processed) =? Z.of_nat (S processed + 0)) with true
        by (symmetry; apply Z.eqb_eq; lia).
      rewrite orb_true_r, andb_true_r.
      destruct (Z.ltb_spec 0 (Z.of_nat (pending + c)));
        unfold batch_total; cbn; lia.
    + destruct ((0 <? Z.of_nat (pending + c))
                && ((Z.of_nat (S processed) mod BATCH_SIZE =? 0)
                    || (Z.of_nat (S processed)
                        =? Z.of_nat (S processed + length (c' :: counts))))).
      * unfold batch_total. cbn [foldr snd]. fold (batch_total).
        change (foldr (fun f acc => Z.of_nat f.2 + acc) 0
                  (flush_schedule (Z.of_nat (S processed + length (c' :: counts)))
                     (c' :: counts) (S processed) 0))
          with (batch_total
                  (flush_schedule (Z.of_nat (S processed + length (c' :: counts)))
                     (c' :: counts) (S processed) 0)).
        rewrite IH by (by left). cbn [total foldr]. lia.
      * rewrite IH by (by left). cbn [total foldr]. lia.
Qed.

Lemma flush_schedule_points (n_active : Z) (counts : list nat) :
  forall processed pending : nat,
    Forall (flush_point n_active)
      (flush_schedule n_active counts processed pending).
Proof.
  induction counts as [|c counts IH]; intros processed pending; [constructor|].
  cbn [flush_schedule].
  destruct (Z.ltb_spec 0 (Z.of_nat (pending + c))) as [Hpos|]; [|apply IH].
  destruct (Z.eqb_spec (Z.of_nat (S processed) mod BATCH_SIZE) 0) as [Hm|].
  - cbn [andb orb]. constructor; [|apply IH].
    split; cbn [fst snd]; [lia|by left].
  - destruct (Z.eqb_spec (Z.of_nat (S processed)) n_active) as [Hn|];
      cbn [andb orb]; [|apply IH].
    constructor; [|apply IH]. split; cbn [fst snd]; [lia|by right].
Qed.

(** C3, as stated, fails: the first symbol of the cycle brings a
    thousand records and no flush follows it; the only flush of the
    cycle comes after the second symbol, with 1001 records. *)
Lemma flush_not_on_record_count :
  flushes
    (trace (run_once sample.thousand_bars_world ["AAA"; "BBB"]
              sample.loader_1h).2) 0
  = [(2%nat, 1001%nat)].
Proof. vm_compute. reflexivity. Qed.

(** C3, as the code has it: in a cycle whose active-symbol count is the
    number of keys, [load_from_keys] requests the keys in order and
    flushes after a symbol exactly when records are pending and the
    number of symbols processed is a multiple of 1000 or the
    active-symbol count. No record is dropped: the flushed rows add up
    to the records fetched, and that is the count it returns. *)
Theorem load_from_keys_flushes (w : World) (keys : list (string * Z))
    (s : Loader) (n : Z) (s' : Loader) :
  _n_active_symbols s = Z.of_nat (length keys) ->
  load_from_keys w keys s = (Ok n, s') ->
  exists tr,
    trace s' = trace s ++ tr
    /\ requested tr = keys
    /\ flushes tr 0
       = flush_schedule (Z.of_nat (length keys))
           (fetched w (_interval s) <$> keys) 0 0
    /\ Forall (flush_point (Z.of_nat (length keys))) (flushes tr 0)
    /\ persisted_rows tr = total (fetched w (_interval s) <$> keys)
    /\ n = total (fetched w (_interval s) <$> keys).
Proof.
  intros Hn Hrun. unfold load_from_keys in Hrun.
  apply load_loop_trace in Hrun
    as (_ & _ & _ & tr & Htr & Hreq & Hfl & Hcount).
  cbn [processed_symbols record_objs persisted_records length] in *.
  rewrite Hn in Hfl.
  assert (Htotal : persisted_rows tr = total (fetched w (_interval s) <$> keys)).
  { rewrite (persisted_rows_flushes tr 0), Hfl.
    replace (Z.of_nat (length keys))
      with (Z.of_nat (0 + length (fetched w (_interval s) <$> keys)))
      by (by rewrite length_fmap).
    rewrite flush_schedule_complete by (by right). lia. }
  exists tr. repeat split; try done.
  - rewrite Hfl. apply flush_schedule_points.
  - lia.
Qed.

Lemma load_from_keys_flushes_witness :
  exists tr,
    trace (load_from_keys sample.xyz_world
             [("XYZ", sample.t0); ("ABC", sample.t0)]
             (set_n_active_symbols 2 sample.loader_1h)).2
    = trace (set_n_active_symbols 2 sample.loader_1h) ++ tr
    /\ requested tr = [("XYZ", sample.t0); ("ABC", sample.t0)]
    /\ flushes tr 0
       = flush_schedule 2
           (fetched sample.xyz_world "1h"
              <$> [("XYZ", sample.t0); ("ABC", sample.t0)]) 0 0
    /\ Forall (flush_point 2) (flushes tr 0)
    /\ persisted_rows tr
       = total (fetched sample.xyz_world "1h"
                  <$> [("XYZ", sample.t0); ("ABC", sample.t0)])
    /\ 3 = total (fetched sample.xyz_world "1h"
                    <$> [("XYZ", sample.t0); ("ABC", sample.t0)]).
Proof.
  apply (load_from_keys_flushes sample.xyz_world
           [("XYZ", sample.t0); ("ABC", sample.t0)]
           (set_n_active_symbols 2 sample.loader_1h) 3).
  - reflexivity.
  - vm_compute. reflexivity.
Defined.

(** ** Reconciliation and the fetch plan *)

Lemma check_trading_status_spec (w : World) (s : Loader) (r : result unit)
    (s' : Loader) :
  check_trading_status w s = (r, s') ->
  same_settings s s' /\ mode s' = mode s
  /\ sequence (_target s') = sequence (_target s)
  /\ (exists tr, trace s' = trace s ++ tr
                 /\ requested tr = [] /\ persisted_rows tr = 0)
  /\ ((same_tables s s'
       /\ forall status,
           r = Ok tt ->
           get_trading_status w (get_inactive_symbols (_target s))
           = Ok (Some status) ->
           filter (fun p => p.2 = true) status = [])
      \/ exists status,
          r = Ok tt
          /\ get_trading_status w (get_inactive_symbols (_target s))
             = Ok (Some status)
          /\ String.eqb ("spot_" ++ _interval s ++ "_latest")%string
               "spot_1h_latest" = true
          /\ session (_target s')
             = mkTables (spot (session (_target s)))
                 (foldl update_active_row (spot_latest (session (_target s)))
                    (filter (fun p => p.2 = true) status))
          /\ durable (_target s') = session (_target s')).
Proof.
  unfold check_trading_status. run_monad.
  destruct (get_trading_status w (get_inactive_symbols (_target s)))
    as [status|e] eqn:Hstatus.
  2:{ intros [= <- <-]. unfold same_settings, same_tables.
      do 3 (split; [done|]). split.
      - exists []. by rewrite app_nil_r.
      - left. split; [done|]. intros ? [=]. }
  destruct (check_request_limit_spec s)
    as (s1 & pre & Hs1 & Hset & Htab & Hseq & Hn & Hm & Htr & Hpre).
  rewrite Hs1.
  assert (Hpre' : requested pre = [] /\ persisted_rows pre = 0)
    by (destruct Hpre as [-> | ->]; done).
  destruct Hpre' as (Hpr & Hpp).
  assert (Hframe : forall s2 tr2,
             same_settings s1 s2 -> mode s2 = mode s1 ->
             sequence (_target s2) = sequence (_target s1) ->
             trace s2 = trace s1 ++ tr2 ->
             requested tr2 = [] -> persisted_rows tr2 = 0 ->
             same_settings s s2 /\ mode s2 = mode s
             /\ sequence (_target s2) = sequence (_target s)
             /\ (exists tr, trace s2 = trace s ++ tr
                            /\ requested tr = [] /\ persisted_rows tr = 0)).
  { intros s2 tr2 (Hi2 & Hn2 & Hc2) Hm2 Hq2 Ht2 Hr2 Hp2.
    destruct Hset as (Hi & Hsn & Hc).
    split; [unfold same_settings; repeat split; congruence|].
    do 2 (split; [congruence|]).
    exists (pre ++ tr2). rewrite Ht2, Htr, <- app_assoc.
    split; [done|]. rewrite requested_app, persisted_rows_app, Hpr, Hpp, Hr2, Hp2.
    done. }
  assert (Hself : same_settings s1 s1) by done.
  assert (Hskip : (status = None \/ exists st, status = Some st
                      /\ filter (fun p => p.2 = true) st = []) ->
                  (Ok tt, s1) = (r, s') ->
                  same_settings s s' /\ mode s' = mode s
                  /\ sequence (_target s') = sequence (_target s)
                  /\ (exists tr, trace s' = trace s ++ tr
                                 /\ requested tr = [] /\ persisted_rows tr = 0)
                  /\ ((same_tables s s'
                       /\ forall status0,
                           r = Ok tt -> Ok status = Ok (Some status0) ->
                           filter (fun p => p.2 = true) status0 = [])
                      \/ exists status0,
                          r = Ok tt /\ Ok status = Ok (Some status0)
                          /\ String.eqb ("spot_" ++ _interval s ++ "_latest")%string
                               "spot_1h_latest" = true
                          /\ session (_target s')
                             = mkTables (spot (session (_target s)))
                                 (foldl update_active_row
                                    (spot_latest (session (_target s)))
                                    (filter (fun p => p.2 = true) status0))
                          /\ durable (_target s') = session (_target s'))).
  { intros Hnone [= <- <-].
    destruct (Hframe s1 []) as (? & ? & ? & ?); try done;
      [by rewrite app_nil_r|].
    do 4 (split; [done|]). left. split; [done|].
    intros status0 _ [= ->].
    destruct Hnone as [|(st & [= <-] & Hst)]; done. }
  destruct status as [[|p status]|]; cbn iota;
    [apply Hskip; right; by exists []| |apply Hskip; by left].
  match goal with
  | |- context [match ?f with [] => _ | _ :: _ => _ end] =>
      destruct f as [|a act] eqn:Hact
  end; [apply Hskip; right; by exists (p :: status)|].
  clear Hskip.
  unfold execute, commit, execute_status,
    SpotLatestQueries.CORRECT_TRADING_STATUS. run_monad.
  destruct Htab as (Hses & Hdur).
  destruct (String.eqb ("spot_" ++ _interval s ++ "_latest")%string
              "spot_1h_latest") eqn:Hname.
  - intros [= <- <-].
    match goal with
    | |- same_settings s ?s2 /\ _ =>
        destruct (Hframe s2
                    [EvExecute (UpdateActiveFromValues
                                  ("spot_" ++ _interval s ++ "_latest")
                                  "spot_1h_latest") (length (a :: act));
                     EvCommit])
          as (? & ? & ? & ?); try done
    end.
    { cbn. by rewrite <- app_assoc. }
    do 4 (split; [done|]). right. exists (p :: status).
    rewrite Hact. cbn -[filter]. rewrite Hses. done.
  - intros [= <- <-].
    match goal with
    | |- same_settings s ?s2 /\ _ =>
        destruct (Hframe s2
                    [EvExecute (UpdateActiveFromValues
                                  ("spot_" ++ _interval s ++ "_latest")
                                  "spot_1h_latest") (length (a :: act))])
          as (? & ? & ? & ?); try done
    end.
    do 4 (split; [done|]). left. split; [done|]. intros ? [=].
Qed.

Lemma mapM_result_total {A B} (f : A -> result B) (g : A -> B) (l : list A) :
  (forall a, f a = Ok (g a)) -> mapM f l = Ok (g <$> l).
Proof.
  intros Hfg. induction l as [|a l IH]; [done|].
  cbn. rewrite Hfg. cbn. rewrite IH. reflexivity.
Qed.

Lemma mapM_earliest_key (symbols : list string) :
  exists start,
    mapM earliest_key symbols = Ok ((fun s => (s, start)) <$> symbols).
Proof.
  eexists. apply mapM_result_total. intros a. vm_compute. reflexivity.
Qed.

Lemma get_latest_elem (tg : Target) (symbol : string) (lc : Z) (a : bool) :
  (symbol, lc, a) ∈ get_latest tg
  <-> exists row, spot_latest (session tg) !! symbol = Some row
                  /\ row_latest_close row = lc /\ row_active row = a.
Proof.
  unfold get_latest. rewrite list_elem_of_fmap. split.
  - intros ([k row] & [= -> -> ->] & Hin).
    apply elem_of_map_to_list in Hin. by exists row.
  - intros (row & Hrow & <- & <-). exists (symbol, row).
    split; [done|]. by apply elem_of_map_to_list.
Qed.

Lemma get_latest_symbols (tg : Target) :
  (get_latest tg).*1.*1 = (map_to_list (spot_latest (session tg))).*1.
Proof.
  unfold get_latest. rewrite <- !list_fmap_compose.
  apply list_fmap_ext. by intros _ [k row] _.
Qed.

Lemma active_keys_spec (interval : string) (rows : list (string * Z * bool))
    (ks : list (list (string * Z))) :
  Forall2 (fun row k => active_key interval row = Ok k) rows ks ->
  (forall symbol start,
      (symbol, start) ∈ mjoin ks
      <-> exists lc, (symbol, lc, true) ∈ rows
                     /\ get_next_interval interval lc = Ok start)
  /\ (NoDup rows.*1.*1 -> NoDup (mjoin ks).*1)
  /\ (forall symbol, symbol ∈ (mjoin ks).*1 -> symbol ∈ rows.*1.*1).
Proof.
  induction 1 as [|[[sym lc] a] k rows ks Hk Hrest (IH1 & IH2 & IH3)].
  - repeat split; try done.
    + by intros Hin%elem_of_nil.
    + intros (lc & Hin%elem_of_nil & _). done.
  - assert (Hhead : forall symbol start,
               (symbol, start) ∈ k
               <-> symbol = sym /\ a = true
                   /\ get_next_interval interval lc = Ok start).
    { intros symbol start. unfold active_key in Hk. destruct a.
      - destruct (get_next_interval interval lc) as [st|]; [|discriminate].
        cbn in Hk. injection Hk as <-. rewrite list_elem_of_singleton.
        split; [by intros [= -> ->]|by intros (-> & _ & [= ->])].
      - injection Hk as <-. split; [by intros Hin%elem_of_nil|].
        by intros (_ & ? & _). }
    change (mjoin (k :: ks)) with (k ++ mjoin ks).
    repeat split.
    + rewrite elem_of_app. intros [Hin|Hin].
      * apply Hhead in Hin as (-> & -> & Hstart). exists lc.
        split; [left|done].
      * apply IH1 in Hin as (lc' & Hin & Hstart). exists lc'.
        split; [by right|done].
    + intros (lc' & Hin & Hstart). rewrite elem_of_app.
      apply elem_of_cons in Hin as [[= -> -> <-]|Hin].
      * left. by apply Hhead.
      * right. apply IH1. by exists lc'.
    + cbn [fmap list_fmap fst]. intros Hnd%NoDup_cons. destruct Hnd as [Hnot Hnd].
      rewrite fmap_app. apply NoDup_app. repeat split.
      * destruct k as [|[s1 st1] [|? ?]].
        -- constructor.
        -- apply NoDup_singleton.
        -- exfalso. unfold active_key in Hk. destruct a; [|discriminate].
           destruct (get_next_interval interval lc); discriminate.
      * intros x Hx Hx'. apply IH3 in Hx'.
        apply list_elem_of_fmap in Hx as ([s1 st1] & -> & Hin).
        apply Hhead in Hin as (-> & _). done.
      * by apply IH2.
    + intros symbol. rewrite fmap_app, elem_of_app. cbn [fmap list_fmap fst].
      intros [Hx|Hx].
      * apply list_elem_of_fmap in Hx as ([s1 st1] & -> & Hin).
        apply Hhead in Hin as (-> & _). left.
      * right. by apply IH3.
Qed.

Lemma new_symbols_of_spec (symbol_lst : list string)
    (latest : list (string * Z * bool)) :
  NoDup (new_symbols_of symbol_lst latest)
  /\ forall symbol,
      symbol ∈ new_symbols_of symbol_lst latest
      <-> symbol ∈ symbol_lst /\ symbol ∉ latest.*1.*1.
Proof.
  unfold new_symbols_of. split; [apply NoDup_elements|].
  intros symbol. rewrite elem_of_elements, elem_of_difference.
  rewrite !elem_of_list_to_set.
  replace ((fun r : string * Z * bool => r.1.1) <$> latest)
    with (latest.*1.*1); [done|].
  rewrite <- list_fmap_compose. done.
Qed.

Lemma fmap_fst_pair {A B} (c : B) (l : list A) :
  ((fun a => (a, c)) <$> l).*1 = l.
Proof. induction l as [|a l IH]; [done|]. cbn. by rewrite IH. Qed.

(** What [get_keys] returns: the plan holds a key for every active
    checkpoint, starting one interval after its [latest_close], and a
    key for every listed symbol without a checkpoint; nothing else. *)
Lemma get_keys_spec (symbol_lst : list string) (s : Loader)
    (r : result (list (string * Z))) (s' : Loader) :
  get_keys symbol_lst s = (r, s') ->
  match r with
  | Raise _ => s' = s
  | Ok keys =>
      s' = set_n_active_symbols (Z.of_nat (length keys)) s
      /\ (forall symbol start,
             (symbol, start) ∈ keys ->
             (exists row,
                 spot_latest (session (_target s)) !! symbol = Some row
                 /\ row_active row = true
                 /\ get_next_interval (_interval s) (row_latest_close row)
                    = Ok start)
             \/ (spot_latest (session (_target s)) !! symbol = None
                 /\ symbol ∈ symbol_lst))
      /\ (forall symbol row,
             spot_latest (session (_target s)) !! symbol = Some row ->
             row_active row = true ->
             exists start,
               (symbol, start) ∈ keys
               /\ get_next_interval (_interval s) (row_latest_close row)
                  = Ok start)
      /\ (NoDup symbol_lst -> NoDup keys.*1)
  end.
Proof.
  unfold get_keys. run_monad.
  destruct (get_latest (_target s)) as [|p latest] eqn:Hlatest.
  - destruct (mapM_earliest_key symbol_lst) as (start0 & ->).
    intros [= <- <-]. cbn [app].
    assert (Hempty : spot_latest (session (_target s)) = ∅).
    { unfold get_latest in Hlatest. apply fmap_nil_inv in Hlatest.
      by apply map_to_list_empty_iff. }
    split; [done|]. split; [|split].
    + intros symbol start Hin. right. rewrite Hempty, lookup_empty.
      split; [done|].
      apply list_elem_of_fmap in Hin as (x & [= -> _] & Hin). done.
    + intros symbol row. by rewrite Hempty, lookup_empty.
    + intros Hnd. by rewrite fmap_fst_pair.
  - rewrite <- Hlatest.
    destruct (mapM (active_key (_interval s)) (get_latest (_target s)))
      as [ks|e] eqn:Hks; cbn.
    2:{ by intros [= <- <-]. }
    destruct (mapM_earliest_key
                (new_symbols_of symbol_lst (get_latest (_target s))))
      as (start0 & Hnew).
    rewrite Hlatest at 1. cbn iota. rewrite <- Hlatest, Hnew.
    intros [= <- <-].
    apply mapM_result_Forall2 in Hks.
    destruct (active_keys_spec _ _ _ Hks) as (Hmem & Hnodup & Hsub).
    destruct (new_symbols_of_spec symbol_lst (get_latest (_target s)))
      as (Hnd_new & Hnew_mem).
    split; [done|]. split; [|split].
    + intros symbol start. rewrite elem_of_app. intros [Hin|Hin].
      * left. apply Hmem in Hin as (lc & Hin & Hstart).
        apply get_latest_elem in Hin as (row & Hrow & <- & Hact).
        by exists row.
      * right. apply list_elem_of_fmap in Hin as (x & [= -> _] & Hin).
        apply Hnew_mem in Hin as (Hin & Hnot). split; [|done].
        destruct (spot_latest (session (_target s)) !! x) as [row|] eqn:Hrow;
          [|done].
        exfalso. apply Hnot.
        rewrite get_latest_symbols. apply list_elem_of_fmap.
        exists (x, row). split; [done|]. by apply elem_of_map_to_list.
    + intros symbol row Hrow Hact.
      assert (Hin : (symbol, row_latest_close row, true)
                    ∈ get_latest (_target s)).
      { apply get_latest_elem. by exists row. }
      destruct (get_next_interval (_interval s) (row_latest_close row))
        as [start|e] eqn:Hstart.
      * exists start. split; [|done]. rewrite elem_of_app. left.
        apply Hmem. by exists (row_latest_close row).
      * exfalso.
        apply list_elem_of_lookup in Hin as (i & Hi).
        destruct (Forall2_lookup_l _ _ _ _ _ Hks Hi) as (k & _ & Hk).
        unfold active_key in Hk. rewrite Hstart in Hk. discriminate.
    + intros _. rewrite fmap_app. apply NoDup_app. repeat split.
      * apply Hnodup. rewrite get_latest_symbols.
        apply NoDup_fst_map_to_list.
      * intros x Hx Hx'. apply Hsub in Hx.
        apply list_elem_of_fmap in Hx' as ([x1 st1] & -> & Hin).
        apply list_elem_of_fmap in Hin as (x2 & [= -> _] & Hin).
        apply Hnew_mem in Hin as (_ & Hnot). done.
      * by rewrite fmap_fst_pair.
Qed.

(** ** Pacing *)

Lemma fast_choices_range (k : nat) (t : Z) :
  fast_choices !! k = Some t -> 1 <= t <= 5.
Proof.
  do 6 (destruct k as [|k]; [intros [= <-]; lia|]). discriminate.
Qed.

Lemma fast_choices_defined (k : nat) :
  (k < 6)%nat -> exists t, fast_choices !! k = Some t.
Proof.
  intros Hk. do 6 (destruct k as [|k]; [by eexists|]). lia.
Qed.

(** The steps of a cycle that returns. *)
Lemma run_once_steps (w : World) (symbol_lst : list string) (s : Loader)
    (r : result unit) (s' : Loader) :
  run_once w symbol_lst s = (r, s') ->
  r = Ok tt ->
  exists s1 keys s2 n s3,
    check_trading_status w (set_mode SLOW s) = (Ok tt, s1)
    /\ get_keys symbol_lst s1 = (Ok keys, s2)
    /\ load_from_keys w keys s2 = (Ok n, s3)
    /\ s' = (if n >? _n_active_symbols s3 then set_mode FAST s3 else s3).
Proof.
  unfold run_once. run_monad.
  destruct (check_trading_status w (set_mode SLOW s)) as [[[]|e] s1] eqn:H1;
    [|by intros [= <- <-]].
  destruct (get_keys symbol_lst s1) as [[keys|e] s2] eqn:H2;
    [|by intros [= <- <-]].
  destruct (load_from_keys w keys s2) as [[n|e] s3] eqn:H3;
    [|by intros [= <- <-]].
  intros Hrun _. exists s1, keys, s2, n, s3. repeat split; try done.
  destruct (n >? _n_active_symbols s3); by injection Hrun as _ <-.
Qed.

Lemma waiting_time_fast (s : Loader) :
  mode s = FAST ->
  (forall k, exists t, waiting_time s k = Ok t /\ 1 <= t <= 5)
  /\ (forall t, 1 <= t <= 5 -> exists k, waiting_time s k = Ok t).
Proof.
  intros Hfast. unfold waiting_time, choice. rewrite Hfast.
  change (length fast_choices) with 6%nat. split.
  - intros k.
    destruct (fast_choices_defined (k mod 6)) as (t & Ht).
    { apply Nat.mod_upper_bound. lia. }
    exists t. rewrite Ht. split; [done|]. by apply (fast_choices_range (k mod 6)).
  - intros t Ht.
    assert (Hcases : t = 1 \/ t = 2 \/ t = 3 \/ t = 4 \/ t = 5) by lia.
    destruct Hcases as [->|[->|[->|[->| ->]]]];
      [by exists 0%nat|by exists 3%nat|by exists 4%nat|by exists 5%nat
       |by exists 1%nat].
Qed.

Lemma run_once_mode (w : World) (symbol_lst : list string) (s s' : Loader) :
  run_once w symbol_lst s = (Ok tt, s') ->
  exists tr,
    trace s' = trace s ++ tr
    /\ _n_active_symbols s' = Z.of_nat (length (requested tr))
    /\ (mode s' = FAST <-> persisted_rows tr > _n_active_symbols s')
    /\ (mode s' = SLOW <-> persisted_rows tr <= _n_active_symbols s').
Proof.
  intros Hrun.
  destruct (run_once_steps w symbol_lst s (Ok tt) s' Hrun eq_refl)
    as (s1 & keys & s2 & n & s3 & H1 & H2 & H3 & ->).
  apply check_trading_status_spec in H1
    as (_ & Hm1 & _ & (tr1 & Htr1 & Hreq1 & Hrows1) & _).
  apply get_keys_spec in H2 as (-> & _).
  unfold load_from_keys in H3.
  apply load_loop_trace in H3 as (_ & Hn3 & Hm3 & tr3 & Htr3 & Hreq3 & _ & Hn).
  cbn in Htr1, Hm1, Hn3, Hm3, Htr3, Hn.
  exists (tr1 ++ tr3).
  assert (Hrows : persisted_rows (tr1 ++ tr3) = n)
    by (rewrite persisted_rows_app; lia).
  assert (Hreq : requested (tr1 ++ tr3) = keys)
    by (by rewrite requested_app, Hreq1, Hreq3).
  rewrite Hrows, Hreq.
  destruct (Z.gtb_spec n (_n_active_symbols s3)) as [Hgt|Hle].
  - cbn. rewrite Hn3, Htr3, Htr1, <- app_assoc.
    split; [done|]. split; [done|].
    split; [split; [intros _; lia|done]|].
    split; [discriminate|intros; lia].
  - rewrite Hn3, Hm3, Hm1, Htr3, Htr1, <- app_assoc. cbn.
    split; [done|]. split; [done|].
    split; [split; [discriminate|intros; lia]|].
    split; [intros _; lia|done].
Qed.

(** C10: when a cycle returns, the mode is [FAST] if and only if the
    rows persisted during the cycle exceed the cycle's active-symbol
    count, the number of bar requests of the cycle, and [SLOW]
    otherwise; when the mode is [FAST], the turn of the loop of
    [run_as_service] that ran the cycle sleeps the wait that
    [secrets.choice] draws among 1, 5, 1, 2, 3, 4 seconds, a wait
    between 1 and 5, and goes on to the next cycle; every wait from 1
    to 5 can be drawn. *)
Theorem run_once_pacing (w : World) (symbol_lst : list string) (s s' : Loader) :
  run_once w symbol_lst s = (Ok tt, s') ->
  exists tr,
    trace s' = trace s ++ tr
    /\ _n_active_symbols s' = Z.of_nat (length (requested tr))
    /\ (mode s' = FAST <-> persisted_rows tr > _n_active_symbols s')
    /\ (mode s' = SLOW <-> persisted_rows tr <= _n_active_symbols s')
    /\ (mode s' = FAST ->
        (forall k,
            exists t,
              waiting_time s' k = Ok t /\ 1 <= t <= 5
              /\ service_turn w symbol_lst k s
                 = (Ok true, emit (EvSleep t) s'))
        /\ (forall t, 1 <= t <= 5 -> exists k, waiting_time s' k = Ok t)).
Proof.
  intros Hrun.
  destruct (run_once_mode w symbol_lst s s' Hrun)
    as (tr & Htr & Hn & Hfast & Hslow).
  exists tr. do 4 (split; [done|]).
  intros Hmode. destruct (waiting_time_fast s' Hmode) as (Hdrawn & Hall).
  split; [|done].
  intros k. destruct (Hdrawn k) as (t & Ht & Hrange).
  exists t. split; [done|]. split; [done|].
  unfold service_turn. rewrite Hrun, Ht.
  destruct (Z.eqb_spec t 0) as [?|_]; [lia|].
  destruct (Z.ltb_spec t 0) as [?|_]; [lia|]. reflexivity.
Qed.

Lemma run_once_pacing_witness :
  exists tr,
    trace (run_once sample.xyz_world ["XYZ"] sample.loader_1h).2
    = trace sample.loader_1h ++ tr
    /\ _n_active_symbols (run_once sample.xyz_world ["XYZ"] sample.loader_1h).2
       = Z.of_nat (length (requested tr))
    /\ (mode (run_once sample.xyz_world ["XYZ"] sample.loader_1h).2 = FAST
        <-> persisted_rows tr
            > _n_active_symbols
                (run_once sample.xyz_world ["XYZ"] sample.loader_1h).2)
    /\ (mode (run_once sample.xyz_world ["XYZ"] sample.loader_1h).2 = SLOW
        <-> persisted_rows tr
            <= _n_active_symbols
                 (run_once sample.xyz_world ["XYZ"] sample.loader_1h).2)
    /\ (mode (run_once sample.xyz_world ["XYZ"] sample.loader_1h).2 = FAST ->
        (forall k,
            exists t,
              waiting_time
                (run_once sample.xyz_world ["XYZ"] sample.loader_1h).2 k
              = Ok t
              /\ 1 <= t <= 5
              /\ service_turn sample.xyz_world ["XYZ"] k sample.loader_1h
                 = (Ok true,
                    emit (EvSleep t)
                      (run_once sample.xyz_world ["XYZ"] sample.loader_1h).2))
        /\ (forall t,
               1 <= t <= 5 ->
               exists k,
                 waiting_time
                   (run_once sample.xyz_world ["XYZ"] sample.loader_1h).2 k
                 = Ok t)).
Proof.
  apply (run_once_pacing sample.xyz_world ["XYZ"] sample.loader_1h).
  vm_compute. reflexivity.
Defined.

Lemma set_active_columns (a : bool) (r : LatestRow) :
  row_latest_close (set_active a r) = row_latest_close r
  /\ row_active (set_active a r) = a
  /\ forall b, set_active b (set_active a r) = set_active b r.
Proof. by destruct r as [[[]]]. Qed.

(** The status update touches the [active] column only, and sets it for
    the symbols it names. *)
Lemma lookup_foldl_update_active (act : list (string * bool)) :
  forall (t : gmap string LatestRow) (k : string),
    match t !! k with
    | Some r =>
        exists r',
          foldl update_active_row t act !! k = Some r'
          /\ set_active true r' = set_active true r
          /\ (k ∈ act.*1 -> Forall (fun p => p.2 = true) act ->
              row_active r' = true)
          /\ (k ∉ act.*1 -> r' = r)
    | None => foldl update_active_row t act !! k = None
    end.
Proof.
  induction act as [|[k0 a0] act IH]; intros t k.
  - cbn. destruct (t !! k) as [r|]; [|done].
    exists r. repeat split; try done. by intros Hin%elem_of_nil.
  - cbn [foldl]. specialize (IH (update_active_row t (k0, a0)) k).
    unfold update_active_row at 1 in IH. cbn [fst snd] in IH.
    rewrite lookup_alter in IH.
    destruct (decide (k0 = k)) as [->|Hne].
    + destruct (t !! k) as [r|]; cbn [fmap option_fmap option_map] in IH;
        [|exact IH].
      destruct IH as (r' & Hr' & Hcols & Hact & Hsame).
      destruct (set_active_columns a0 r) as (Hlc & Ha & Hset).
      exists r'. split; [exact Hr'|]. split; [by rewrite Hcols, Hset|].
      split.
      * intros _ Hall. inversion Hall as [|? ? Ha0 Hall']; subst.
        cbn in Ha0. subst a0.
        destruct (decide (k ∈ act.*1)) as [Hin|Hnot]; [by apply Hact|].
        rewrite (Hsame Hnot). done.
      * intros Hnot. exfalso. apply Hnot. cbn. left.
    + destruct (t !! k) as [r|]; [|exact IH].
      destruct IH as (r' & Hr' & Hcols & Hact & Hsame).
      exists r'. split; [exact Hr'|]. split; [done|]. split.
      * intros Hin Hall. inversion Hall; subst.
        cbn in Hin. apply elem_of_cons in Hin as [->|Hin]; [done|].
        by apply Hact.
      * intros Hnot. apply Hsame. intros Hin. apply Hnot. cbn. by right.
Qed.

Lemma get_inactive_symbols_elem (tg : Target) (k : string) (r : LatestRow) :
  spot_latest (session tg) !! k = Some r -> row_active r = false ->
  k ∈ get_inactive_symbols tg.
Proof.
  intros Hk Ha. unfold get_inactive_symbols.
  apply list_elem_of_fmap. exists (k, r). split; [done|].
  apply list_elem_of_filter. split; [done|]. by apply elem_of_map_to_list.
Qed.

(** C5, as stated, fails: the checkpoint of [XYZ] is inactive, the
    provider reports [XYZ] tradable, and the same cycle requests the
    bars of [XYZ], from one hour after its checkpoint. *)
Lemma reinstated_symbol_requested_same_cycle :
  requested
    (trace (run_once sample.xyz_world ["XYZ"] sample.loader_xyz_inactive).2)
  = [("XYZ", sample.t0 + sample.hour)].
Proof. vm_compute. reflexivity. Qed.

Lemma set_active_self (r : LatestRow) : set_active (row_active r) r = r.
Proof. by destruct r as [[[]]]. Qed.

(** C5, as the code has it: when a cycle returns, every symbol whose
    checkpoint was inactive and that the provider reports tradable has
    had its [active] flag set to [True] by the reconciliation step,
    committed before the fetch plan is computed, and is part of the
    fetch plan of that same cycle: its bars are requested from one
    interval after its [latest_close]. *)
Theorem reinstated_symbol_same_cycle (w : World) (symbol_lst : list string)
    (s s' : Loader) (sym : string) (row : LatestRow)
    (assets : list (string * bool)) :
  run_once w symbol_lst s = (Ok tt, s') ->
  spot_latest (session (_target s)) !! sym = Some row ->
  row_active row = false ->
  all_assets w = Ok assets ->
  (sym, true) ∈ assets ->
  exists s1 start tr,
    check_trading_status w (set_mode SLOW s) = (Ok tt, s1)
    /\ spot_latest (durable (_target s1)) !! sym = Some (set_active true row)
    /\ durable (_target s1) = session (_target s1)
    /\ get_next_interval (_interval s) (row_latest_close row) = Ok start
    /\ trace s' = trace s ++ tr
    /\ (sym, start) ∈ requested tr.
Proof.
  intros Hrun Hrow Hinactive Hassets Htradable.
  destruct (run_once_steps w symbol_lst s (Ok tt) s' Hrun eq_refl)
    as (s1 & keys & s2 & n & s3 & H1 & H2 & H3 & ->).
  assert (Hin : sym ∈ get_inactive_symbols (_target (set_mode SLOW s)))
    by (by apply (get_inactive_symbols_elem _ sym row)).
  assert (Hstatus :
            get_trading_status w (get_inactive_symbols (_target (set_mode SLOW s)))
            = Ok (Some (filter
                          (fun a => a.1 ∈ get_inactive_symbols
                                            (_target (set_mode SLOW s)))
                          assets))).
  { unfold get_trading_status. rewrite Hassets.
    destruct (get_inactive_symbols (_target (set_mode SLOW s))); [|done].
    by apply elem_of_nil in Hin. }
  assert (Hact : (sym, true)
                 ∈ filter (fun p : string * bool => p.2 = true)
                     (filter
                        (fun a => a.1 ∈ get_inactive_symbols
                                          (_target (set_mode SLOW s)))
                        assets)).
  { apply list_elem_of_filter. split; [done|].
    apply list_elem_of_filter. by split. }
  pose proof (check_trading_status_spec _ _ _ _ H1)
    as ((Hint1 & _) & _ & _ & (tr1 & Htr1 & Hreq1 & _) & Htables).
  destruct Htables as [(_ & Hnone)|(status & _ & Hst & _ & Hses & Hdur)].
  { rewrite (Hnone _ eq_refl Hstatus) in Hact. by apply elem_of_nil in Hact. }
  rewrite Hstatus in Hst. injection Hst as <-.
  assert (Hrow1 : spot_latest (session (_target s1)) !! sym
                  = Some (set_active true row)).
  { rewrite Hses. cbn [spot_latest].
    pose proof (lookup_foldl_update_active
                  (filter (fun p : string * bool => p.2 = true)
                     (filter
                        (fun a => a.1 ∈ get_inactive_symbols
                                          (_target (set_mode SLOW s)))
                        assets))
                  (spot_latest (session (_target (set_mode SLOW s)))) sym)
      as Hlook.
    cbn [set_mode _target] in Hlook. rewrite Hrow in Hlook.
    destruct Hlook as (r' & Hr' & Hcols & Htrue & _).
    cbn [set_mode _target]. rewrite Hr'. f_equal.
    rewrite <- Hcols, <- (set_active_self r') at 1. f_equal.
    apply Htrue.
    - apply list_elem_of_fmap. by exists (sym, true).
    - apply Forall_forall. by intros p [Hp _]%list_elem_of_filter. }
  pose proof (get_keys_spec _ _ _ _ H2) as (-> & _ & Hactive & _).
  destruct (Hactive sym (set_active true row) Hrow1) as (start & Hkey & Hstart).
  { by destruct row as [[[]]]. }
  unfold load_from_keys in H3.
  apply load_loop_trace in H3 as (_ & _ & _ & tr3 & Htr3 & Hreq3 & _).
  exists s1, start, (tr1 ++ tr3). split; [done|].
  split; [by rewrite Hdur|]. split; [done|]. split.
  { rewrite <- Hstart, Hint1. cbn [set_mode _interval]. f_equal.
    by destruct row as [[[]]]. }
  split.
  - assert (Htrace : trace s3 = trace s ++ tr1 ++ tr3).
    { rewrite Htr3. cbn [set_n_active_symbols trace]. rewrite Htr1.
      cbn [set_mode trace]. by rewrite <- app_assoc. }
    by destruct (n >? _n_active_symbols s3).
  - rewrite requested_app, Hreq1, Hreq3. done.
Qed.

Lemma reinstated_symbol_same_cycle_witness :
  exists s1 start tr,
    check_trading_status sample.xyz_world
      (set_mode SLOW sample.loader_xyz_inactive) = (Ok tt, s1)
    /\ spot_latest (durable (_target s1)) !! "XYZ"
       = Some (set_active true (1, sample.t0, false, "ALPACA"))
    /\ durable (_target s1) = session (_target s1)
    /\ get_next_interval "1h" sample.t0 = Ok start
    /\ trace (run_once sample.xyz_world ["XYZ"] sample.loader_xyz_inactive).2
       = trace sample.loader_xyz_inactive ++ tr
    /\ ("XYZ", start) ∈ requested tr.
Proof.
  apply (reinstated_symbol_same_cycle sample.xyz_world ["XYZ"]
           sample.loader_xyz_inactive
           (run_once sample.xyz_world ["XYZ"] sample.loader_xyz_inactive).2
           "XYZ" (1, sample.t0, false, "ALPACA") [("XYZ", true)]).
  - vm_compute. reflexivity.
  - vm_compute. reflexivity.
  - reflexivity.
  - reflexivity.
  - apply list_elem_of_singleton. reflexivity.
Defined.

(** ** Monotone checkpoints *)





Lemma index_elem {A} (l : list A) (i : Z) (a : A) : index l i = Ok a -> a ∈ l.
Proof.
  unfold index.
  destruct ((0 <=? (if i <? 0 then i + Z.of_nat (length l) else i))
            && ((if i <? 0 then i + Z.of_nat (length l) else i)
                <? Z.of_nat (length l))); [|discriminate].
  destruct (l !! Z.to_nat (if i <? 0 then i + Z.of_nat (length l) else i))
    eqn:Hl; [|discriminate].
  intros [= <-]. by eapply list_elem_of_lookup_2.
Qed.

Lemma latest_closed_from_records (now : Z) (s : Loader) (sym : string)
    (recs : list BarRecord) (c : Latest) :
  latest_closed now s sym recs = Ok (Some c) ->
  latest.symbol c = sym
  /\ exists rec, rec ∈ recs /\ latest_close c = open_time rec.
Proof.
  unfold latest_closed.
  destruct (1 <? Z.of_nat (length recs)).
  - destruct (index recs (-2)) as [r|] eqn:Hr; [|discriminate].
    cbn. intros [= <-]. split; [done|]. exists r. split; [|done].
    by apply index_elem in Hr.
  - destruct (index recs 0) as [r|] eqn:Hr; [|discriminate].
    cbn [mbind result_bind bind].
    destruct (check_active now (_interval s) (open_time r)) as [[]|];
      cbn; try discriminate.
    intros [= <-]. split; [done|]. exists r. split; [|done].
    by apply index_elem in Hr.
Qed.












(** * Further properties *)

(** ** Credentials *)

Lemma split_length (sep : ascii) (s : string) :
  length (connection.split sep s) = S (connection.occurrences sep s).
Proof.
  induction s as [|c r IH]; [done|].
  cbn [connection.split connection.occurrences].
  destruct (Ascii.eqb c sep); cbn [length]; [by rewrite IH|].
  destruct (connection.split sep r) as [|q qs]; [done|].
  cbn [length] in *. lia.
Qed.

Lemma split_free (sep : ascii) (s : string) :
  connection.occurrences sep s = 0%nat -> connection.split sep s = [s].
Proof.
  induction s as [|c r IH]; [done|].
  cbn [connection.split connection.occurrences].
  destruct (Ascii.eqb c sep); [discriminate|].
  intros Hr. by rewrite (IH Hr).
Qed.

Lemma split_app (sep : ascii) (a b : string) :
  connection.occurrences sep a = 0%nat ->
  connection.split sep (a ++ String sep b)%string
  = a :: connection.split sep b.
Proof.
  induction a as [|c r IH].
  - intros _. change (EmptyString ++ String sep b)%string with (String sep b).
    cbn [connection.split]. by rewrite Ascii.eqb_refl.
  - cbn [connection.occurrences].
    change (String c r ++ String sep b)%string
      with (String c (r ++ String sep b)%string).
    cbn [connection.split].
    destruct (Ascii.eqb c sep); [discriminate|].
    intros Hr. by rewrite (IH Hr).
Qed.

Lemma occurrences_app (c : ascii) (a b : string) :
  connection.occurrences c (a ++ b)%string
  = (connection.occurrences c a + connection.occurrences c b)%nat.
Proof.
  induction a as [|c' r IH]; [done|].
  change (String c' r ++ b)%string with (String c' (r ++ b)%string).
  cbn [connection.occurrences]. rewrite IH. lia.
Qed.

Lemma dict_of_pairs (parts : list (list string)) :
  forall d d' : gmap string string,
    connection.dict_of parts d = Ok d' ->
    Forall (fun p => length p = 2%nat) parts.
Proof.
  induction parts as [|p parts IH]; intros d d' Hd; [constructor|].
  destruct p as [|k [|v [|x p]]]; try discriminate.
  cbn [connection.dict_of] in Hd. constructor; [done|]. by eapply IH.
Qed.

(** X1: a connection string [API_KEY=<key> SECRET_KEY=<secret>] whose
    key and secret hold neither a space nor an equals sign gives back
    that key and that secret. *)
Theorem init_round_trip (api secret : string) :
  connection.occurrences " " api = 0%nat ->
  connection.occurrences "=" api = 0%nat ->
  connection.occurrences " " secret = 0%nat ->
  connection.occurrences "=" secret = 0%nat ->
  connection.init
    (("API_KEY=" ++ api) ++ String " " ("SECRET_KEY=" ++ secret))%string
  = Ok (connection.mkCredentials api secret).
Proof.
  intros Hsa Hea Hss Hes.
  unfold connection.init, connection._parse_connection_string.
  rewrite split_app by (rewrite occurrences_app, Hsa; reflexivity).
  rewrite split_free by (rewrite occurrences_app, Hss; reflexivity).
  cbn [fmap list_fmap].
  change ("API_KEY=" ++ api)%string with ("API_KEY" ++ String "=" api)%string.
  change ("SECRET_KEY=" ++ secret)%string
    with ("SECRET_KEY" ++ String "=" secret)%string.
  rewrite !split_app by reflexivity.
  rewrite !split_free by done.
  cbn [connection.dict_of mbind result_bind bind].
  unfold connection.getitem.
  rewrite (lookup_insert_ne _ "SECRET_KEY" "API_KEY")
    by (intros Heq; discriminate Heq).
  rewrite lookup_insert_eq.
  cbn [mbind result_bind bind]. rewrite lookup_insert_eq. reflexivity.
Qed.

Lemma init_round_trip_witness :
  connection.init "API_KEY=PK123 SECRET_KEY=s3cr3t"
  = Ok (connection.mkCredentials "PK123" "s3cr3t").
Proof.
  apply (init_round_trip "PK123" "s3cr3t"); reflexivity.
Defined.

(** X2: [__init__] returns only if every part of the connection string
    between two spaces holds exactly one equals sign, and then the key
    and the secret are the values the parsed dictionary has under
    [API_KEY] and [SECRET_KEY]; so a doubled space, or a secret with an
    equals sign in it, makes it raise. *)
Theorem init_well_formed (connection_string : string)
    (c : connection.Credentials) :
  connection.init connection_string = Ok c ->
  Forall (fun part => connection.occurrences "=" part = 1%nat)
    (connection.split " " connection_string)
  /\ exists d,
      connection._parse_connection_string connection_string = Ok d
      /\ d !! "API_KEY" = Some (connection._api_key c)
      /\ d !! "SECRET_KEY" = Some (connection._secret_key c).
Proof.
  unfold connection.init.
  destruct (connection._parse_connection_string connection_string)
    as [d|e] eqn:Hd; [|discriminate].
  cbn [mbind result_bind bind]. unfold connection.getitem.
  destruct (d !! "API_KEY") as [a|] eqn:Ha; [|discriminate].
  cbn [mbind result_bind bind].
  destruct (d !! "SECRET_KEY") as [b|] eqn:Hb; [|discriminate].
  cbn [mbind result_bind bind]. intros [= <-]. split; [|by exists d].
  unfold connection._parse_connection_string in Hd.
  apply dict_of_pairs in Hd. rewrite Forall_fmap in Hd.
  eapply Forall_impl; [exact Hd|].
  intros part Hlen. cbn in Hlen. rewrite split_length in Hlen. lia.
Qed.

Lemma init_well_formed_witness :
  Forall (fun part => connection.occurrences "=" part = 1%nat)
    (connection.split " " "SECRET_KEY=s3cr3t API_KEY=PK123").
Proof.
  apply (init_well_formed "SECRET_KEY=s3cr3t API_KEY=PK123"
           (connection.mkCredentials "PK123" "s3cr3t")).
  vm_compute. reflexivity.
Defined.

(** ** Interval arithmetic, continued *)

(** X3: for every integer [n] and unit, the boundary after [t] for the
    interval [<n><unit>] is [t] plus [n] times the seconds of the
    unit, exactly; the only way not to return is an [OverflowError],
    raised when the duration does not fit a [timedelta] or the boundary
    is not a [datetime]. *)
Theorem get_next_interval_specifier (n : Z) (unit : ascii) (k : Z) (t : Z) :
  SECONDS_PER_UNIT unit = Ok k ->
  get_next_interval (specifier n unit) t
  = if timedelta_in_range (n * k * US_PER_SECOND)
       && (datetime_min <=? t + n * k * US_PER_SECOND)
       && (t + n * k * US_PER_SECOND <=? datetime_max)
    then Ok (t + n * k * US_PER_SECOND)
    else Raise OverflowError.
Proof.
  intros Hk. unfold get_next_interval, parse_interval_to_timedelta.
  rewrite all_but_last_specifier, int_of_str_of_int, last_char_specifier.
  cbn [mbind result_bind bind]. rewrite Hk. cbn [mbind result_bind bind].
  unfold timedelta_seconds, timedelta_of, datetime_add.
  destruct (timedelta_in_range (n * k * US_PER_SECOND));
    cbn [mbind result_bind bind andb]; [|reflexivity].
  destruct ((datetime_min <=? t + n * k * US_PER_SECOND)
            && (t + n * k * US_PER_SECOND <=? datetime_max)) eqn:Hr;
    rewrite andb_true_l in * || idtac; reflexivity.
Qed.

Lemma get_next_interval_specifier_witness :
  get_next_interval (specifier 4 "h") sample.t0
  = Ok (sample.t0 + 4 * 3600 * US_PER_SECOND).
Proof.
  apply (get_next_interval_specifier 4 "h" 3600 sample.t0). reflexivity.
Defined.

(** X4: the amount and the unit that [interval_to_timeframe] hands to
    [TimeFrame] are read off the interval the way
    [parse_interval_to_timedelta] reads its value and its unit:
    whatever exception the reading raises in one it raises in the
    other, and when the timeframe is asked for [amount] units the
    duration is [amount] times the seconds of the unit, unless that
    overflows a [timedelta]. *)
Theorem timeframe_agrees_with_timedelta (interval : string) :
  (forall e, interval_to_timeframe interval = Raise e ->
             parse_interval_to_timedelta interval = Raise e)
  /\ (forall amount unit,
         interval_to_timeframe interval = Ok (amount, unit) ->
         exists k, SECONDS_PER_UNIT unit = Ok k /\ 0 < k
                   /\ parse_interval_to_timedelta interval
                      = timedelta_seconds (amount * k))
  /\ (forall td,
         parse_interval_to_timedelta interval = Ok td ->
         exists amount unit,
           interval_to_timeframe interval = Ok (amount, unit)).
Proof.
  unfold interval_to_timeframe, parse_interval_to_timedelta.
  destruct (int_of_str (all_but_last interval)) as [v|e0];
    cbn [mbind result_bind bind].
  2:{ repeat split; [by intros e [= <-]|discriminate|discriminate]. }
  destruct (last_char interval) as [c|e0]; cbn [mbind result_bind bind].
  2:{ repeat split; [by intros e [= <-]|discriminate|discriminate]. }
  unfold units_to_timeframe.
  destruct (decide (c ∈ units)) as [Hin|Hnot].
  - destruct (proj1 (SECONDS_PER_UNIT_units c) Hin) as (k & Hk & Hpos).
    assert (Hc : Ascii.eqb c "m" || Ascii.eqb c "h" || Ascii.eqb c "d"
                 || Ascii.eqb c "w" = true).
    { unfold units in Hin.
      repeat (apply elem_of_cons in Hin as [->|Hin]); try reflexivity.
      by apply elem_of_nil in Hin. }
    rewrite Hc, Hk. cbn [mbind result_bind bind].
    repeat split; [discriminate| |by eexists _, _].
    intros amount unit [= <- <-]. by exists k.
  - pose proof (proj2 (SECONDS_PER_UNIT_units c) Hnot) as Hk.
    assert (Hc : Ascii.eqb c "m" || Ascii.eqb c "h" || Ascii.eqb c "d"
                 || Ascii.eqb c "w" = false).
    { apply not_true_is_false. intros Htrue. apply Hnot. unfold units.
      repeat (apply orb_prop in Htrue as [Htrue|Htrue]);
        apply Ascii.eqb_eq in Htrue; subst c; set_solver. }
    rewrite Hc, Hk. cbn [mbind result_bind bind].
    repeat split; [by intros e [= <-]|discriminate|discriminate].
Qed.

(** X5: [get_bars] never raises [KeyError] nor [APIError]: it returns
    [None] in their place. An interval whose prefix is an integer and
    whose suffix is no unit therefore makes it return [None] for every
    symbol, without a request; a prefix that is no integer makes it
    raise [ValueError]. *)
Theorem get_bars_errors (w : World) (sym interval : string) (start_time : Z) :
  (forall e, get_bars w sym interval start_time = Raise e ->
             e <> KeyError /\ e <> APIError)
  /\ (interval_to_timeframe interval = Raise KeyError ->
      get_bars w sym interval start_time = Ok None)
  /\ (forall e, int_of_str (all_but_last interval) = Raise e ->
                get_bars w sym interval start_time = Raise ValueError).
Proof.
  unfold get_bars. repeat split.
  - destruct (interval_to_timeframe interval) as [tf|e0];
      cbn [mbind result_bind bind] in *.
    + destruct (stock_bars w tf sym start_time) as [bars|[]]; congruence.
    + destruct e0; congruence.
  - destruct (interval_to_timeframe interval) as [tf|e0];
      cbn [mbind result_bind bind] in *.
    + destruct (stock_bars w tf sym start_time) as [bars|[]]; congruence.
    + destruct e0; congruence.
  - intros ->. reflexivity.
  - intros e He.
    unfold interval_to_timeframe.
    assert (Hv : int_of_str (all_but_last interval) = Raise ValueError).
    { unfold int_of_str in *.
      destruct (strip (list_ascii_of_string (all_but_last interval)))
        as [|c r]; cbn in *; [congruence|].
      destruct (Ascii.eqb c "-"), (Ascii.eqb c "+");
        match type of He with
        | context [scan_number ?x] => destruct (scan_number x)
        end; congruence. }
    rewrite Hv. reflexivity.
Qed.

Lemma timeframe_agrees_with_timedelta_witness :
  exists k, SECONDS_PER_UNIT "m" = Ok k /\ 0 < k
            /\ parse_interval_to_timedelta "15m" = timedelta_seconds (15 * k).
Proof.
  apply (proj1 (proj2 (timeframe_agrees_with_timedelta "15m")) 15 "m"%char).
  reflexivity.
Defined.

Lemma get_bars_errors_witness :
  get_bars sample.xyz_world "XYZ" "5x" sample.t0 = Ok None.
Proof.
  apply (proj1 (proj2 (get_bars_errors sample.xyz_world "XYZ" "5x" sample.t0))).
  reflexivity.
Defined.

(** ** The provider's trading status *)

(** X6: [get_trading_status] answers with exactly the provider's
    assets whose symbol was asked for, in the provider's order, so with
    nothing when no symbol is asked for; it answers [None] exactly when
    the provider fails with an [APIError], and raises on no other
    occasion than a failure of the provider of another kind. *)
Theorem get_trading_status_answer (w : World) (symbols : list string) :
  (forall status,
      get_trading_status w symbols = Ok (Some status) ->
      exists assets,
        all_assets w = Ok assets
        /\ status = filter (fun a => a.1 ∈ symbols) assets)
  /\ (get_trading_status w symbols = Ok None
      <-> all_assets w = Raise APIError)
  /\ (forall e, get_trading_status w symbols = Raise e ->
                all_assets w = Raise e /\ e <> APIError).
Proof.
  unfold get_trading_status.
  destruct (all_assets w) as [assets|e0]; repeat split.
  - intros status [= <-]. exists assets. split; [done|].
    destruct symbols as [|x symbols]; [|done].
    induction assets as [|a assets IH]; [done|].
    rewrite filter_cons. destruct (decide (a.1 ∈ [])) as [Hin|_]; [|done].
    by apply elem_of_nil in Hin.
  - discriminate.
  - discriminate.
  - discriminate.
  - discriminate.
  - destruct e0; discriminate.
  - destruct e0; try discriminate. done.
  - intros [= ->]. reflexivity.
  - destruct e0; congruence.
  - destruct e0; congruence.
Qed.

Lemma get_trading_status_answer_witness :
  exists assets,
    all_assets sample.xyz_world = Ok assets
    /\ [("XYZ", true)] = filter (fun a => a.1 ∈ ["XYZ"; "ABC"]) assets.
Proof.
  apply (proj1 (get_trading_status_answer sample.xyz_world ["XYZ"; "ABC"])).
  reflexivity.
Defined.

(** ** The request budget *)

Lemma check_request_limit_step (s : Loader) :
  (n_requests s + 1 < 800 ->
   n_requests (check_request_limit s).2 = n_requests s + 1
   /\ trace (check_request_limit s).2 = trace s)
  /\ (800 <= n_requests s + 1 ->
      n_requests (check_request_limit s).2 = 1
      /\ trace (check_request_limit s).2 = trace s ++ [EvSleep 60]).
Proof.
  unfold check_request_limit. run_monad.
  destruct (Z.geb_spec (n_requests s + 1) 800); cbn; split; intros; try lia;
    split; try reflexivity.
Qed.

Lemma check_request_limit_times_quiet (j : nat) :
  forall s : Loader,
    n_requests s + Z.of_nat j < 800 ->
    n_requests (check_request_limit_times j s) = n_requests s + Z.of_nat j
    /\ trace (check_request_limit_times j s) = trace s.
Proof.
  induction j as [|j IH]; intros s Hj.
  - cbn. split; [lia|done].
  - cbn [check_request_limit_times].
    destruct (proj1 (check_request_limit_step s)) as (Hn & Htr); [lia|].
    destruct (IH (check_request_limit s).2) as (Hn' & Htr'); [lia|].
    rewrite Hn', Htr', Hn, Htr. split; [lia|done].
Qed.

Lemma check_request_limit_times_succ (m : nat) :
  forall s : Loader,
    check_request_limit_times (S m) s
    = (check_request_limit (check_request_limit_times m s)).2.
Proof.
  induction m as [|m IH]; intros s; [done|].
  change (check_request_limit_times (S (S m)) s)
    with (check_request_limit_times (S m) (check_request_limit s).2).
  by rewrite IH.
Qed.

(** X7: the request counter stays between 1 and 799 whatever the number
    of calls; after a pause of 60 seconds has reset it to 1, the next
    798 calls of [check_request_limit] pass without a pause and the
    799th pauses and resets the counter again. *)
Theorem check_request_limit_window (s : Loader) (m : nat) :
  1 <= n_requests s <= 799 ->
  1 <= n_requests (check_request_limit_times m s) <= 799
  /\ (n_requests s = 1 ->
      trace (check_request_limit_times 798 s) = trace s
      /\ n_requests (check_request_limit_times 798 s) = 799
      /\ trace (check_request_limit_times 799 s) = trace s ++ [EvSleep 60]
      /\ n_requests (check_request_limit_times 799 s) = 1).
Proof.
  intros Hs. split.
  - revert s Hs. induction m as [|m IH]; intros s Hs; [done|].
    cbn [check_request_limit_times]. apply IH.
    destruct (check_request_limit_step s) as (Hlt & Hge).
    destruct (Z_lt_le_dec (n_requests s + 1) 800) as [H|H].
    + destruct (Hlt H) as (-> & _). lia.
    + destruct (Hge H) as (-> & _). lia.
  - intros H1.
    destruct (check_request_limit_times_quiet 798 s) as (Hn & Htr); [lia|].
    split; [done|]. split; [lia|].
    rewrite (check_request_limit_times_succ 798 s).
    destruct (proj2 (check_request_limit_step (check_request_limit_times 798 s)))
      as (Hn' & Htr'); [lia|].
    by rewrite Htr', Htr, Hn'.
Qed.

Lemma check_request_limit_window_witness :
  1 <= n_requests (check_request_limit_times 5 sample.loader_1h) <= 799.
Proof.
  apply (check_request_limit_window sample.loader_1h 5).
  vm_compute. split; discriminate.
Defined.

(** ** Records, continued *)

(** X8: [build_record] returns exactly when the bar has a [vwap] and a
    [trade_count] that is a number, whatever its prices and volume,
    which may be infinite or not a number; it then copies the id, the
    symbol and the timestamp and truncates the trade count. A missing
    [vwap] or [trade_count] is a [TypeError]. *)
Theorem build_record_returns (id : Z) (bar : Bar) :
  ((exists r, bar_record.build_record id bar = Ok r)
   <-> exists w c, bar_vwap bar = Some w /\ bar_trade_count bar = Some c
                   /\ is_number c = true)
  /\ (forall r,
         bar_record.build_record id bar = Ok r ->
         bar_record.id r = id
         /\ bar_record.symbol r = bar_symbol bar
         /\ open_time r = bar_timestamp bar
         /\ int_of_optional (bar_trade_count bar) = Ok (trades r))
  /\ (bar_vwap bar = None \/ bar_trade_count bar = None ->
      bar_record.build_record id bar = Raise TypeError).
Proof.
  unfold bar_record.build_record, volume_times_vwap, of_optional.
  destruct (bar_vwap bar) as [w|]; cbn [mbind result_bind bind].
  2:{ repeat split; try discriminate; try done.
      - by intros (r & Hr).
      - by intros (w & c & Hw & _). }
  destruct (bar_trade_count bar) as [c|]; cbn [int_of_optional mbind result_bind bind].
  2:{ repeat split; try discriminate; try done.
      - by intros (r & Hr).
      - by intros (w' & c & _ & Hc & _). }
  destruct c as [sg|sg| |sg m e]; cbn [int_of_float mbind result_bind bind];
    repeat split; try discriminate;
    try (intros (r & Hr); discriminate);
    try (intros (w' & c & _ & [= <-] & Hc); discriminate);
    try (by intros [|]);
    try (by intros r [= <-]);
    try (by intros _; eexists);
    try (by intros _; eexists _, _);
    try match goal with
        | H : Ok _ = Ok _ |- _ => by injection H as <-
        end.
Qed.

Lemma build_record_returns_witness :
  exists r, bar_record.build_record 7 (sample.bar_at "XYZ" sample.t0) = Ok r.
Proof.
  apply (proj2 (proj1 (build_record_returns 7 (sample.bar_at "XYZ" sample.t0)))).
  eexists _, _. repeat split; vm_compute; reflexivity.
Defined.

Lemma build_record_copies (id : Z) (bar : Bar) (r : BarRecord) :
  bar_record.build_record id bar = Ok r ->
  bar_record.id r = id /\ bar_record.symbol r = bar_symbol bar
  /\ open_time r = bar_timestamp bar.
Proof.
  unfold bar_record.build_record.
  destruct (volume_times_vwap bar); [|discriminate]. cbn [mbind result_bind bind].
  destruct (of_optional (bar_vwap bar)); [|discriminate].
  cbn [mbind result_bind bind].
  destruct (int_of_optional (bar_trade_count bar)); [|discriminate].
  cbn [mbind result_bind bind]. by intros [= <-].
Qed.

Lemma build_records_zip (bars : list Bar) :
  forall (ids : list Z) (recs : list BarRecord),
    build_records bars ids = Ok recs ->
    length recs = Nat.min (length bars) (length ids)
    /\ bar_record.id <$> recs = take (length recs) ids
    /\ open_time <$> recs = take (length recs) (bar_timestamp <$> bars)
    /\ bar_record.symbol <$> recs = take (length recs) (bar_symbol <$> bars).
Proof.
  unfold build_records.
  induction bars as [|b bars IH]; intros ids recs Hrecs.
  - cbn in Hrecs. injection Hrecs as <-. done.
  - destruct ids as [|i ids].
    + cbn in Hrecs. injection Hrecs as <-. done.
    + cbn in Hrecs.
      destruct (bar_record.build_record i b) as [r|] eqn:Hr; [|discriminate].
      cbn in Hrecs.
      destruct (mapM (fun p : Bar * Z => bar_record.build_record p.2 p.1)
                  (zip bars ids)) as [rs|] eqn:Hrs; [|discriminate].
      cbn in Hrecs. injection Hrecs as <-.
      destruct (IH ids rs Hrs) as (Hlen & Hids & Hts & Hsym).
      destruct (build_record_copies i b r Hr) as (Hid & Hs & Ht).
      cbn [length fmap list_fmap take]. rewrite Hlen at 1.
      rewrite Hid, Hs, Ht. cbn [fmap list_fmap] in *.
      by rewrite <- Hids, <- Hts, <- Hsym.
Qed.

(** X9: the records built for the bars of one fetch carry the ids the
    store hands out for them, consecutive from the store's sequence, in
    the order of the bars, each with the symbol and the timestamp of its
    bar; the sequence moves past them and the tables stay as they are.
    Were fewer ids handed out than there are bars, the bars beyond the
    ids would be dropped without an error. *)
Theorem records_carry_consecutive_ids (bars : list Bar) (tg : Target)
    (recs : list BarRecord) :
  build_records bars (get_next_ids (length bars) tg).1 = Ok recs ->
  length recs = length bars
  /\ bar_record.id <$> recs
     = (fun i => sequence tg + Z.of_nat i) <$> seq 0 (length bars)
  /\ open_time <$> recs = bar_timestamp <$> bars
  /\ bar_record.symbol <$> recs = bar_symbol <$> bars
  /\ sequence (get_next_ids (length bars) tg).2
     = sequence tg + Z.of_nat (length bars)
  /\ session (get_next_ids (length bars) tg).2 = session tg
  /\ durable (get_next_ids (length bars) tg).2 = durable tg
  /\ forall ids recs',
      build_records bars ids = Ok recs' ->
      length recs' = Nat.min (length bars) (length ids).
Proof.
  intros Hrecs.
  destruct (build_records_zip _ _ _ Hrecs) as (Hlen & Hids & Hts & Hsym).
  cbn [get_next_ids fst snd] in *.
  rewrite length_fmap, length_seq, Nat.min_id in Hlen.
  rewrite Hlen in Hids, Hts, Hsym.
  rewrite take_ge in Hids by (by rewrite length_fmap, length_seq).
  rewrite take_ge in Hts by (by rewrite length_fmap).
  rewrite take_ge in Hsym by (by rewrite length_fmap).
  repeat split; try done.
  intros ids recs' Hrecs'. by apply build_records_zip in Hrecs' as (? & _).
Qed.

Lemma records_carry_consecutive_ids_witness :
  exists recs,
    build_records
      [sample.bar_at "XYZ" sample.t0;
       sample.bar_at "XYZ" (sample.t0 + sample.hour)]
      (get_next_ids 2 sample.empty_target).1 = Ok recs
    /\ length recs = 2%nat.
Proof.
  eexists. split; [vm_compute; reflexivity|].
  eapply (records_carry_consecutive_ids
            [sample.bar_at "XYZ" sample.t0;
             sample.bar_at "XYZ" (sample.t0 + sample.hour)]
            sample.empty_target).
  vm_compute. reflexivity.
Defined.

(** X10: a checkpoint that [latest_closed] returns carries the symbol
    it was asked for and the loader's source name, and the id and the
    open timestamp of one of the records it was given; its [active]
    flag is [True] exactly when more than one record was given. *)
Theorem latest_closed_provenance (now : Z) (s : Loader) (sym : string)
    (recs : list BarRecord) (c : Latest) :
  latest_closed now s sym recs = Ok (Some c) ->
  latest.symbol c = sym /\ latest.source c = source_name s
  /\ (exists rec, rec ∈ recs /\ latest.id c = bar_record.id rec
                  /\ latest_close c = open_time rec)
  /\ (latest.active c = true <-> (2 <= length recs)%nat).
Proof.
  unfold latest_closed.
  destruct (Z.ltb_spec 1 (Z.of_nat (length recs))) as [Hlen|Hlen].
  - destruct (index recs (-2)) as [r|] eqn:Hr; [|discriminate].
    cbn. intros [= <-]. cbn. repeat split; try done; try lia.
    exists r. split; [|done]. by apply index_elem in Hr.
  - destruct (index recs 0) as [r|] eqn:Hr; [|discriminate].
    cbn [mbind result_bind bind].
    destruct (check_active now (_interval s) (open_time r)) as [[]|];
      cbn; try discriminate.
    intros [= <-]. cbn. repeat split; try done; try lia.
    exists r. split; [|done]. by apply index_elem in Hr.
Qed.

Lemma latest_closed_provenance_witness :
  latest.symbol (mkLatest "XYZ" 1 sample.t0 false "ALPACA") = "XYZ".
Proof.
  apply (latest_closed_provenance (sample.t0 + 2 * sample.hour)
           sample.loader_1h "XYZ" [sample.record_at 1 sample.t0]
           (mkLatest "XYZ" 1 sample.t0 false "ALPACA")).
  vm_compute. reflexivity.
Defined.

(** ** The fetch plan, continued *)

Lemma earliest_key_value (sym : string) :
  earliest_key sym = Ok (sym, datetime_min + US_PER_DAY).
Proof. vm_compute. reflexivity. Qed.

(** The plan is the keys of the active checkpoints followed by the keys
    of the new symbols, which start one day after [datetime.min]. *)
Lemma get_keys_shape (symbol_lst : list string) (s : Loader)
    (keys : list (string * Z)) (s' : Loader) :
  get_keys symbol_lst s = (Ok keys, s') ->
  exists active_keys,
    keys
    = active_keys
      ++ ((fun sym => (sym, datetime_min + US_PER_DAY))
            <$> (match get_latest (_target s) with
                 | [] => symbol_lst
                 | _ => new_symbols_of symbol_lst (get_latest (_target s))
                 end))
    /\ (get_latest (_target s) = [] -> active_keys = [])
    /\ NoDup active_keys.*1
    /\ (forall x, x ∈ active_keys.*1 -> x ∈ (get_latest (_target s)).*1.*1).
Proof.
  unfold get_keys. run_monad.
  destruct (get_latest (_target s)) as [|p latest] eqn:Hlatest.
  - rewrite (mapM_result_total earliest_key
               (fun sym => (sym, datetime_min + US_PER_DAY)) symbol_lst
               earliest_key_value).
    intros [= <- <-]. exists []. split; [done|]. split; [done|].
    split; [constructor|]. by intros x Hx%elem_of_nil.
  - rewrite <- Hlatest.
    destruct (mapM (active_key (_interval s)) (get_latest (_target s)))
      as [ks|e] eqn:Hks; cbn; [|discriminate].
    rewrite Hlatest at 1. cbn iota. rewrite <- Hlatest.
    rewrite (mapM_result_total earliest_key
               (fun sym => (sym, datetime_min + US_PER_DAY)) _
               earliest_key_value).
    intros [= <- <-]. exists (mjoin ks).
    apply mapM_result_Forall2 in Hks.
    destruct (active_keys_spec _ _ _ Hks) as (_ & Hnodup & Hsub).
    assert (Hnd : NoDup (mjoin ks).*1).
    { apply Hnodup. rewrite get_latest_symbols. apply NoDup_fst_map_to_list. }
    rewrite Hlatest in *. cbn iota. split; [reflexivity|].
    split; [discriminate|]. by split.
Qed.

(** X11: [get_keys] never plans a fetch for a symbol whose checkpoint
    is inactive, whether the symbol is listed or not. *)
Theorem get_keys_skips_inactive (symbol_lst : list string) (s : Loader)
    (keys : list (string * Z)) (s' : Loader) (sym : string) (row : LatestRow) :
  get_keys symbol_lst s = (Ok keys, s') ->
  spot_latest (session (_target s)) !! sym = Some row ->
  row_active row = false ->
  sym ∉ keys.*1.
Proof.
  intros Hkeys Hrow Hact Hin.
  apply get_keys_spec in Hkeys as (_ & Hmem & _).
  apply list_elem_of_fmap in Hin as ([x start_time] & -> & Hin).
  cbn [fst] in Hrow.
  destruct (Hmem x start_time Hin) as [(row' & Hrow' & Hact' & _)|[Hnone _]];
    congruence.
Qed.

Lemma get_keys_skips_inactive_witness :
  "XYZ" ∉ [("ABC", datetime_min + US_PER_DAY)].*1.
Proof.
  apply (get_keys_skips_inactive ["XYZ"; "ABC"] sample.loader_xyz_inactive
           [("ABC", datetime_min + US_PER_DAY)]
           (set_n_active_symbols 1 sample.loader_xyz_inactive) "XYZ"
           (1, sample.t0, false, "ALPACA")).
  - vm_compute. reflexivity.
  - vm_compute. reflexivity.
  - reflexivity.
Defined.

(** X12: when [get_keys] returns, every listed symbol that has no
    checkpoint is planned from one day after [datetime.min]; every key
    of the plan starts there or one interval after an active
    checkpoint; and once the store holds a checkpoint no symbol is
    planned twice, even if the list names it twice. *)
Theorem get_keys_plan (symbol_lst : list string) (s : Loader)
    (keys : list (string * Z)) (s' : Loader) :
  get_keys symbol_lst s = (Ok keys, s') ->
  (forall sym, sym ∈ symbol_lst ->
               spot_latest (session (_target s)) !! sym = None ->
               (sym, datetime_min + US_PER_DAY) ∈ keys)
  /\ (forall sym start_time,
         (sym, start_time) ∈ keys ->
         (spot_latest (session (_target s)) !! sym = None
          /\ start_time = datetime_min + US_PER_DAY)
         \/ exists row,
             spot_latest (session (_target s)) !! sym = Some row
             /\ row_active row = true
             /\ get_next_interval (_interval s) (row_latest_close row)
                = Ok start_time)
  /\ (spot_latest (session (_target s)) <> ∅ -> NoDup keys.*1)
  /\ _n_active_symbols s' = Z.of_nat (length keys).
Proof.
  intros Hkeys.
  pose proof (get_keys_shape _ _ _ _ Hkeys)
    as (active_keys & Hshape & Hempty & Hnd & Hsub).
  pose proof (get_keys_spec _ _ _ _ Hkeys) as (Hs' & Hmem & _ & _).
  assert (Hnone : forall x, x ∈ (get_latest (_target s)).*1.*1 ->
                            is_Some (spot_latest (session (_target s)) !! x)).
  { intros x Hx. rewrite get_latest_symbols in Hx.
    apply list_elem_of_fmap in Hx as ([k r] & -> & Hin).
    apply elem_of_map_to_list in Hin. by exists r. }
  split; [|split; [|split]].
  - intros sym Hin Hrow. rewrite Hshape. apply elem_of_app. right.
    apply list_elem_of_fmap. exists sym. split; [done|].
    destruct (get_latest (_target s)) as [|p l] eqn:Hl; [done|].
    rewrite <- Hl in *. apply new_symbols_of_spec. split; [done|].
    intros Hx. apply Hnone in Hx as (r & Hr). congruence.
  - intros sym start_time Hin.
    destruct (Hmem sym start_time Hin) as [(row & Hrow & Hact & Hnext)|[Hrow _]].
    + right. by exists row.
    + left. split; [done|].
      rewrite Hshape in Hin. apply elem_of_app in Hin as [Hin|Hin].
      * assert (Hx : sym ∈ active_keys.*1)
          by (apply list_elem_of_fmap; by exists (sym, start_time)).
        apply Hsub, Hnone in Hx as (r & Hr). congruence.
      * by apply list_elem_of_fmap in Hin as (x & [= _ ->] & _).
  - intros Hne. rewrite Hshape, fmap_app, fmap_fst_pair.
    destruct (get_latest (_target s)) as [|p l] eqn:Hl.
    { exfalso. apply Hne. unfold get_latest in Hl.
      apply fmap_nil_inv in Hl. by apply map_to_list_empty_iff. }
    rewrite <- Hl in *. apply NoDup_app. split; [done|]. split.
    + intros x Hx Hx'. apply Hsub in Hx.
      apply new_symbols_of_spec in Hx' as (_ & Hnot). done.
    + apply new_symbols_of_spec.
  - by rewrite Hs'.
Qed.

Lemma get_keys_plan_witness :
  ("ABC", datetime_min + US_PER_DAY)
  ∈ [("XYZ", sample.t0 + sample.hour); ("ABC", datetime_min + US_PER_DAY)].
Proof.
  apply (proj1 (get_keys_plan ["ABC"; "ABC"] sample.loader_xyz_active
                  [("XYZ", sample.t0 + sample.hour);
                   ("ABC", datetime_min + US_PER_DAY)]
                  (set_n_active_symbols 2 sample.loader_xyz_active)
                  ltac:(vm_compute; reflexivity)) "ABC").
  - apply elem_of_cons. by left.
  - vm_compute. reflexivity.
Defined.

Lemma get_keys_no_checkpoint (symbol_lst : list string) (s : Loader) :
  spot_latest (session (_target s)) = ∅ ->
  get_keys symbol_lst s
  = (Ok ((fun sym => (sym, datetime_min + US_PER_DAY)) <$> symbol_lst),
     set_n_active_symbols (Z.of_nat (length symbol_lst)) s).
Proof.
  intros Hempty. unfold get_keys. run_monad.
  assert (Hlatest : get_latest (_target s) = []).
  { unfold get_latest. by rewrite Hempty, map_to_list_empty. }
  rewrite Hlatest.
  rewrite (mapM_result_total earliest_key
             (fun sym => (sym, datetime_min + US_PER_DAY)) symbol_lst
             earliest_key_value).
  cbn [app]. by rewrite length_fmap.
Qed.

(** X13: on a store without checkpoints [get_keys] cannot fail,
    whatever the interval: it plans the listed symbols as they come,
    repeated if the list repeats them, each from one day after
    [datetime.min], and sets the active-symbol count to the length of
    the list. *)
Theorem get_keys_first_run (symbol_lst : list string) (s : Loader) :
  spot_latest (session (_target s)) = ∅ ->
  get_keys symbol_lst s
  = (Ok ((fun sym => (sym, datetime_min + US_PER_DAY)) <$> symbol_lst),
     set_n_active_symbols (Z.of_nat (length symbol_lst)) s).
Proof. apply get_keys_no_checkpoint. Qed.

Lemma get_keys_first_run_witness :
  get_keys ["ABC"; "ABC"] (init sample.empty_target "5x")
  = (Ok [("ABC", datetime_min + US_PER_DAY); ("ABC", datetime_min + US_PER_DAY)],
     set_n_active_symbols 2 (init sample.empty_target "5x")).
Proof.
  apply (get_keys_first_run ["ABC"; "ABC"] (init sample.empty_target "5x")).
  reflexivity.
Defined.

(** ** Reconciliation, continued *)

Lemma filter_tradable_elem (status : list (string * bool)) (k : string) :
  k ∈ (filter (fun p : string * bool => p.2 = true) status).*1 ->
  (k, true) ∈ status.
Proof.
  intros Hk. apply list_elem_of_fmap in Hk as ([k' a] & -> & Hin).
  apply list_elem_of_filter in Hin as [Ha Hin]. cbn in Ha. by subst a.
Qed.

Lemma check_trading_status_rows (w : World) (s : Loader)
    (r : result unit) (s' : Loader) :
  check_trading_status w s = (r, s') ->
  forall sym,
    match spot_latest (session (_target s)) !! sym with
    | None => spot_latest (session (_target s')) !! sym = None
    | Some row =>
        exists row',
          spot_latest (session (_target s')) !! sym = Some row'
          /\ set_active true row' = set_active true row
          /\ (row' = row
              \/ (row_active row = false /\ row_active row' = true
                  /\ exists assets, all_assets w = Ok assets
                                    /\ (sym, true) ∈ assets))
    end.
Proof.
  intros Hrun.
  apply check_trading_status_spec in Hrun
    as (_ & _ & _ & _ & [((Hses & _) & _)|(status & _ & Hst & _ & Hses & _)]).
  - rewrite Hses. intros sym.
    destruct (spot_latest (session (_target s)) !! sym) as [row|]; [|done].
    exists row. split; [done|]. split; [done|]. by left.
  - rewrite Hses. cbn [spot spot_latest]. intros sym.
    pose proof (lookup_foldl_update_active
                  (filter (fun p : string * bool => p.2 = true) status)
                  (spot_latest (session (_target s))) sym) as Hlook.
    destruct (spot_latest (session (_target s)) !! sym) as [row|]; [|done].
    destruct Hlook as (row' & Hrow' & Hcols & Htrue & Hsame).
    exists row'. split; [done|]. split; [done|].
    destruct (decide (sym ∈ (filter (fun p : string * bool => p.2 = true)
                               status).*1)) as [Hin|Hnot];
      [|left; by apply Hsame].
    assert (Hact' : row_active row' = true).
    { apply Htrue; [done|]. apply Forall_forall.
      by intros p [Hp _]%list_elem_of_filter. }
    destruct (row_active row) eqn:Hact.
    + left. rewrite <- (set_active_self row'), <- (set_active_self row).
      by rewrite Hact', Hact.
    + right. split; [done|]. split; [done|].
      apply filter_tradable_elem in Hin.
      unfold get_trading_status in Hst.
      destruct (all_assets w) as [assets|e]; [|destruct e; discriminate].
      exists assets. split; [done|]. injection Hst as <-.
      destruct (get_inactive_symbols (_target s)); [by apply elem_of_nil in Hin|].
      by apply list_elem_of_filter in Hin as [_ Hin].
Qed.

(** X14: whatever its outcome, [check_trading_status] leaves the bars
    alone and neither adds nor removes a checkpoint; of a checkpoint it
    can change the [active] flag only, and only from [False] to [True],
    and only for a symbol that the provider reports as tradable. *)
Theorem check_trading_status_only_reinstates (w : World) (s : Loader)
    (r : result unit) (s' : Loader) :
  check_trading_status w s = (r, s') ->
  spot (session (_target s')) = spot (session (_target s))
  /\ forall sym,
      match spot_latest (session (_target s)) !! sym with
      | None => spot_latest (session (_target s')) !! sym = None
      | Some row =>
          exists row',
            spot_latest (session (_target s')) !! sym = Some row'
            /\ set_active true row' = set_active true row
            /\ (row' = row
                \/ (row_active row = false /\ row_active row' = true
                    /\ exists assets, all_assets w = Ok assets
                                      /\ (sym, true) ∈ assets))
      end.
Proof.
  intros Hrun. split; [|by apply (check_trading_status_rows w s r s')].
  apply check_trading_status_spec in Hrun
    as (_ & _ & _ & _ & [((Hses & _) & _)|(status & _ & _ & _ & Hses & _)]);
    by rewrite Hses.
Qed.

Lemma check_trading_status_only_reinstates_witness :
  spot (session (_target (check_trading_status sample.xyz_world
                            sample.loader_xyz_inactive).2))
  = spot (session (_target sample.loader_xyz_inactive)).
Proof.
  apply (check_trading_status_only_reinstates sample.xyz_world
           sample.loader_xyz_inactive
           (check_trading_status sample.xyz_world sample.loader_xyz_inactive).1).
  vm_compute. reflexivity.
Defined.

Lemma check_trading_status_skip (w : World) (s : Loader) :
  all_assets w = Raise APIError
  \/ (get_inactive_symbols (_target s) = []
      /\ exists assets, all_assets w = Ok assets) ->
  exists s1,
    check_request_limit s = (Ok tt, s1)
    /\ check_trading_status w s = (Ok tt, s1).
Proof.
  intros Hcase. unfold check_trading_status. run_monad.
  destruct (check_request_limit_spec s) as (s1 & pre & Hs1 & _).
  exists s1. split; [done|].
  assert (Hstatus : get_trading_status w (get_inactive_symbols (_target s))
                    = Ok None
                    \/ get_trading_status w (get_inactive_symbols (_target s))
                       = Ok (Some [])).
  { unfold get_trading_status.
    destruct Hcase as [->|(-> & assets & ->)]; [by left|by right]. }
  destruct Hstatus as [-> | ->]; rewrite Hs1; done.
Qed.

(** X15: when the provider fails with an [APIError], or answers while
    the store holds no inactive checkpoint, [check_trading_status]
    returns without a statement and without a commit: the store stays
    as it is and the trace grows by the pause of the request budget at
    most. *)
Theorem check_trading_status_idle (w : World) (s : Loader) :
  all_assets w = Raise APIError
  \/ (get_inactive_symbols (_target s) = []
      /\ exists assets, all_assets w = Ok assets) ->
  exists s' pre,
    check_trading_status w s = (Ok tt, s')
    /\ same_tables s s'
    /\ trace s' = trace s ++ pre
    /\ (pre = [] \/ pre = [EvSleep 60]).
Proof.
  intros Hcase.
  destruct (check_trading_status_skip w s Hcase) as (s1 & Hlimit & Hrun).
  destruct (check_request_limit_spec s)
    as (s1' & pre & Hs1 & _ & Htab & _ & _ & _ & Htr & Hpre).
  rewrite Hlimit in Hs1. injection Hs1 as <-.
  by exists s1, pre.
Qed.

Lemma check_trading_status_idle_witness :
  exists s' pre,
    check_trading_status sample.xyz_world sample.loader_xyz_active = (Ok tt, s')
    /\ same_tables sample.loader_xyz_active s'
    /\ trace s' = trace sample.loader_xyz_active ++ pre
    /\ (pre = [] \/ pre = [EvSleep 60]).
Proof.
  apply (check_trading_status_idle sample.xyz_world sample.loader_xyz_active).
  right. split; [vm_compute; reflexivity|]. by eexists.
Defined.

(** ** Upserts, continued *)

Section UpsertDistinct.
Context {K : Type} `{Countable K} {V R : Type}.
Variable key : R -> K.
Variable merge : option V -> R -> V.

Lemma at_key_absent (k : K) (rows : list R) (o : option V) :
  k ∉ key <$> rows -> foldl (at_key_by key merge k) o rows = o.
Proof.
  revert o. induction rows as [|r rows IH]; intros o Hk; [done|].
  cbn [foldl]. rewrite fmap_cons in Hk. apply not_elem_of_cons in Hk as [Hr Hk].
  rewrite (at_key_ne key merge k o r) by done. by apply IH.
Qed.

Lemma at_key_present (r : R) (rows : list R) (o : option V) :
  NoDup (key <$> rows) -> r ∈ rows ->
  foldl (at_key_by key merge (key r)) o rows = Some (merge o r).
Proof.
  revert o. induction rows as [|r0 rows IH]; intros o Hnd Hin.
  { by apply elem_of_nil in Hin. }
  rewrite fmap_cons in Hnd. apply NoDup_cons in Hnd as [Hr0 Hnd].
  cbn [foldl]. apply elem_of_cons in Hin as [->|Hin].
  - rewrite (at_key_eq key merge (key r0) o r0) by done.
    by apply at_key_absent.
  - assert (Hne : key r0 <> key r).
    { intros Heq. apply Hr0. rewrite Heq. apply list_elem_of_fmap. by exists r. }
    rewrite (at_key_ne key merge (key r) o r0) by done. by apply IH.
Qed.

Lemma at_key_stays (k : K) (rows : list R) (o : option V) :
  is_Some o -> is_Some (foldl (at_key_by key merge k) o rows).
Proof.
  revert o. induction rows as [|r rows IH]; intros o Ho; [done|].
  cbn [foldl]. apply IH. unfold at_key_by. by destruct (decide (key r = k)).
Qed.

Lemma at_key_enters (r : R) (rows : list R) (o : option V) :
  r ∈ rows -> is_Some (foldl (at_key_by key merge (key r)) o rows).
Proof.
  revert o. induction rows as [|r0 rows IH]; intros o Hin.
  { by apply elem_of_nil in Hin. }
  cbn [foldl]. apply elem_of_cons in Hin as [->|Hin]; [|by apply IH].
  apply at_key_stays. by rewrite (at_key_eq key merge (key r0) o r0).
Qed.

End UpsertDistinct.

Lemma upsert_spot_row_by :
  upsert_spot_row = upsert_by spot_key on_conflict_spot.
Proof. reflexivity. Qed.

(** X16: [persist_records] on a batch whose bar rows differ in
    (symbol, open_time) returns and leaves no transaction open; each
    row of the batch is then stored under its key with the columns
    given, except that a row stored under the key before keeps its
    [id]; the bars under every other key are as they were. *)
Theorem persist_records_bars (records : list BarTuple)
    (latest_records : list LatestTuple) (s : Loader) :
  NoDup (spot_key <$> records) ->
  exists s',
    persist_records records latest_records s = (Ok tt, s')
    /\ durable (_target s') = session (_target s')
    /\ (forall r,
           r ∈ records ->
           spot (session (_target s')) !! spot_key r
           = Some (match spot (session (_target s)) !! spot_key r with
                   | Some old => with_spot_id (spot_id old) r
                   | None => r
                   end))
    /\ (forall k,
           k ∉ spot_key <$> records ->
           spot (session (_target s')) !! k
           = spot (session (_target s)) !! k).
Proof.
  intros Hnd.
  destruct (persist_records_target records latest_records s)
    as (s' & Hrun & Hses & Hdur & _).
  exists s'. split; [done|]. split; [done|]. rewrite Hses. cbn [spot].
  rewrite upsert_spot_row_by. split.
  - intros r Hr. rewrite lookup_foldl_upsert.
    by rewrite (at_key_present spot_key on_conflict_spot r records).
  - intros k Hk. rewrite lookup_foldl_upsert.
    by apply at_key_absent.
Qed.

Lemma persist_records_bars_witness :
  exists s',
    persist_records [bar_record.as_tuple (sample.record_at 9 sample.t0)] []
      (set_target
         (mkTarget
            (mkTables {[ ("XYZ", sample.t0)
                         := bar_record.as_tuple (sample.record_at 4 sample.t0) ]}
               ∅)
            (mkTables {[ ("XYZ", sample.t0)
                         := bar_record.as_tuple (sample.record_at 4 sample.t0) ]}
               ∅) 10)
         sample.loader_1h)
    = (Ok tt, s')
    /\ spot (session (_target s')) !! ("XYZ", sample.t0)
       = Some (bar_record.as_tuple (sample.record_at 4 sample.t0)).
Proof.
  destruct (persist_records_bars
              [bar_record.as_tuple (sample.record_at 9 sample.t0)] []
              (set_target
                 (mkTarget
                    (mkTables {[ ("XYZ", sample.t0)
                                 := bar_record.as_tuple
                                      (sample.record_at 4 sample.t0) ]} ∅)
                    (mkTables {[ ("XYZ", sample.t0)
                                 := bar_record.as_tuple
                                      (sample.record_at 4 sample.t0) ]} ∅) 10)
                 sample.loader_1h))
    as (s' & Hrun & _ & Hrows & _).
  { apply NoDup_singleton. }
  exists s'. split; [exact Hrun|].
  exact (Hrows (bar_record.as_tuple (sample.record_at 9 sample.t0))
           ltac:(apply list_elem_of_singleton; reflexivity)).
Defined.

(** ** Cycles without bars *)

Lemma fetch_symbol_no_bars (w : World) (l : Locals) (sym : string)
    (start_time : Z) (s : Loader) :
  get_bars w sym (_interval s) start_time = Ok None
  \/ get_bars w sym (_interval s) start_time = Ok (Some []) ->
  exists s1,
    check_request_limit s = (Ok tt, s1)
    /\ fetch_symbol w l sym start_time s
       = (Ok (mkLocals (record_objs l) (new_latest l)
                (S (processed_symbols l)) (persisted_records l)),
          emit (EvGetBars sym start_time) s1).
Proof.
  intros Hbars. unfold fetch_symbol.
  destruct (check_request_limit_spec s)
    as (s1 & pre & Hs1 & (Hint & _) & _).
  exists s1. split; [done|].
  run_monad. rewrite Hs1. cbn. rewrite Hint.
  by destruct Hbars as [-> | ->].
Qed.

Lemma load_loop_no_bars (w : World) (keys : list (string * Z)) :
  forall (l : Locals) (s : Loader),
    record_objs l = [] ->
    (forall sym start_time,
        (sym, start_time) ∈ keys ->
        get_bars w sym (_interval s) start_time = Ok None
        \/ get_bars w sym (_interval s) start_time = Ok (Some [])) ->
    exists s' tr,
      load_loop w keys l s = (Ok (persisted_records l), s')
      /\ same_settings s s' /\ same_tables s s'
      /\ sequence (_target s') = sequence (_target s)
      /\ _n_active_symbols s' = _n_active_symbols s /\ mode s' = mode s
      /\ trace s' = trace s ++ tr
      /\ requested tr = keys
      /\ persisted_rows tr = 0
      /\ Forall is_pause_or_request tr.
Proof.
  induction keys as [|[sym start_time] keys IH]; intros l s Hl Hbars.
  - exists s, []. cbn. rewrite app_nil_r. by repeat split.
  - destruct (fetch_symbol_no_bars w l sym start_time s) as (s1 & Hs1 & Hfetch).
    { apply Hbars. apply elem_of_cons. by left. }
    destruct (check_request_limit_spec s)
      as (s1' & pre & Hs1' & (Hint & Hsrc & Hsch) & (Hses & Hdur) & Hseq & Hn
          & Hm & Htr & Hpre).
    rewrite Hs1 in Hs1'. injection Hs1' as <-.
    set (l1 := mkLocals (record_objs l) (new_latest l)
                 (S (processed_symbols l)) (persisted_records l)) in *.
    set (s2 := emit (EvGetBars sym start_time) s1) in *.
    assert (Hflush : flush_batch l1 s2 = (Ok l1, s2)).
    { unfold flush_batch, flush_due. run_monad. subst l1. cbn. by rewrite Hl. }
    destruct (IH l1 s2) as (s' & tr & Hloop & (Hint' & Hsrc' & Hsch')
                            & (Hses' & Hdur') & Hseq' & Hn' & Hm' & Htr'
                            & Hreq & Hrows & Hall).
    { done. }
    { intros sym' start' Hin. subst s2. cbn. rewrite Hint.
      apply Hbars. apply elem_of_cons. by right. }
    exists s', (pre ++ [EvGetBars sym start_time] ++ tr).
    split.
    { cbn [load_loop]. run_monad. rewrite Hfetch. cbn. rewrite Hflush. cbn.
      exact Hloop. }
    subst s2. cbn in *.
    split; [unfold same_settings; repeat split; congruence|].
    split; [unfold same_tables; split; congruence|].
    split; [congruence|]. split; [congruence|]. split; [congruence|].
    split; [by rewrite Htr', Htr, <- !app_assoc|].
    split.
    { rewrite requested_app. cbn. rewrite Hreq.
      by destruct Hpre as [-> | ->]. }
    split.
    { rewrite persisted_rows_app. cbn. rewrite Hrows.
      by destruct Hpre as [-> | ->]. }
    apply Forall_app. split.
    + destruct Hpre as [-> | ->]; [done|]. constructor; [by left|done].
    + constructor; [right; by eexists _, _|done].
Qed.

(** X17: when the provider has no bars for any key of the plan,
    [load_from_keys] still asks for every key, in order, and returns 0:
    it runs no statement and no commit, draws no id and leaves the
    store as it is; apart from the requests, the trace holds only the
    pauses of the request budget. *)
Theorem load_from_keys_no_bars (w : World) (keys : list (string * Z))
    (s : Loader) :
  (forall sym start_time,
      (sym, start_time) ∈ keys ->
      get_bars w sym (_interval s) start_time = Ok None
      \/ get_bars w sym (_interval s) start_time = Ok (Some [])) ->
  exists s' tr,
    load_from_keys w keys s = (Ok 0, s')
    /\ same_tables s s'
    /\ sequence (_target s') = sequence (_target s)
    /\ trace s' = trace s ++ tr
    /\ requested tr = keys
    /\ Forall is_pause_or_request tr.
Proof.
  intros Hbars.
  destruct (load_loop_no_bars w keys (mkLocals [] [] 0 0) s eq_refl Hbars)
    as (s' & tr & Hloop & _ & Htab & Hseq & _ & _ & Htr & Hreq & _ & Hall).
  by exists s', tr.
Qed.

Lemma load_from_keys_no_bars_witness :
  exists s' tr,
    load_from_keys sample.silent_world [("ABC", sample.t0); ("DEF", sample.t0)]
      sample.loader_1h
    = (Ok 0, s')
    /\ same_tables sample.loader_1h s'
    /\ sequence (_target s') = sequence (_target sample.loader_1h)
    /\ trace s' = trace sample.loader_1h ++ tr
    /\ requested tr = [("ABC", sample.t0); ("DEF", sample.t0)]
    /\ Forall is_pause_or_request tr.
Proof.
  apply (load_from_keys_no_bars sample.silent_world
           [("ABC", sample.t0); ("DEF", sample.t0)] sample.loader_1h).
  intros sym start_time _. left. reflexivity.
Defined.

Lemma timeframe_raise_timedelta (interval : string) (e : exn) :
  interval_to_timeframe interval = Raise e ->
  parse_interval_to_timedelta interval = Raise e.
Proof.
  unfold interval_to_timeframe, parse_interval_to_timedelta.
  destruct (int_of_str (all_but_last interval)) as [v|e0];
    cbn [mbind result_bind bind]; [|by intros [= <-]].
  destruct (last_char interval) as [c|e0]; cbn [mbind result_bind bind];
    [|by intros [= <-]].
  unfold units_to_timeframe, SECONDS_PER_UNIT.
  destruct (Ascii.eqb c "m"), (Ascii.eqb c "h"), (Ascii.eqb c "d"),
    (Ascii.eqb c "w"); cbn; congruence.
Qed.

(** X18: a loader whose interval ends in a letter that is no unit,
    started on a store without checkpoints, runs a whole cycle without
    an error: it asks for every listed symbol from one day after
    [datetime.min], gets [None] each time, writes nothing and stays in
    [SLOW] mode; the misconfiguration shows only afterwards, when the
    wait of [run_as_service] is computed and raises [KeyError]. *)
Theorem run_once_unknown_unit (w : World) (symbol_lst : list string)
    (s : Loader) :
  interval_to_timeframe (_interval s) = Raise KeyError ->
  spot_latest (session (_target s)) = ∅ ->
  (all_assets w = Raise APIError \/ exists assets, all_assets w = Ok assets) ->
  exists s' tr,
    run_once w symbol_lst s = (Ok tt, s')
    /\ same_tables s s'
    /\ mode s' = SLOW
    /\ trace s' = trace s ++ tr
    /\ requested tr
       = (fun sym => (sym, datetime_min + US_PER_DAY)) <$> symbol_lst
    /\ persisted_rows tr = 0
    /\ forall k, waiting_time s' k = Raise KeyError.
Proof.
  intros Htf Hempty Hassets.
  assert (Hinactive : get_inactive_symbols (_target (set_mode SLOW s)) = []).
  { unfold get_inactive_symbols. cbn. by rewrite Hempty, map_to_list_empty. }
  destruct (check_trading_status_skip w (set_mode SLOW s)) as (s1 & Hs1 & Hcts).
  { destruct Hassets as [?|?]; [by left|by right]. }
  destruct (check_request_limit_spec (set_mode SLOW s))
    as (s1' & pre & Hs1' & (Hint & Hsrc & Hsch) & (Hses & Hdur) & Hseq & Hn
        & Hm & Htr & Hpre).
  rewrite Hs1 in Hs1'. injection Hs1' as <-. cbn in Hint, Hses, Hdur, Hm, Htr.
  assert (Hkeys := get_keys_no_checkpoint symbol_lst s1
                     ltac:(by rewrite Hses)).
  set (keys := (fun sym => (sym, datetime_min + US_PER_DAY)) <$> symbol_lst)
    in *.
  set (s2 := set_n_active_symbols (Z.of_nat (length symbol_lst)) s1) in *.
  destruct (load_loop_no_bars w keys (mkLocals [] [] 0 0) s2 eq_refl)
    as (s3 & tr & Hloop & (Hint3 & _) & (Hses3 & Hdur3) & _ & Hn3 & Hm3
        & Htr3 & Hreq & Hrows & _).
  { intros sym start_time _. left. subst s2. cbn. rewrite Hint.
    unfold get_bars. by rewrite Htf. }
  subst s2. cbn in Hint3, Hses3, Hdur3, Hn3, Hm3, Htr3.
  exists s3, (pre ++ tr).
  split.
  { unfold run_once. run_monad. rewrite Hcts. cbn. rewrite Hkeys. cbn.
    unfold load_from_keys. rewrite Hloop. cbn. rewrite Hn3.
    destruct (Z.gtb_spec 0 (Z.of_nat (length symbol_lst))) as [Hgt|_]; [lia|].
    reflexivity. }
  split; [split; congruence|].
  split; [congruence|].
  split; [by rewrite Htr3, Htr, <- app_assoc|].
  split.
  { rewrite requested_app, Hreq. by destruct Hpre as [-> | ->]. }
  split.
  { rewrite persisted_rows_app, Hrows. by destruct Hpre as [-> | ->]. }
  intros k. unfold waiting_time. rewrite Hm3, Hm. cbn.
  unfold slow_choices, interval_to_seconds. rewrite Hint3, Hint.
  by rewrite (timeframe_raise_timedelta _ _ Htf).
Qed.

Lemma run_once_unknown_unit_witness :
  exists s' tr,
    run_once sample.xyz_world ["XYZ"] (init sample.empty_target "5x")
    = (Ok tt, s')
    /\ same_tables (init sample.empty_target "5x") s'
    /\ mode s' = SLOW
    /\ trace s' = trace (init sample.empty_target "5x") ++ tr
    /\ requested tr = (fun sym => (sym, datetime_min + US_PER_DAY)) <$> ["XYZ"]
    /\ persisted_rows tr = 0
    /\ forall k, waiting_time s' k = Raise KeyError.
Proof.
  apply (run_once_unknown_unit sample.xyz_world ["XYZ"]
           (init sample.empty_target "5x")).
  - reflexivity.
  - reflexivity.
  - right. by eexists.
Defined.

(** ** Reconciliation on another interval *)

Lemma string_length_append (a b : string) :
  String.length (a ++ b) = (String.length a + String.length b)%nat.
Proof. induction a as [|c a IH]; simpl; [done|by f_equal]. Qed.

Lemma latest_table_1h (interval : string) :
  String.eqb ("spot_" ++ interval ++ "_latest") "spot_1h_latest" = true ->
  interval = "1h".
Proof.
  intros Heq. apply String.eqb_eq in Heq. cbn in Heq.
  injection Heq as Heq.
  destruct interval as [|a [|b [|c rest]]]; cbn in Heq.
  - discriminate.
  - injection Heq as _ Heq. discriminate.
  - by injection Heq as -> ->.
  - injection Heq as _ _ _ Heq.
    apply (f_equal String.length) in Heq.
    rewrite string_length_append in Heq. cbn in Heq. lia.
Qed.

Lemma check_trading_status_rejected (w : World) (s : Loader) (sym : string)
    (row : LatestRow) (assets : list (string * bool)) :
  _interval s <> "1h" ->
  spot_latest (session (_target s)) !! sym = Some row ->
  row_active row = false ->
  all_assets w = Ok assets ->
  (sym, true) ∈ assets ->
  exists s' pre n,
    check_trading_status w s = (Raise ProgrammingError, s')
    /\ same_tables s s'
    /\ trace s'
       = trace s ++ pre
         ++ [EvExecute (SpotLatestQueries.CORRECT_TRADING_STATUS (_interval s))
               n]
    /\ (pre = [] \/ pre = [EvSleep 60]).
Proof.
  intros Hint Hrow Hinactive Hassets Htradable.
  assert (Hin : sym ∈ get_inactive_symbols (_target s))
    by (by apply (get_inactive_symbols_elem _ sym row)).
  set (status := filter (fun a : string * bool =>
                           a.1 ∈ get_inactive_symbols (_target s)) assets).
  assert (Hstatus : get_trading_status w (get_inactive_symbols (_target s))
                    = Ok (Some status)).
  { unfold get_trading_status. rewrite Hassets.
    destruct (get_inactive_symbols (_target s)); [|done].
    by apply elem_of_nil in Hin. }
  assert (Hact : (sym, true) ∈ filter (fun p : string * bool => p.2 = true)
                                status).
  { apply list_elem_of_filter. split; [done|].
    apply list_elem_of_filter. by split. }
  assert (Hst : (sym, true) ∈ status)
    by (by apply list_elem_of_filter in Hact as [_ ?]).
  destruct (check_request_limit_spec s)
    as (s1 & pre & Hs1 & (Hint1 & _) & (Hses & Hdur) & _ & _ & _ & Htr & Hpre).
  assert (Hno : String.eqb ("spot_" ++ _interval s ++ "_latest")
                  "spot_1h_latest" = false).
  { apply not_true_is_false. intros Heq. by apply latest_table_1h in Heq. }
  exists (emit (EvExecute (SpotLatestQueries.CORRECT_TRADING_STATUS
                             (_interval s))
                  (length (filter (fun p : string * bool => p.2 = true)
                             status))) s1),
    pre,
    (length (filter (fun p : string * bool => p.2 = true) status)).
  split.
  { unfold check_trading_status. run_monad. rewrite Hstatus, Hs1.
    destruct status as [|p status']; [by apply elem_of_nil in Hst|].
    destruct (filter (fun p : string * bool => p.2 = true) (p :: status'))
      as [|q act] eqn:Hfilter; [by apply elem_of_nil in Hact|].
    unfold execute, execute_status, SpotLatestQueries.CORRECT_TRADING_STATUS.
    by rewrite Hno. }
  cbn. split; [by split|]. split; [|done].
  by rewrite Htr, <- app_assoc.
Qed.

(** X19: on a loader whose interval is not [1h], as soon as the
    provider reports the symbol of an inactive checkpoint as tradable,
    [check_trading_status] sends its update, whose [WHERE] clause names
    [spot_1h_latest], and raises [ProgrammingError]; nothing is
    committed, and [run_once] raises the same error before it asks for
    any bar. *)
Theorem reinstatement_fails_off_1h (w : World) (symbol_lst : list string)
    (s : Loader) (sym : string) (row : LatestRow)
    (assets : list (string * bool)) :
  _interval s <> "1h" ->
  spot_latest (session (_target s)) !! sym = Some row ->
  row_active row = false ->
  all_assets w = Ok assets ->
  (sym, true) ∈ assets ->
  (exists s', check_trading_status w s = (Raise ProgrammingError, s')
              /\ same_tables s s')
  /\ exists s' tr,
      run_once w symbol_lst s = (Raise ProgrammingError, s')
      /\ same_tables s s'
      /\ trace s' = trace s ++ tr
      /\ requested tr = [].
Proof.
  intros Hint Hrow Hinactive Hassets Htradable. split.
  - destruct (check_trading_status_rejected w s sym row assets)
      as (s' & pre & n & Hrun & Htab & _); try done.
    by exists s'.
  - destruct (check_trading_status_rejected w (set_mode SLOW s) sym row assets)
      as (s' & pre & n & Hrun & Htab & Htr & Hpre); try done.
    exists s', (pre ++ [EvExecute (SpotLatestQueries.CORRECT_TRADING_STATUS
                                     (_interval s)) n]).
    split.
    { unfold run_once. run_monad. by rewrite Hrun. }
    split; [done|]. split; [done|].
    rewrite requested_app. by destruct Hpre as [-> | ->].
Qed.

Lemma reinstatement_fails_off_1h_witness :
  (exists s',
      check_trading_status sample.xyz_world
        (init (mkTarget sample.inactive_tables sample.inactive_tables 2) "1d")
      = (Raise ProgrammingError, s')
      /\ same_tables
           (init (mkTarget sample.inactive_tables sample.inactive_tables 2) "1d")
           s')
  /\ exists s' tr,
      run_once sample.xyz_world ["XYZ"]
        (init (mkTarget sample.inactive_tables sample.inactive_tables 2) "1d")
      = (Raise ProgrammingError, s')
      /\ same_tables
           (init (mkTarget sample.inactive_tables sample.inactive_tables 2) "1d")
           s'
      /\ trace s'
         = trace (init (mkTarget sample.inactive_tables sample.inactive_tables 2)
                    "1d") ++ tr
      /\ requested tr = [].
Proof.
  apply (reinstatement_fails_off_1h sample.xyz_world ["XYZ"]
           (init (mkTarget sample.inactive_tables sample.inactive_tables 2) "1d")
           "XYZ" (1, sample.t0, false, "ALPACA") [("XYZ", true)]).
  - discriminate.
  - vm_compute. reflexivity.
  - reflexivity.
  - reflexivity.
  - apply list_elem_of_singleton. reflexivity.
Defined.

(** ** What a cycle asks for *)

Lemma get_keys_new_start (symbol_lst : list string) (s : Loader)
    (keys : list (string * Z)) (s' : Loader) (sym : string) (start_time : Z) :
  get_keys symbol_lst s = (Ok keys, s') ->
  (sym, start_time) ∈ keys ->
  spot_latest (session (_target s)) !! sym = None ->
  start_time = datetime_min + US_PER_DAY.
Proof.
  intros Hkeys Hin Hnone.
  pose proof (get_keys_shape _ _ _ _ Hkeys)
    as (active_keys & Hshape & _ & _ & Hsub).
  rewrite Hshape in Hin. apply elem_of_app in Hin as [Hin|Hin].
  - assert (Hx : sym ∈ active_keys.*1)
      by (apply list_elem_of_fmap; by exists (sym, start_time)).
    apply Hsub in Hx. rewrite get_latest_symbols in Hx.
    apply list_elem_of_fmap in Hx as ([k r] & -> & Hk).
    apply elem_of_map_to_list in Hk. cbn in Hnone. congruence.
  - by apply list_elem_of_fmap in Hin as (x & [= _ ->] & _).
Qed.

Lemma row_latest_close_set_active (a : bool) (r : LatestRow) :
  row_latest_close (set_active a r) = row_latest_close r.
Proof. by destruct r as [[[]]]. Qed.

(** X20: a cycle that returns asks for bars only as follows: for a
    symbol without checkpoint, only if it is listed, from one day after
    [datetime.min]; for a checkpointed symbol, from one interval after
    the [latest_close] stored before the cycle, and only if the
    checkpoint was active or the provider reports the symbol as
    tradable. A symbol list without repetition gives no symbol two
    requests. *)
Theorem run_once_requests (w : World) (symbol_lst : list string)
    (s s' : Loader) :
  run_once w symbol_lst s = (Ok tt, s') ->
  exists tr,
    trace s' = trace s ++ tr
    /\ (forall sym start_time,
           (sym, start_time) ∈ requested tr ->
           match spot_latest (session (_target s)) !! sym with
           | None =>
               sym ∈ symbol_lst /\ start_time = datetime_min + US_PER_DAY
           | Some row =>
               get_next_interval (_interval s) (row_latest_close row)
               = Ok start_time
               /\ (row_active row = true
                   \/ exists assets, all_assets w = Ok assets
                                     /\ (sym, true) ∈ assets)
           end)
    /\ (NoDup symbol_lst -> NoDup (requested tr).*1).
Proof.
  intros Hrun.
  destruct (run_once_steps w symbol_lst s (Ok tt) s' Hrun eq_refl)
    as (s1 & keys & s2 & n & s3 & H1 & H2 & H3 & ->).
  pose proof (check_trading_status_rows _ _ _ _ H1) as Hrows.
  apply check_trading_status_spec in H1
    as ((Hint1 & _) & _ & _ & (tr1 & Htr1 & Hreq1 & _) & _).
  pose proof (get_keys_spec _ _ _ _ H2) as (Hs2 & Hmem & _ & Hnd).
  unfold load_from_keys in H3.
  apply load_loop_trace in H3 as (_ & _ & _ & tr3 & Htr3 & Hreq3 & _).
  cbn in Htr1, Hint1, Hrows.
  exists (tr1 ++ tr3).
  assert (Hreq : requested (tr1 ++ tr3) = keys)
    by (by rewrite requested_app, Hreq1, Hreq3).
  rewrite Hreq. split.
  { destruct (n >? _n_active_symbols s3); cbn;
      rewrite Htr3, Hs2; cbn; by rewrite Htr1, <- app_assoc. }
  split; [|done].
  intros sym start_time Hin. specialize (Hrows sym).
  destruct (spot_latest (session (_target s)) !! sym) as [row|].
  - destruct Hrows as (row' & Hrow' & Hcols & Hcase).
    destruct (Hmem sym start_time Hin)
      as [(row1 & Hrow1 & Hact1 & Hnext)|[Hnone _]]; [|congruence].
    rewrite Hrow' in Hrow1. injection Hrow1 as <-.
    assert (Hlc : row_latest_close row' = row_latest_close row).
    { rewrite <- (row_latest_close_set_active true row'), Hcols.
      apply row_latest_close_set_active. }
    rewrite Hint1, Hlc in Hnext. split; [done|].
    destruct Hcase as [->|(_ & _ & Hrep)]; [by left|by right].
  - destruct (Hmem sym start_time Hin)
      as [(row1 & Hrow1 & _)|[_ Hlisted]]; [congruence|].
    split; [done|]. by apply (get_keys_new_start symbol_lst s1 keys s2 sym).
Qed.

Lemma run_once_requests_witness :
  exists tr,
    trace (run_once sample.xyz_world ["XYZ"] sample.loader_xyz_active).2
    = trace sample.loader_xyz_active ++ tr
    /\ (forall sym start_time,
           (sym, start_time) ∈ requested tr ->
           match spot_latest (session (_target sample.loader_xyz_active)) !! sym
           with
           | None =>
               sym ∈ ["XYZ"] /\ start_time = datetime_min + US_PER_DAY
           | Some row =>
               get_next_interval (_interval sample.loader_xyz_active)
                 (row_latest_close row)
               = Ok start_time
               /\ (row_active row = true
                   \/ exists assets, all_assets sample.xyz_world = Ok assets
                                     /\ (sym, true) ∈ assets)
           end)
    /\ (NoDup ["XYZ"] -> NoDup (requested tr).*1).
Proof.
  apply (run_once_requests sample.xyz_world ["XYZ"] sample.loader_xyz_active).
  vm_compute. reflexivity.
Defined.

(** ** What a cycle commits *)

Lemma spot_key_as_tuple (r : BarRecord) :
  spot_key (bar_record.as_tuple r) = (bar_record.symbol r, open_time r).
Proof. reflexivity. Qed.

Lemma upsert_spot_stays (rows : list BarTuple)
    (t : gmap (string * Z) BarTuple) (k : string * Z) :
  is_Some (t !! k) -> is_Some (foldl upsert_spot_row t rows !! k).
Proof.
  intros Hk. rewrite upsert_spot_row_by, lookup_foldl_upsert.
  by apply at_key_stays.
Qed.

Lemma upsert_spot_enters (rows : list BarTuple)
    (t : gmap (string * Z) BarTuple) (r : BarTuple) :
  r ∈ rows -> is_Some (foldl upsert_spot_row t rows !! spot_key r).
Proof.
  intros Hr. rewrite upsert_spot_row_by, lookup_foldl_upsert.
  by apply at_key_enters.
Qed.

Lemma build_records_covers (bars : list Bar) (ids : list Z)
    (recs : list BarRecord) (b : Bar) :
  build_records bars ids = Ok recs ->
  length ids = length bars ->
  b ∈ bars ->
  exists r, r ∈ recs /\ bar_record.symbol r = bar_symbol b
            /\ open_time r = bar_timestamp b.
Proof.
  intros Hbuild Hlen Hb.
  apply build_records_zip in Hbuild as (Hl & _ & Htimes & Hsyms).
  rewrite Hlen, Nat.min_id in Hl.
  rewrite Hl in Htimes, Hsyms.
  rewrite <- (length_fmap bar_timestamp), take_ge in Htimes by done.
  rewrite <- (length_fmap bar_symbol), take_ge in Hsyms by done.
  apply list_elem_of_lookup in Hb as (i & Hi).
  destruct (lookup_lt_is_Some_2 recs i) as (r & Hr).
  { rewrite Hl. by apply lookup_lt_Some in Hi. }
  exists r. split; [by apply list_elem_of_lookup_2 in Hr|].
  split.
  - apply (f_equal (fun l => l !! i)) in Hsyms.
    rewrite !list_lookup_fmap, Hr, Hi in Hsyms. by injection Hsyms.
  - apply (f_equal (fun l => l !! i)) in Htimes.
    rewrite !list_lookup_fmap, Hr, Hi in Htimes. by injection Htimes.
Qed.

Lemma load_loop_stores (w : World) (keys : list (string * Z)) :
  forall (l : Locals) (s : Loader) (n : Z) (s' : Loader),
    load_loop w keys l s = (Ok n, s') ->
    Z.of_nat (processed_symbols l + length keys) = _n_active_symbols s ->
    (keys = [] -> record_objs l = []) ->
    (synced s -> synced s')
    /\ (forall k, is_Some (spot (session (_target s)) !! k) ->
                  is_Some (spot (session (_target s')) !! k))
    /\ (forall r, r ∈ record_objs l ->
                  is_Some (spot (session (_target s'))
                             !! (bar_record.symbol r, open_time r)))
    /\ (forall sym start_time bars b,
           (sym, start_time) ∈ keys ->
           get_bars w sym (_interval s) start_time = Ok (Some bars) ->
           b ∈ bars ->
           is_Some (spot (session (_target s'))
                      !! (bar_symbol b, bar_timestamp b))).
Proof.
  induction keys as [|[sym0 start0] keys IH]; intros l s n s' Hrun Hcount Hlast.
  - cbn in Hrun. injection Hrun as <- <-.
    split; [done|]. split; [done|]. split.
    + intros r Hr. rewrite Hlast in Hr by done. by apply elem_of_nil in Hr.
    + intros sym start_time bars b Hin. by apply elem_of_nil in Hin.
  - cbn [load_loop] in Hrun. run_monad.
    destruct (fetch_symbol w l sym0 start0 s) as [r1 s1] eqn:Hfetch.
    apply fetch_symbol_spec in Hfetch
      as ((Hint1 & _) & (Hses1 & Hdur1) & Hn1 & _ & _ & Hok).
    destruct r1 as [l1|e]; [|discriminate].
    destruct (Hok l1 eq_refl)
      as (Hproc1 & _ & recs & cks & ob & Hrecs & _ & _ & Hbars & Hob).
    destruct (flush_batch_spec l1 s1)
      as (l2 & s2 & Hflush & (Hint2 & _) & Hn2 & _ & Hproc2 & Hcase).
    rewrite Hflush in Hrun.
    apply IH in Hrun as (Hsync & Hstay & Hpend & Hfetched).
    2:{ rewrite Hproc2, Hproc1, Hn2, Hn1. cbn [length] in Hcount. lia. }
    2:{ intros ->. cbn [length] in Hcount.
        pose proof (flush_due_schedule s1 l1) as Hdue.
        destruct (flush_due s1 l1).
        - by destruct Hcase as (? & _).
        - destruct Hcase as [-> ->].
          rewrite Hproc1, Hn1 in Hdue.
          replace (Z.of_nat (S (processed_symbols l)) =? _n_active_symbols s)
            with true in Hdue by (symmetry; apply Z.eqb_eq; lia).
          rewrite orb_true_r, andb_true_r in Hdue.
          symmetry in Hdue. apply Z.ltb_ge in Hdue.
          destruct (record_objs l1); [done|]. cbn [length] in Hdue. lia. }
    assert (Hstay2 : forall k,
               is_Some (spot (session (_target s)) !! k) ->
               is_Some (spot (session (_target s2)) !! k)).
    { intros k Hk. rewrite <- Hses1 in Hk.
      destruct (flush_due s1 l1).
      - destruct Hcase as (_ & _ & _ & _ & -> & _). cbn [spot].
        by apply upsert_spot_stays.
      - by destruct Hcase as [_ ->]. }
    assert (Hl1 : forall r,
               r ∈ record_objs l1 ->
               is_Some (spot (session (_target s'))
                          !! (bar_record.symbol r, open_time r))).
    { intros r Hr. destruct (flush_due s1 l1).
      - destruct Hcase as (_ & _ & _ & _ & Hses2 & _).
        apply Hstay. rewrite Hses2. cbn [spot].
        rewrite <- spot_key_as_tuple. apply upsert_spot_enters.
        apply list_elem_of_fmap. by exists r.
      - destruct Hcase as [-> ->]. by apply Hpend. }
    split.
    { intros Hs. apply Hsync. unfold synced in *.
      destruct (flush_due s1 l1).
      - by destruct Hcase as (_ & _ & _ & _ & _ & ->).
      - destruct Hcase as [_ ->]. congruence. }
    split; [intros k Hk; by apply Hstay, Hstay2|].
    split.
    { intros r Hr. apply Hl1. rewrite Hrecs. apply elem_of_app. by left. }
    intros sym start_time bars b Hin Hget Hb.
    apply elem_of_cons in Hin as [[= -> ->]|Hin].
    + rewrite Hget in Hbars. injection Hbars as <-.
      destruct bars as [|b0 bars]; [by apply elem_of_nil in Hb|].
      destruct Hob as (ids & ck & Hbuild & Hlen & _).
      destruct (build_records_covers _ _ _ b Hbuild Hlen Hb)
        as (r & Hr & <- & <-).
      apply Hl1. rewrite Hrecs. apply elem_of_app. by right.
    + apply (Hfetched sym start_time bars b Hin); [|done].
      by rewrite Hint2, Hint1.
Qed.

(** X21: a cycle that starts with no transaction open and returns ends
    with none open; every bar the provider returned to a request of the
    cycle is then in the committed bar table under its symbol and
    timestamp, and every key the table held before is still there. *)
Theorem run_once_commits_bars (w : World) (symbol_lst : list string)
    (s s' : Loader) :
  run_once w symbol_lst s = (Ok tt, s') ->
  synced s ->
  synced s'
  /\ (forall k, is_Some (spot (durable (_target s)) !! k) ->
                is_Some (spot (durable (_target s')) !! k))
  /\ exists tr,
      trace s' = trace s ++ tr
      /\ forall sym start_time bars b,
          (sym, start_time) ∈ requested tr ->
          get_bars w sym (_interval s) start_time = Ok (Some bars) ->
          b ∈ bars ->
          is_Some (spot (durable (_target s'))
                     !! (bar_symbol b, bar_timestamp b)).
Proof.
  intros Hrun Hsynced.
  destruct (run_once_steps w symbol_lst s (Ok tt) s' Hrun eq_refl)
    as (s1 & keys & s2 & n & s3 & H1 & H2 & H3 & ->).
  apply check_trading_status_spec in H1
    as ((Hint1 & _) & _ & _ & (tr1 & Htr1 & Hreq1 & _) & Htables).
  cbn in Hint1, Htr1, Htables.
  assert (Hs1 : synced s1
                /\ spot (session (_target s1)) = spot (session (_target s))).
  { unfold synced in *.
    destruct Htables
      as [((Hses & Hdur) & _)|(status & _ & _ & _ & Hses & Hdur)].
    - cbn in Hses, Hdur. split; congruence.
    - split; [done|]. by rewrite Hses. }
  destruct Hs1 as (Hsync1 & Hspot1).
  apply get_keys_spec in H2 as (-> & _).
  unfold load_from_keys in H3.
  pose proof (load_loop_trace _ _ _ _ _ _ H3)
    as (_ & _ & _ & tr3 & Htr3 & Hreq3 & _).
  apply load_loop_stores in H3 as (Hsync & Hstay & _ & Hfetched);
    [|done|done].
  cbn in Htr3, Hsync, Hstay, Hfetched.
  specialize (Hsync Hsync1).
  assert (Htarget : _target (if n >? _n_active_symbols s3
                             then set_mode FAST s3 else s3) = _target s3)
    by (by destruct (n >? _n_active_symbols s3)).
  assert (Htrace : trace (if n >? _n_active_symbols s3
                          then set_mode FAST s3 else s3) = trace s3)
    by (by destruct (n >? _n_active_symbols s3)).
  unfold synced in *. rewrite Htarget, Htrace.
  split; [done|]. split.
  - intros k Hk. rewrite Hsync. apply Hstay. by rewrite Hspot1, <- Hsynced.
  - exists (tr1 ++ tr3). split; [by rewrite Htr3, Htr1, <- app_assoc|].
    intros sym start_time bars b Hin Hget Hb.
    rewrite requested_app, Hreq1, Hreq3 in Hin. cbn [app] in Hin.
    rewrite Hsync. apply (Hfetched sym start_time bars b Hin); [|done].
    by rewrite Hint1.
Qed.

Lemma run_once_commits_bars_witness :
  is_Some
    (spot (durable (_target (run_once sample.xyz_world ["XYZ"]
                               sample.loader_1h).2))
       !! ("XYZ", sample.t0 + 2 * sample.hour)).
Proof.
  destruct (run_once_commits_bars sample.xyz_world ["XYZ"] sample.loader_1h
              (run_once sample.xyz_world ["XYZ"] sample.loader_1h).2)
    as (_ & _ & tr & Htr & Hbars).
  - vm_compute. reflexivity.
  - reflexivity.
  - apply (Hbars "XYZ" (datetime_min + US_PER_DAY)
             [sample.bar_at "XYZ" sample.t0;
              sample.bar_at "XYZ" (sample.t0 + sample.hour);
              sample.bar_at "XYZ" (sample.t0 + 2 * sample.hour)]
             (sample.bar_at "XYZ" (sample.t0 + 2 * sample.hour))).
    + assert (Hreq : requested tr = [("XYZ", datetime_min + US_PER_DAY)]).
      { change (trace sample.loader_1h ++ tr) with tr in Htr.
        rewrite <- Htr. vm_compute. reflexivity. }
      rewrite Hreq. apply list_elem_of_singleton. reflexivity.
    + vm_compute. reflexivity.
    + do 2 (apply elem_of_cons; right). apply elem_of_cons. by left.
Defined.

Lemma upsert_latest_row_by :
  upsert_latest_row = upsert_by latest_key (fun _ r => latest_row r).
Proof. reflexivity. Qed.

(** X22: [persist_records] on a batch whose checkpoint rows differ in
    symbol stores each of them under its symbol with every column as
    given, the [id] included, whatever was stored there; the
    checkpoints of the other symbols are as they were. *)
Theorem persist_records_checkpoints (records : list BarTuple)
    (latest_records : list LatestTuple) (s : Loader) :
  NoDup (latest_key <$> latest_records) ->
  exists s',
    persist_records records latest_records s = (Ok tt, s')
    /\ (forall sym id latest_close active source,
           (sym, id, latest_close, active, source) ∈ latest_records ->
           spot_latest (durable (_target s')) !! sym
           = Some (id, latest_close, active, source))
    /\ (forall sym,
           sym ∉ latest_key <$> latest_records ->
           spot_latest (durable (_target s')) !! sym
           = spot_latest (session (_target s)) !! sym).
Proof.
  intros Hnd.
  destruct (persist_records_target records latest_records s)
    as (s' & Hrun & Hses & Hdur & _).
  exists s'. split; [done|]. rewrite Hdur, Hses. cbn [spot_latest].
  rewrite upsert_latest_row_by. split.
  - intros sym id latest_close active source Hr.
    rewrite lookup_foldl_upsert.
    by rewrite (at_key_present latest_key (fun _ r => latest_row r)
                  (sym, id, latest_close, active, source) latest_records).
  - intros sym Hsym. rewrite lookup_foldl_upsert.
    by apply at_key_absent.
Qed.

Lemma persist_records_checkpoints_witness :
  exists s',
    persist_records [] [("XYZ", 7, sample.t0 + sample.hour, true, "ALPACA")]
      sample.loader_xyz_inactive
    = (Ok tt, s')
    /\ spot_latest (durable (_target s')) !! "XYZ"
       = Some (7, sample.t0 + sample.hour, true, "ALPACA").
Proof.
  destruct (persist_records_checkpoints []
              [("XYZ", 7, sample.t0 + sample.hour, true, "ALPACA")]
              sample.loader_xyz_inactive)
    as (s' & Hrun & Hrows & _).
  { apply NoDup_singleton. }
  exists s'. split; [exact Hrun|].
  apply Hrows. apply list_elem_of_singleton. reflexivity.
Defined.

(** ** Cycles that raise *)

Lemma load_loop_raise_small (w : World) (keys : list (string * Z)) :
  forall (l : Locals) (s : Loader) (e : exn) (s' : Loader),
    load_loop w keys l s = (Raise e, s') ->
    Z.of_nat (processed_symbols l + length keys) = _n_active_symbols s ->
    (processed_symbols l + length keys < 1000)%nat ->
    same_tables s s'.
Proof.
  induction keys as [|[sym0 start0] keys IH]; intros l s e s' Hrun Hcount Hsmall.
  - discriminate.
  - cbn [load_loop] in Hrun. run_monad.
    destruct (fetch_symbol w l sym0 start0 s) as [r1 s1] eqn:Hfetch.
    apply fetch_symbol_spec in Hfetch as (_ & Htab1 & Hn1 & _ & _ & Hok).
    destruct r1 as [l1|e1]; [|by injection Hrun as _ <-].
    destruct (Hok l1 eq_refl) as (Hproc1 & _).
    destruct (flush_batch_spec l1 s1)
      as (l2 & s2 & Hflush & _ & _ & _ & _ & Hcase).
    rewrite Hflush in Hrun. cbn [length] in Hcount, Hsmall.
    destruct keys as [|k keys].
    { destruct (flush_due s1 l1); discriminate. }
    assert (Hdue : flush_due s1 l1 = false).
    { rewrite flush_due_schedule, Hproc1, Hn1.
      replace (Z.of_nat (S (processed_symbols l)) mod BATCH_SIZE =? 0)
        with false.
      2:{ symmetry. apply Z.eqb_neq. unfold BATCH_SIZE.
          rewrite Z.mod_small; lia. }
      replace (Z.of_nat (S (processed_symbols l)) =? _n_active_symbols s)
        with false.
      2:{ symmetry. apply Z.eqb_neq. cbn [length] in Hcount. lia. }
      apply andb_false_r. }
    rewrite Hdue in Hcase. destruct Hcase as [-> ->].
    apply IH in Hrun.
    + destruct Htab1 as (Hses1 & Hdur1), Hrun as (Hses & Hdur).
      split; congruence.
    + rewrite Hproc1, Hn1. cbn [length] in *. lia.
    + rewrite Hproc1. cbn [length] in *. lia.
Qed.

(** X23: a plan of fewer than 1000 keys is written in one piece or not
    at all: when [load_from_keys] raises on it, with the active-symbol
    count that [get_keys] set, no statement has changed the tables and
    nothing has been committed; the bars fetched before the error are
    dropped with it. *)
Theorem load_from_keys_raise_writes_nothing (w : World)
    (keys : list (string * Z)) (s : Loader) (e : exn) (s' : Loader) :
  load_from_keys w keys s = (Raise e, s') ->
  _n_active_symbols s = Z.of_nat (length keys) ->
  (length keys < 1000)%nat ->
  same_tables s s'.
Proof.
  intros Hrun Hn Hsmall. unfold load_from_keys in Hrun.
  apply (load_loop_raise_small w keys (mkLocals [] [] 0 0) s e s' Hrun);
    cbn [processed_symbols]; [by rewrite Hn|done].
Qed.

Lemma load_from_keys_raise_writes_nothing_witness :
  same_tables (set_n_active_symbols 2 sample.loader_1h)
    (load_from_keys sample.no_vwap_world
       [("AAA", sample.t0); ("BBB", sample.t0)]
       (set_n_active_symbols 2 sample.loader_1h)).2.
Proof.
  apply (load_from_keys_raise_writes_nothing sample.no_vwap_world
           [("AAA", sample.t0); ("BBB", sample.t0)]
           (set_n_active_symbols 2 sample.loader_1h) TypeError).
  - vm_compute. reflexivity.
  - reflexivity.
  - cbn. lia.
Defined.

(** ** Where a cycle leaves the checkpoints *)

Lemma latest_closed_many (now : Z) (s : Loader) (sym : string)
    (pre : list BarRecord) (r last : BarRecord) :
  latest_closed now s sym (pre ++ [r; last])
  = Ok (Some (mkLatest sym (bar_record.id r) (open_time r) true
                (source_name s))).
Proof.
  unfold latest_closed.
  replace (1 <? Z.of_nat (length (pre ++ [r; last]))) with true
    by (symmetry; apply Z.ltb_lt; rewrite length_app; cbn [length]; lia).
  by rewrite index_second_to_last.
Qed.

Lemma fetch_symbol_checkpoint (w : World) (l : Locals) (sym : string)
    (start_time : Z) (s : Loader) (l1 : Locals) (s1 : Loader) :
  fetch_symbol w l sym start_time s = (Ok l1, s1) ->
  (record_objs l = [] -> new_latest l = []) ->
  (record_objs l1 = [] -> new_latest l1 = [])
  /\ exists newc,
      pending_latest l1 = pending_latest l ++ newc
      /\ (newc = [] \/ exists c, newc = [c] /\ latest_key c = sym)
      /\ forall bars,
          get_bars w sym (_interval s) start_time = Ok (Some bars) ->
          (2 <= length bars)%nat ->
          exists b id,
            bars !! (length bars - 2)%nat = Some b
            /\ newc = [(sym, id, bar_timestamp b, true, source_name s)].
Proof.
  intros Hfetch Hinv.
  apply fetch_symbol_spec in Hfetch as (_ & _ & _ & _ & _ & Hok).
  destruct (Hok l1 eq_refl)
    as (_ & _ & recs & cks & ob & Hrecs & Hnl & Hlen & Hbars & Hob).
  unfold fetched in Hlen. cbn [fst snd] in Hlen. rewrite Hbars in Hlen.
  split.
  { intros Hempty. rewrite Hrecs in Hempty.
    apply app_eq_nil in Hempty as [Hl ->]. rewrite Hnl, (Hinv Hl).
    destruct ob as [[|b bars]|]; [by destruct Hob as [_ ->]|
                                  discriminate|by destruct Hob as [_ ->]]. }
  exists (omap (fmap latest.as_tuple) cks).
  split; [unfold pending_latest; by rewrite Hnl, omap_app|].
  destruct ob as [[|b0 bars0]|].
  - destruct Hob as [_ ->]. split; [by left|].
    intros bars Hget. rewrite Hbars in Hget. injection Hget as <-. cbn. lia.
  - destruct Hob as (ids & ck & Hbuild & Hids & -> & Hck).
    split.
    + destruct ck as [c|]; [|by left]. right.
      exists (latest.as_tuple c). split; [done|].
      by apply latest_closed_from_records in Hck as [<- _].
    + intros bars Hget Hlong. rewrite Hbars in Hget. injection Hget as <-.
      pose proof (build_records_zip _ _ _ Hbuild) as (Hl & _ & Htimes & _).
      rewrite Hids, Nat.min_id in Hl. rewrite Hl in Htimes.
      rewrite <- (length_fmap bar_timestamp), take_ge in Htimes by done.
      assert (Hrecs2 : (2 <= length recs)%nat) by (rewrite Hl; exact Hlong).
      destruct (two_or_more_split recs Hrecs2) as (pre & r & last & ->).
      clear Hrecs2. rewrite latest_closed_many in Hck. injection Hck as <-.
      rewrite length_app in Hl. cbn [length] in Hl.
      assert (Hpos : (length (b0 :: bars0) - 2 = length pre)%nat)
        by (cbn [length]; lia).
      rewrite Hpos.
      apply (f_equal (fun x => x !! length pre)) in Htimes.
      rewrite list_lookup_fmap, (list_lookup_middle pre [last] r) in Htimes
        by done.
      rewrite list_lookup_fmap in Htimes. cbn [fmap option_fmap option_map] in Htimes.
      destruct ((b0 :: bars0) !! length pre) as [b|] eqn:Hb; [|discriminate].
      injection Htimes as Ht.
      exists b, (bar_record.id r). split; [done|].
      cbn. unfold latest.as_tuple. cbn. by rewrite Ht.
  - destruct Hob as [_ ->]. split; [by left|].
    intros bars Hget. rewrite Hbars in Hget. discriminate.
Qed.

Lemma upsert_latest_lookup (rows : list LatestTuple)
    (t : gmap string LatestRow) :
  NoDup (latest_key <$> rows) ->
  (forall c, c ∈ rows ->
             foldl upsert_latest_row t rows !! latest_key c
             = Some (latest_row c))
  /\ (forall sym, sym ∉ latest_key <$> rows ->
                  foldl upsert_latest_row t rows !! sym = t !! sym).
Proof.
  intros Hnd. rewrite upsert_latest_row_by. split.
  - intros c Hc. rewrite lookup_foldl_upsert.
    by rewrite (at_key_present latest_key (fun _ r => latest_row r) c rows).
  - intros sym Hsym. rewrite lookup_foldl_upsert. by apply at_key_absent.
Qed.

Lemma load_loop_checkpoints (w : World) (keys : list (string * Z)) :
  forall (l : Locals) (s : Loader) (n : Z) (s' : Loader),
    load_loop w keys l s = (Ok n, s') ->
    Z.of_nat (processed_symbols l + length keys) = _n_active_symbols s ->
    (keys = [] -> record_objs l = []) ->
    (record_objs l = [] -> new_latest l = []) ->
    NoDup (keys.*1 ++ (latest_key <$> pending_latest l)) ->
    (forall c, c ∈ pending_latest l ->
               spot_latest (session (_target s')) !! latest_key c
               = Some (latest_row c))
    /\ (forall sym,
           sym ∉ keys.*1 -> sym ∉ latest_key <$> pending_latest l ->
           spot_latest (session (_target s')) !! sym
           = spot_latest (session (_target s)) !! sym)
    /\ (forall sym start_time bars,
           (sym, start_time) ∈ keys ->
           get_bars w sym (_interval s) start_time = Ok (Some bars) ->
           (2 <= length bars)%nat ->
           exists b id,
             bars !! (length bars - 2)%nat = Some b
             /\ spot_latest (session (_target s')) !! sym
                = Some (id, bar_timestamp b, true, source_name s)).
Proof.
  induction keys as [|[sym0 start0] keys IH];
    intros l s n s' Hrun Hcount Hlast Hinv Hnd.
  - cbn in Hrun. injection Hrun as <- <-.
    assert (Hp : pending_latest l = []).
    { unfold pending_latest. by rewrite (Hinv (Hlast eq_refl)). }
    rewrite Hp. split; [intros c Hc; by apply elem_of_nil in Hc|].
    split; [done|]. intros sym start_time bars Hin. by apply elem_of_nil in Hin.
  - cbn [load_loop] in Hrun. run_monad.
    destruct (fetch_symbol w l sym0 start0 s) as [r1 s1] eqn:Hfetch.
    destruct r1 as [l1|e]; [|discriminate].
    destruct (fetch_symbol_checkpoint _ _ _ _ _ _ _ Hfetch Hinv)
      as (Hinv1 & newc & Hp1 & Hnewc & Hmany).
    apply fetch_symbol_spec in Hfetch
      as ((Hint1 & Hsrc1 & _) & (Hses1 & _) & Hn1 & _ & _ & Hok).
    destruct (Hok l1 eq_refl) as (Hproc1 & _).
    destruct (flush_batch_spec l1 s1)
      as (l2 & s2 & Hflush & (Hint2 & Hsrc2 & _) & Hn2 & _ & Hproc2 & Hcase).
    rewrite Hflush in Hrun.
    cbn [fmap list_fmap fst app] in Hnd. apply NoDup_cons in Hnd as [Hsym0 Hnd].
    assert (Hkeys1 : forall c, c ∈ newc -> latest_key c = sym0).
    { intros c Hc. destruct Hnewc as [->|(c0 & -> & Hc0)].
      - by apply elem_of_nil in Hc.
      - by apply list_elem_of_singleton in Hc as ->. }
    assert (Hnd1 : NoDup (keys.*1 ++ (latest_key <$> pending_latest l1))).
    { rewrite Hp1, fmap_app, app_assoc. apply NoDup_app.
      split; [done|]. split.
      - intros x Hx Hx'. apply list_elem_of_fmap in Hx' as (c & -> & Hc).
        rewrite (Hkeys1 c Hc) in Hx. done.
      - destruct Hnewc as [->|(c0 & -> & _)]; [constructor|apply NoDup_singleton]. }
    assert (Hlast2 : keys = [] -> record_objs l2 = []).
    { intros ->. cbn [length] in Hcount.
      pose proof (flush_due_schedule s1 l1) as Hdue.
      destruct (flush_due s1 l1).
      - by destruct Hcase as (? & _).
      - destruct Hcase as [-> ->].
        rewrite Hproc1, Hn1 in Hdue.
        replace (Z.of_nat (S (processed_symbols l)) =? _n_active_symbols s)
          with true in Hdue by (symmetry; apply Z.eqb_eq; lia).
        rewrite orb_true_r, andb_true_r in Hdue.
        symmetry in Hdue. apply Z.ltb_ge in Hdue.
        destruct (record_objs l1); [done|]. cbn [length] in Hdue. lia. }
    assert (Hcount2 : Z.of_nat (processed_symbols l2 + length keys)
                      = _n_active_symbols s2).
    { rewrite Hproc2, Hproc1, Hn2, Hn1. cbn [length] in Hcount. lia. }
    assert (Hstep :
              (forall c, c ∈ pending_latest l1 ->
                         spot_latest (session (_target s')) !! latest_key c
                         = Some (latest_row c))
              /\ (forall sym,
                     sym ∉ keys.*1 ->
                     sym ∉ latest_key <$> pending_latest l1 ->
                     spot_latest (session (_target s')) !! sym
                     = spot_latest (session (_target s1)) !! sym)
              /\ (forall sym start_time bars,
                     (sym, start_time) ∈ keys ->
                     get_bars w sym (_interval s2) start_time
                     = Ok (Some bars) ->
                     (2 <= length bars)%nat ->
                     exists b id,
                       bars !! (length bars - 2)%nat = Some b
                       /\ spot_latest (session (_target s')) !! sym
                          = Some (id, bar_timestamp b, true, source_name s2))).
    { destruct (flush_due s1 l1).
      - destruct Hcase as (Hrec2 & Hnl2 & _ & _ & Hses2 & _).
        assert (Hp2 : pending_latest l2 = [])
          by (unfold pending_latest; by rewrite Hnl2).
        apply IH in Hrun as (_ & Hother & Hlong); try done.
        2:{ rewrite Hp2, app_nil_r. by apply NoDup_app in Hnd1 as (? & _). }
        rewrite Hp2 in Hother.
        apply NoDup_app in Hnd1 as (_ & Hdisj & Hndp).
        destruct (upsert_latest_lookup (pending_latest l1)
                    (spot_latest (session (_target s1))) Hndp)
          as (Hin & Hout).
        split; [|split; [|done]].
        + intros c Hc. rewrite Hother.
          * rewrite Hses2. cbn [spot_latest]. by apply Hin.
          * intros Hk. apply (Hdisj _ Hk). apply list_elem_of_fmap.
            by exists c.
          * apply not_elem_of_nil.
        + intros sym Hk Hp. rewrite Hother; [|done|apply not_elem_of_nil].
          rewrite Hses2. cbn [spot_latest]. by apply Hout.
      - destruct Hcase as [-> ->].
        by apply IH in Hrun. }
    destruct Hstep as (Hpend & Hother & Hlong).
    split; [|split].
    + intros c Hc. apply Hpend. rewrite Hp1. apply elem_of_app. by left.
    + intros sym Hk Hp. cbn [fmap list_fmap fst] in Hk.
      apply not_elem_of_cons in Hk as [Hne Hk].
      rewrite Hother, Hses1; [done|done|].
      rewrite Hp1, fmap_app. intros Hx. apply elem_of_app in Hx as [Hx|Hx];
        [done|].
      apply list_elem_of_fmap in Hx as (c & -> & Hc).
      by rewrite (Hkeys1 c Hc) in Hne.
    + intros sym start_time bars Hin Hget Hlen.
      apply elem_of_cons in Hin as [[= -> ->]|Hin].
      * destruct (Hmany bars Hget Hlen) as (b & id & Hb & ->).
        exists b, id. split; [done|].
        apply (Hpend (sym0, id, bar_timestamp b, true, source_name s)).
        rewrite Hp1. apply elem_of_app. right.
        apply list_elem_of_singleton. reflexivity.
      * destruct (Hlong sym start_time bars Hin) as (b & id & Hb & Hrow);
          [by rewrite Hint2, Hint1|done|].
        exists b, id. split; [done|]. by rewrite Hrow, Hsrc2, Hsrc1.
Qed.

(** X24: after a cycle that returns on a symbol list without
    repetition, every symbol for which the provider returned two bars
    or more has its checkpoint at the timestamp of the second-to-last
    of these bars, marked active and with the loader's source name. *)
Theorem run_once_checkpoints (w : World) (symbol_lst : list string)
    (s s' : Loader) :
  run_once w symbol_lst s = (Ok tt, s') ->
  NoDup symbol_lst ->
  exists tr,
    trace s' = trace s ++ tr
    /\ forall sym start_time bars,
        (sym, start_time) ∈ requested tr ->
        get_bars w sym (_interval s) start_time = Ok (Some bars) ->
        (2 <= length bars)%nat ->
        exists b id,
          bars !! (length bars - 2)%nat = Some b
          /\ spot_latest (session (_target s')) !! sym
             = Some (id, bar_timestamp b, true, source_name s).
Proof.
  intros Hrun Hnodup.
  destruct (run_once_steps w symbol_lst s (Ok tt) s' Hrun eq_refl)
    as (s1 & keys & s2 & n & s3 & H1 & H2 & H3 & ->).
  apply check_trading_status_spec in H1
    as ((Hint1 & Hsrc1 & _) & _ & _ & (tr1 & Htr1 & Hreq1 & _) & _).
  cbn in Hint1, Hsrc1, Htr1.
  apply get_keys_spec in H2 as (-> & _ & _ & Hnd).
  unfold load_from_keys in H3.
  pose proof (load_loop_trace _ _ _ _ _ _ H3)
    as (_ & _ & _ & tr3 & Htr3 & Hreq3 & _).
  apply load_loop_checkpoints in H3 as (_ & _ & Hlong); try done.
  2:{ cbn. rewrite app_nil_r. by apply Hnd. }
  cbn in Htr3, Hlong.
  exists (tr1 ++ tr3). split.
  { destruct (n >? _n_active_symbols s3); cbn;
      by rewrite Htr3, Htr1, <- app_assoc. }
  intros sym start_time bars Hin Hget Hlen.
  rewrite requested_app, Hreq1, Hreq3 in Hin. cbn [app] in Hin.
  destruct (Hlong sym start_time bars Hin) as (b & id & Hb & Hrow);
    [by rewrite Hint1|done|].
  exists b, id. split; [done|].
  rewrite <- Hsrc1, <- Hrow. by destruct (n >? _n_active_symbols s3).
Qed.

Lemma run_once_checkpoints_witness :
  exists b id,
    [sample.bar_at "XYZ" sample.t0;
     sample.bar_at "XYZ" (sample.t0 + sample.hour);
     sample.bar_at "XYZ" (sample.t0 + 2 * sample.hour)] !! 1%nat = Some b
    /\ spot_latest
         (session (_target (run_once sample.xyz_world ["XYZ"]
                              sample.loader_1h).2)) !! "XYZ"
       = Some (id, bar_timestamp b, true, source_name sample.loader_1h).
Proof.
  destruct (run_once_checkpoints sample.xyz_world ["XYZ"] sample.loader_1h
              (run_once sample.xyz_world ["XYZ"] sample.loader_1h).2)
    as (tr & Htr & Hlong).
  - vm_compute. reflexivity.
  - apply NoDup_singleton.
  - apply (Hlong "XYZ" (datetime_min + US_PER_DAY)
             [sample.bar_at "XYZ" sample.t0;
              sample.bar_at "XYZ" (sample.t0 + sample.hour);
              sample.bar_at "XYZ" (sample.t0 + 2 * sample.hour)]).
    + assert (Hreq : requested tr = [("XYZ", datetime_min + US_PER_DAY)]).
      { change (trace sample.loader_1h ++ tr) with tr in Htr.
        rewrite <- Htr. vm_compute. reflexivity. }
      rewrite Hreq. apply list_elem_of_singleton. reflexivity.
    + vm_compute. reflexivity.
    + cbn. lia.
Defined.
